(** * Signal lifecycle and risk engine of the Fredfx trading server

    A shallow embedding of the server-side services that generate, arbitrate,
    track and monitor trade signals:

    - [TechnicalAnalysisService] (trade levels, signal scoring),
    - [ConsolidatedSignalGenerator] (consolidated signals and risk levels),
    - [RiskManagementService] (risk parameters, validation, trade statistics),
    - [SignalManager] (conflict prevention),
    - [SignalTracker] (tick-driven closure),
    - [TacticalTradingAssistant] (profit protection and throttled alerts).

    Numbers.  The TypeScript code computes on IEEE doubles.  Prices, percentages
    and scores are embedded as exact rationals [Q]; integer columns
    (identifiers, confidence, priority) and millisecond timestamps as [Z].
    Where a decision of the code depends on a non-finite double (a division
    by zero) the embedding writes the case out; the one unguarded division
    that feeds further arithmetic, the profit percentage of a health-check
    cycle, is embedded for a non-zero entry price, and the statements about
    cycles say so.  Decimal columns, which the code reads with [parseFloat],
    are embedded as the number they hold.

    Effects.  Database calls, the in-memory maps of the services and the
    outgoing notifications are embedded by explicit state passing: every
    operation takes the state it reads and returns the state it leaves,
    together with what it emits. *)

From Stdlib Require Import ZArith QArith Qround Qabs Lqa Bool List Sorted Lia.
From stdpp Require Import gmap strings.

Set Default Proof Using "Type".

(** ** JavaScript numeric helpers *)

Module Js.

Local Open Scope Q_scope.

(** [x < y] and [x <= y] on numbers, as booleans. *)
Definition ltb (x y : Q) : bool := negb (Qle_bool y x).
Definition leb (x y : Q) : bool := Qle_bool x y.
Definition eqb (x y : Q) : bool := Qeq_bool x y.

(** [Math.max], [Math.min], [Math.abs]. *)
Definition max (x y : Q) : Q := if leb x y then y else x.
Definition min (x y : Q) : Q := if leb x y then x else y.
Definition abs (x : Q) : Q := Qabs x.

(** [Math.round]: the nearest integer, halves towards plus infinity. *)
Definition round (x : Q) : Z := Qfloor (x + (1 # 2)).

(** [Math.round(x * 10^k) / 10^k]. *)
Definition roundTo (scale : positive) (x : Q) : Q :=
  inject_Z (round (x * inject_Z (Zpos scale))) / inject_Z (Zpos scale).

(** [x.toFixed(k)] read back as a number: the nearest multiple of [10^-k],
    halves away from zero. *)
Definition toFixed (scale : positive) (x : Q) : Q :=
  if ltb x 0 then - roundTo scale (- x) else roundTo scale x.

(** Truthiness of a number: [0] is falsy. *)
Definition truthy (x : Q) : bool := negb (eqb x 0).

(** [x || d] on numbers. *)
Definition orElse (x d : Q) : Q := if truthy x then x else d.

(** [x / y] on doubles: [None] stands for the non-finite results (NaN and
    the infinities) of a division by zero. *)
Definition div (x y : Q) : option Q :=
  if eqb y 0 then None else Some (x / y).

(** Truthiness of an optional object (a [Date]): set or not. *)
Definition isSet {A : Type} (x : option A) : bool :=
  match x with Some _ => true | None => false end.

(** [x || d] on integers. *)
Definition orElseZ (x d : Z) : Z := if (x =? 0)%Z then d else x.

End Js.

(** ** Shared schema *)

Module Schema.

(** The [signalType] text column: ['BUY'], ['SELL'], or anything else
    (['HOLD'] from the generators, ['EXIT'] in the schema comment). *)
Inductive SignalType := BUY | SELL | HOLD.

Definition SignalType_eqb (a b : SignalType) : bool :=
  match a, b with
  | BUY, BUY | SELL, SELL | HOLD, HOLD => true
  | _, _ => false
  end.

(** The [result] text column. *)
Inductive Result := WIN | LOSS | REPLACED.

Inductive TradeType := SCALP | DAY | SWING.

Inductive Timeframe := M1 | M5 | M15 | H1 | H4 | D1.

(** A row of the [signals] table, with the columns the services below read
    or write.  The free-text [strategyType] label and the JSON column of
    indicator values play no part in any decision and are left out. *)
Record Signal := mkSignal {
  id : Z;
  symbol : string;
  signalType : SignalType;
  entryPrice : Q;
  exitPrice : option Q;
  takeProfitPrice : option Q;
  stopLossPrice : option Q;
  confidence : Z;
  isActive : bool;
  result : option Result;
  pnl : option Q;
  tradeType : TradeType;
  timeframe : Timeframe;
  priority : Z
}.

(** [InsertSignal]: a row to insert; the categorisation columns are
    optional. *)
Record InsertSignal := mkInsertSignal {
  ins_symbol : string;
  ins_signalType : SignalType;
  ins_entryPrice : Q;
  ins_takeProfitPrice : option Q;
  ins_stopLossPrice : option Q;
  ins_confidence : Z;
  ins_tradeType : option TradeType;
  ins_timeframe : option Timeframe;
  ins_priority : option Z
}.

End Schema.

(** ** TechnicalAnalysisService: trade levels *)

Module TechnicalAnalysisService.
Import Schema.
Local Open Scope Q_scope.

Record TradeLevels := mkTradeLevels {
  entry : Q;
  takeProfit : Q;
  stopLoss : Q
}.

(** [generateTradeLevels(price, direction, tpPercent, slPercent)];
    [None] is the thrown error for a direction that is neither BUY nor
    SELL. *)
Definition generateTradeLevels (price : Q) (direction : SignalType)
    (tpPercent slPercent : Q) : option TradeLevels :=
  let entry := Js.roundTo 10000 price in
  match direction with
  | BUY =>
      Some {| entry := entry;
              takeProfit := Js.roundTo 10000 (price * (1 + tpPercent / 100));
              stopLoss := Js.roundTo 10000 (price * (1 - slPercent / 100)) |}
  | SELL =>
      Some {| entry := entry;
              takeProfit := Js.roundTo 10000 (price * (1 - tpPercent / 100));
              stopLoss := Js.roundTo 10000 (price * (1 + slPercent / 100)) |}
  | HOLD => None
  end.

Inductive Trend := UPTREND | DOWNTREND | SIDEWAYS.
Inductive Volatility := HIGH | MEDIUM | LOW.

Record MarketStructure := mkMarketStructure {
  trend : Trend;
  support : Q;
  resistance : Q;
  volatility : Volatility
}.

Definition isHigh (v : Volatility) : bool :=
  match v with HIGH => true | _ => false end.

Record TpSl := mkTpSl {
  tp_takeProfitPrice : Q;
  tp_stopLossPrice : Q
}.

(** [calculateTakeProfitStopLoss(entryPrice, signalType, confidence,
    marketStructure)]: confidence-tiered percentages, widened in high
    volatility, then tightened towards support and resistance. *)
Definition calculateTakeProfitStopLoss (entryPrice : Q)
    (signalType : SignalType) (confidence : Z) (ms : MarketStructure)
    : option TpSl :=
  let '(tpPercent, slPercent) :=
    if (85 <=? confidence)%Z then (25 # 10, 15 # 10)
    else if (80 <=? confidence)%Z then (2, 15 # 10)
    else if (75 <=? confidence)%Z then (18 # 10, 15 # 10)
    else (15 # 10, 2) in
  let '(tpPercent, slPercent) :=
    match volatility ms with
    | HIGH => (tpPercent * (11 # 10), slPercent * (11 # 10))
    | MEDIUM => (tpPercent * 1, slPercent * 1)
    | LOW => (tpPercent, slPercent)
    end in
  match generateTradeLevels entryPrice signalType tpPercent slPercent with
  | None => None
  | Some levels =>
      let takeProfitPrice := takeProfit levels in
      let stopLossPrice := stopLoss levels in
      match signalType with
      | BUY =>
          let stopLossPrice :=
            if Js.ltb 0 (support ms) && Js.ltb (support ms) entryPrice
            then
              let supportStopLoss := support ms * (995 # 1000) in
              if Js.ltb stopLossPrice supportStopLoss
              then supportStopLoss else stopLossPrice
            else stopLossPrice in
          let takeProfitPrice :=
            if Js.ltb entryPrice (resistance ms)
            then
              let resistanceTakeProfit := resistance ms * (995 # 1000) in
              if Js.ltb resistanceTakeProfit takeProfitPrice
              then resistanceTakeProfit else takeProfitPrice
            else takeProfitPrice in
          Some {| tp_takeProfitPrice := takeProfitPrice;
                  tp_stopLossPrice := stopLossPrice |}
      | _ =>
          let stopLossPrice :=
            if Js.ltb 0 (resistance ms) && Js.ltb entryPrice (resistance ms)
            then
              let resistanceStopLoss := resistance ms * (1005 # 1000) in
              if Js.ltb resistanceStopLoss stopLossPrice
              then resistanceStopLoss else stopLossPrice
            else stopLossPrice in
          let takeProfitPrice :=
            if Js.ltb (support ms) entryPrice && Js.ltb 0 (support ms)
            then
              let supportTakeProfit := support ms * (1005 # 1000) in
              if Js.ltb takeProfitPrice supportTakeProfit
              then supportTakeProfit else takeProfitPrice
            else takeProfitPrice in
          Some {| tp_takeProfitPrice := takeProfitPrice;
                  tp_stopLossPrice := stopLossPrice |}
      end
  end.

(** *** Signal scoring

    [generateSignal] derives indicator values from the price history and
    then scores them.  The indicator values, and the outcomes of the four
    secondary analyses, are the inputs of the embedding of the scoring. *)

Inductive RegimeType := TRENDING | RANGING.
Inductive Strategy := BREAKOUT | PULLBACK | REVERSAL | SCALP_STRATEGY.
Inductive TrapType := STOP_HUNT | FAKE_BREAKOUT | REJECTION | NONE.

Record Analysis := mkAnalysis {
  currentPrice : Q;
  rsi : Q;
  macd : Q;
  macdSignalLine : Q;
  sma20 : Q;
  ema50 : Q;
  bollingerUpper : Q;
  bollingerLower : Q;
  priceChange : Q;
  trendDirection : Q;
  marketStructure : MarketStructure;
  alignment : bool;
  regimeType : RegimeType;
  regimeStrength : Q;
  recommendedStrategy : Strategy;
  volumeConfirmation : bool;
  trapDetected : bool;
  trapType : TrapType
}.

(** The two comparisons made on
    [bbPosition = (currentPrice - lower) / (upper - lower)].  When the bands
    coincide the double is NaN (neither comparison holds) or an infinity of
    the sign of the numerator. *)
Definition bbBelow (a : Analysis) : bool :=
  let num := currentPrice a - bollingerLower a in
  let den := bollingerUpper a - bollingerLower a in
  if Js.eqb den 0 then Js.ltb num 0 else Js.ltb (num / den) (1 # 10).

Definition bbAbove (a : Analysis) : bool :=
  let num := currentPrice a - bollingerLower a in
  let den := bollingerUpper a - bollingerLower a in
  if Js.eqb den 0 then Js.ltb 0 num else Js.ltb (9 # 10) (num / den).

Definition trapTypeName (t : TrapType) : string :=
  match t with
  | STOP_HUNT => "STOP_HUNT"
  | FAKE_BREAKOUT => "FAKE_BREAKOUT"
  | REJECTION => "REJECTION"
  | NONE => "NONE"
  end.

Record Scores := mkScores {
  bullishScore : Z;
  bearishScore : Z;
  reasoning : list string
}.

Definition bullish (n : Z) (why : list string) (s : Scores) : Scores :=
  {| bullishScore := bullishScore s + n;
     bearishScore := bearishScore s;
     reasoning := reasoning s ++ why |}.

Definition bearish (n : Z) (why : list string) (s : Scores) : Scores :=
  {| bullishScore := bullishScore s;
     bearishScore := bearishScore s + n;
     reasoning := reasoning s ++ why |}.

Definition scoreRsi (a : Analysis) (s : Scores) : Scores :=
  if Js.ltb (rsi a) 30 then bullish 25 ["RSI extremely oversold"] s
  else if Js.ltb (rsi a) 40 then bullish 15 ["RSI oversold"] s
  else if Js.ltb 70 (rsi a) then bearish 25 ["RSI extremely overbought"] s
  else if Js.ltb 60 (rsi a) then bearish 15 ["RSI overbought"] s
  else s.

Definition scoreMacd (a : Analysis) (s : Scores) : Scores :=
  let macdHistogram := macd a - macdSignalLine a in
  if Js.ltb (macdSignalLine a) (macd a) && Js.ltb 0 macdHistogram
  then bullish 20 ["MACD bullish crossover"] s
  else if Js.ltb (macd a) (macdSignalLine a) && Js.ltb macdHistogram 0
  then bearish 20 ["MACD bearish crossover"] s
  else s.

Definition scoreMovingAverages (a : Analysis) (s : Scores) : Scores :=
  if Js.ltb (sma20 a) (currentPrice a) && Js.ltb (ema50 a) (currentPrice a)
     && Js.ltb (ema50 a) (sma20 a)
  then bullish 15 ["Strong uptrend - price above MAs"] s
  else if Js.ltb (currentPrice a) (sma20 a)
          && Js.ltb (currentPrice a) (ema50 a)
          && Js.ltb (sma20 a) (ema50 a)
  then bearish 15 ["Strong downtrend - price below MAs"] s
  else s.

Definition scoreBollinger (a : Analysis) (s : Scores) : Scores :=
  if bbBelow a then bullish 20 ["Price at Bollinger lower band"] s
  else if bbAbove a then bearish 20 ["Price at Bollinger upper band"] s
  else s.

Definition scoreMomentum (a : Analysis) (s : Scores) : Scores :=
  if Js.ltb (2 # 10) (trendDirection a) && Js.ltb (1 # 10) (priceChange a)
  then bullish 10 ["Strong bullish momentum"] s
  else if Js.ltb (trendDirection a) (- (2 # 10))
          && Js.ltb (priceChange a) (- (1 # 10))
  then bearish 10 ["Strong bearish momentum"] s
  else s.

Definition scoreStructure (a : Analysis) (s : Scores) : Scores :=
  let ms := marketStructure a in
  match trend ms with
  | UPTREND =>
      if Js.ltb (support ms) (currentPrice a) then bullish 10 [] s else s
  | DOWNTREND =>
      if Js.ltb (currentPrice a) (resistance ms) then bearish 10 [] s else s
  | SIDEWAYS => s
  end.

(** Scores are sums of non-negative weights. *)
Definition nonneg (s : Scores) : Prop :=
  (0 <= bullishScore s)%Z /\ (0 <= bearishScore s)%Z.

(** The bullish and bearish component scores of an analysis. *)
Definition scores (a : Analysis) : Scores :=
  scoreStructure a (scoreMomentum a (scoreBollinger a
    (scoreMovingAverages a (scoreMacd a (scoreRsi a
      {| bullishScore := 0; bearishScore := 0; reasoning := [] |}))))).

Definition scoreDifference (s : Scores) : Z :=
  Z.abs (bullishScore s - bearishScore s).

(** Direction and pure-technical confidence from the score difference. *)
Definition technicalDecision (s : Scores) : SignalType * Z :=
  if (bearishScore s <? bullishScore s)%Z && (20 <=? scoreDifference s)%Z
  then (BUY, Z.min (40 + scoreDifference s) 85)
  else if (bullishScore s <? bearishScore s)%Z
          && (20 <=? scoreDifference s)%Z
  then (SELL, Z.min (40 + scoreDifference s) 85)
  else (HOLD, 30 + Z.max (bullishScore s) (bearishScore s))%Z.

(** The reduction for high volatility, and the gate at 70. *)
Definition volatilityAdjusted (a : Analysis) (confidence : Z) : Z :=
  if isHigh (volatility (marketStructure a))
  then Z.max (confidence - 15) 30 else confidence.

Definition gated (signalType : SignalType) (confidence : Z) : SignalType :=
  if (confidence <? 70)%Z then HOLD else signalType.

Definition alignmentBonus (a : Analysis) : Z :=
  if alignment a then 10 else 0.

Definition trendBonus (a : Analysis) : Z :=
  match regimeType a with
  | TRENDING => if Js.ltb 70 (regimeStrength a) then 5 else 0
  | RANGING => 0
  end.

Definition volumeBonus (a : Analysis) : Z :=
  if volumeConfirmation a then 5 else 0.

Definition trapPenalty (a : Analysis) : Z :=
  if trapDetected a then 15 else 0.

Definition reversalBonus (a : Analysis) (signalType : SignalType) : Z :=
  match recommendedStrategy a, signalType with
  | REVERSAL, BUY => if Js.ltb (rsi a) 30 then 5 else 0
  | REVERSAL, SELL => if Js.ltb 70 (rsi a) then 5 else 0
  | _, _ => 0
  end.

(** The confirmation adjustments and the final cap at 95. *)
Definition adjustedConfidence (a : Analysis) (signalType : SignalType)
    (confidence : Z) : Z :=
  Z.min
    (confidence + alignmentBonus a + trendBonus a + volumeBonus a
     - trapPenalty a + reversalBonus a signalType)
    95.

Definition adjustmentReasons (a : Analysis) (signalType : SignalType)
    : list string :=
  (if alignment a then ["Multi-timeframe alignment confirmed"] else [])
  ++ (if (0 <? trendBonus a)%Z
      then ["Strong trending market detected"] else [])
  ++ (if volumeConfirmation a then ["Volume confirms signal"] else [])
  ++ (if trapDetected a
      then ["Liquidity trap detected: " +:+ trapTypeName (trapType a)]
      else [])
  ++ (if (0 <? reversalBonus a signalType)%Z
      then ["Reversal signal in ranging market"] else []).

Record SignalResult := mkSignalResult {
  sr_signalType : SignalType;
  sr_confidence : Z;
  sr_reasoning : list string;
  sr_takeProfitPrice : option Q;
  sr_stopLossPrice : option Q
}.

(** [generateSignal(symbol, marketDataHistory)] on a history of
    [historyLength] points whose analysis is [a]; [None] is the [null]
    returned on fewer than 20 points. *)
Definition generateSignal (historyLength : nat) (a : Analysis)
    : option SignalResult :=
  if (historyLength <? 20)%nat then None
  else
    let s := scores a in
    let '(signalType, confidence) := technicalDecision s in
    let confidence := volatilityAdjusted a confidence in
    let signalType := gated signalType confidence in
    let tpSl :=
      match signalType with
      | HOLD => None
      | _ => calculateTakeProfitStopLoss (currentPrice a) signalType
               confidence (marketStructure a)
      end in
    Some {| sr_signalType := signalType;
            sr_confidence := adjustedConfidence a signalType confidence;
            sr_reasoning :=
              reasoning s
              ++ (if isHigh (volatility (marketStructure a))
                  then ["High volatility reduces confidence"] else [])
              ++ adjustmentReasons a signalType;
            sr_takeProfitPrice := option_map tp_takeProfitPrice tpSl;
            sr_stopLossPrice := option_map tp_stopLossPrice tpSl |}.

End TechnicalAnalysisService.

(** ** ConsolidatedSignalGenerator *)

Module ConsolidatedSignalGenerator.
Import Schema.
Local Open Scope Q_scope.

Definition MIN_CONFIDENCE : Z := 75.
Definition MIN_RISK_REWARD : Q := 25 # 10.

Inductive BandPosition := UPPER | LOWER | MIDDLE.
Inductive MaTrend := BULLISH | BEARISH.

(** The indicator values [calculateAllIndicators] hands to the scoring. *)
Record Indicators := mkIndicators {
  rsi : Q;
  macdHistogram : Q;
  bollingerPosition : BandPosition;
  smaTrend : MaTrend;
  emaTrend : MaTrend;
  momentum : Q;
  volatility : Q
}.

Record TechnicalSignal := mkTechnicalSignal {
  ts_action : SignalType;
  ts_confidence : Q;
  ts_technicalScore : Q;
  ts_reasoning : list string
}.

Definition isBullish (t : MaTrend) : bool :=
  match t with BULLISH => true | BEARISH => false end.

(** [generateTechnicalSignal(indicators, currentPrice)].  The reasoning
    strings are kept without the indicator value the code prints in
    them. *)
Definition generateTechnicalSignal (i : Indicators) : TechnicalSignal :=
  let '(bull1, bear1, why1) :=
    if Js.ltb (rsi i) 30 then (20, 0, ["RSI oversold - Strong buy signal"])
    else if Js.ltb 70 (rsi i)
    then (0, 20, ["RSI overbought - Strong sell signal"])
    else if Js.ltb (rsi i) 40 then (10, 0, ["RSI - Moderate buy signal"])
    else if Js.ltb 60 (rsi i) then (0, 10, ["RSI - Moderate sell signal"])
    else (0, 0, []) in
  let '(bull2, bear2, why2) :=
    if Js.ltb 0 (macdHistogram i)
    then (25, 0, ["MACD bullish crossover - Momentum building"])
    else (0, 25, ["MACD bearish crossover - Momentum declining"]) in
  let '(bull3, bear3, why3) :=
    match bollingerPosition i with
    | LOWER => (15, 0, ["Price at lower Bollinger Band - Potential reversal"])
    | UPPER => (0, 15, ["Price at upper Bollinger Band - Potential reversal"])
    | MIDDLE => (0, 0, [])
    end in
  let '(bull4, bear4, why4) :=
    match smaTrend i, emaTrend i with
    | BULLISH, BULLISH =>
        (20, 0,
         ["Both SMA and EMA trending bullish - Strong trend confirmation"])
    | BEARISH, BEARISH =>
        (0, 20,
         ["Both SMA and EMA trending bearish - Strong trend confirmation"])
    | _, _ => (10, 0, ["Mixed MA signals - Moderate bullish bias"])
    end in
  let '(bull5, bear5, why5) :=
    if Js.ltb (2 # 100) (momentum i)
    then (20, 0, ["Strong positive momentum - Trend acceleration"])
    else if Js.ltb (momentum i) (- (2 # 100))
    then (0, 20, ["Strong negative momentum - Trend acceleration"])
    else if Js.ltb 0 (momentum i)
    then (10, 0, ["Positive momentum - Upward bias"])
    else (0, 10, ["Negative momentum - Downward bias"]) in
  let bullishSignals : Q := bull1 + bull2 + bull3 + bull4 + bull5 in
  let bearishSignals : Q := bear1 + bear2 + bear3 + bear4 + bear5 in
  let totalWeight : Q := 20 + 25 + 15 + 20 + 20 in
  let netScore := bullishSignals - bearishSignals in
  let confidence := Js.min 95 (Js.abs netScore / totalWeight * 100) in
  let action :=
    if Js.ltb 30 netScore then BUY
    else if Js.ltb netScore (- 30) then SELL
    else HOLD in
  {| ts_action := action;
     ts_confidence := confidence;
     ts_technicalScore := confidence;
     ts_reasoning := why1 ++ why2 ++ why3 ++ why4 ++ why5 |}.

Record CombinedScore := mkCombinedScore {
  cs_action : SignalType;
  cs_confidence : Z;
  cs_technicalScore : Q;
  cs_fundamentalScore : Q;
  cs_reasoning : list string
}.

(** [combineAnalysis(technical, fundamental)]. *)
Definition combineAnalysis (technical : TechnicalSignal)
    (fundamentalScore : Q) (fundamentalReasoning : list string)
    : CombinedScore :=
  let combinedScore :=
    ts_technicalScore technical * (7 # 10) + fundamentalScore * (3 # 10) in
  {| cs_action := ts_action technical;
     cs_confidence := Js.round combinedScore;
     cs_technicalScore := ts_technicalScore technical;
     cs_fundamentalScore := fundamentalScore;
     cs_reasoning := ts_reasoning technical ++ fundamentalReasoning |}.

(** [determineTimeframe(indicators)]. *)
Definition determineTimeframe (i : Indicators) : TradeType :=
  let momentum := Js.abs (momentum i) in
  if Js.ltb (15 # 1000) (volatility i) && Js.ltb (2 # 100) momentum
  then SCALP
  else if Js.ltb (8 # 1000) (volatility i) || Js.ltb (1 # 100) momentum
  then DAY
  else SWING.

Record RiskLevels := mkRiskLevels {
  rl_stopLossPrice : Q;
  rl_takeProfitPrice : Q;
  rl_riskReward : Q
}.

(** The [timeframeMultipliers] table: stop-loss and take-profit factors. *)
Definition timeframeMultipliers (timeframe : TradeType) : Q * Q :=
  match timeframe with
  | SCALP => (8 # 10, 25 # 10)
  | DAY => (1, 3)
  | SWING => (12 # 10, 35 # 10)
  end.

(** [calculateRiskLevels(entryPrice, confidence, volatility, timeframe)].
    The method takes no direction.  The quotient
    [takeProfitPercent / stopLossPercent] has a positive divisor, since
    [baseStopLoss >= 0.015]. *)
Definition calculateRiskLevels (entryPrice : Q) (confidence : Z)
    (volatility : Q) (timeframe : TradeType) : RiskLevels :=
  let baseStopLoss := Js.max (15 # 1000) (volatility * (15 # 10)) in
  let confidenceMultiplier := inject_Z confidence / 100 in
  let '(sl, tp) := timeframeMultipliers timeframe in
  let stopLossPercent := baseStopLoss * sl in
  let takeProfitPercent := stopLossPercent * tp * confidenceMultiplier in
  let stopLossPrice := entryPrice * (1 - stopLossPercent) in
  let takeProfitPrice := entryPrice * (1 + takeProfitPercent) in
  let riskReward := takeProfitPercent / stopLossPercent in
  {| rl_stopLossPrice := stopLossPrice;
     rl_takeProfitPrice := takeProfitPrice;
     rl_riskReward := Js.roundTo 100 riskReward |}.

Record ConsolidatedSignal := mkConsolidatedSignal {
  symbol : string;
  action : SignalType;
  confidence : Z;
  entryPrice : Q;
  takeProfitPrice : Q;
  stopLossPrice : Q;
  timeframe : TradeType;
  reasoning : list string;
  technicalScore : Q;
  fundamentalScore : Q;
  riskReward : Q
}.

(** [generateSignalForSymbol(symbol)], given the market price, the
    indicator values and the fundamental analysis it fetches. *)
Definition generateSignalForSymbol (symbol : string) (price : Q)
    (indicators : Indicators) (fundamentalScore : Q)
    (fundamentalReasoning : list string) : option ConsolidatedSignal :=
  let technicalSignal := generateTechnicalSignal indicators in
  let combinedScore :=
    combineAnalysis technicalSignal fundamentalScore fundamentalReasoning in
  let timeframe := determineTimeframe indicators in
  let riskLevels :=
    calculateRiskLevels price (cs_confidence combinedScore)
      (volatility indicators) timeframe in
  if (cs_confidence combinedScore <? MIN_CONFIDENCE)%Z
     || Js.ltb (rl_riskReward riskLevels) MIN_RISK_REWARD
  then None
  else
    Some {| symbol := symbol;
            action := cs_action combinedScore;
            confidence := cs_confidence combinedScore;
            entryPrice := price;
            takeProfitPrice := rl_takeProfitPrice riskLevels;
            stopLossPrice := rl_stopLossPrice riskLevels;
            timeframe := timeframe;
            reasoning := cs_reasoning combinedScore;
            technicalScore := cs_technicalScore combinedScore;
            fundamentalScore := cs_fundamentalScore combinedScore;
            riskReward := rl_riskReward riskLevels |}.

(** [validateSignalQuality(signal)]. *)
Definition validateSignalQuality (signal : ConsolidatedSignal) : bool :=
  negb ((confidence signal <? MIN_CONFIDENCE)%Z
        || Js.ltb (riskReward signal) MIN_RISK_REWARD
        || Js.ltb (technicalScore signal) 70
        || (length (reasoning signal) <? 3)%nat).

End ConsolidatedSignalGenerator.

(** ** RiskManagementService *)

Module RiskManagementService.
Import Schema.
Local Open Scope Q_scope.

Record RiskManagementConfig := mkConfig {
  maxRiskPerTrade : Q;
  riskRewardRatio : Q;
  maxConsecutiveLosses : Z;
  trailStopLoss : bool;
  maxDrawdown : Q;
  risk_90_100 : Q;
  risk_80_89 : Q;
  risk_75_79 : Q;
  risk_70_74 : Q;
  risk_60_69 : Q;
  risk_below_60 : Q
}.

(** The configuration the service is constructed with. *)
Definition defaultConfig : RiskManagementConfig :=
  {| maxRiskPerTrade := 15 # 10;
     riskRewardRatio := 25 # 10;
     maxConsecutiveLosses := 3;
     trailStopLoss := true;
     maxDrawdown := 15;
     risk_90_100 := 15 # 10;
     risk_80_89 := 12 # 10;
     risk_75_79 := 1;
     risk_70_74 := 8 # 10;
     risk_60_69 := 5 # 10;
     risk_below_60 := 3 # 10 |}.

(** The service object: its configuration and its rolling statistics. *)
Record RiskManagement := mkRiskManagement {
  config : RiskManagementConfig;
  consecutiveLosses : Z;
  totalTrades : Z;
  winningTrades : Z;
  totalPnL : Q;
  currentDrawdown : Q;
  maxDrawdownReached : Q
}.

Definition initial : RiskManagement :=
  {| config := defaultConfig;
     consecutiveLosses := 0;
     totalTrades := 0;
     winningTrades := 0;
     totalPnL := 0;
     currentDrawdown := 0;
     maxDrawdownReached := 0 |}.

Record EnhancedRiskParams := mkEnhancedRiskParams {
  rp_entryPrice : Q;
  rp_stopLossPrice : Q;
  rp_takeProfitPrice : Q;
  rp_positionSize : option Q;
  rp_riskAmount : Q;
  rp_rewardAmount : Q;
  rp_riskRewardRatio : Q;
  rp_maxLossPercentage : Q;
  rp_maxGainPercentage : Q;
  rp_trailingStopPrice : option Q;
  rp_confidenceAdjustment : Q
}.

(** [getConfidenceBasedRisk(confidence)]. *)
Definition getConfidenceBasedRisk (c : RiskManagementConfig)
    (confidence : Z) : Q :=
  if (90 <=? confidence)%Z then risk_90_100 c
  else if (80 <=? confidence)%Z then risk_80_89 c
  else if (75 <=? confidence)%Z then risk_75_79 c
  else if (70 <=? confidence)%Z then risk_70_74 c
  else if (60 <=? confidence)%Z then risk_60_69 c
  else risk_below_60 c.

(** [calculateBaseStopLoss(symbol, volatility)]. *)
Definition calculateBaseStopLoss (symbol : string) (volatility : Q) : Q :=
  let symbolBase :=
    if String.eqb symbol "R_10" then 8 # 10
    else if String.eqb symbol "R_25" then 1
    else if String.eqb symbol "R_75" then 12 # 10
    else if String.eqb symbol "RDBULL" then 15 # 10
    else if String.eqb symbol "RDBEAR" then 15 # 10
    else 1 in
  symbolBase * volatility.

(** [getConsecutiveLossAdjustment()]. *)
Definition getConsecutiveLossAdjustment (rm : RiskManagement) : Q :=
  if (consecutiveLosses rm =? 0)%Z then 1
  else if (consecutiveLosses rm =? 1)%Z then 9 # 10
  else if (consecutiveLosses rm =? 2)%Z then 8 # 10
  else if (3 <=? consecutiveLosses rm)%Z then 6 # 10
  else 1.

(** [calculateTrailingStop(entryPrice, signalType, trailPercent)]. *)
Definition calculateTrailingStop (entryPrice : Q) (signalType : SignalType)
    (trailPercent : Q) : Q :=
  match signalType with
  | BUY => entryPrice * (1 - trailPercent / 100)
  | _ => entryPrice * (1 + trailPercent / 100)
  end.

(** [calculateEnhancedRiskParams(symbol, signalType, entryPrice,
    confidence, volatility, accountBalance)]. *)
Definition calculateEnhancedRiskParams (rm : RiskManagement)
    (symbol : string) (signalType : SignalType) (entryPrice : Q)
    (confidence : Z) (volatility accountBalance : Q) : EnhancedRiskParams :=
  let confidenceRisk := getConfidenceBasedRisk (config rm) confidence in
  let consecutiveLossAdjustment := getConsecutiveLossAdjustment rm in
  let finalRiskPercent := confidenceRisk * consecutiveLossAdjustment in
  let riskAmount := accountBalance * finalRiskPercent / 100 in
  let rewardAmount := riskAmount * riskRewardRatio (config rm) in
  let baseStopLossPercent := calculateBaseStopLoss symbol volatility in
  let stopLossPercent :=
    Js.min baseStopLossPercent (finalRiskPercent * (8 # 10)) in
  let takeProfitPercent := stopLossPercent * riskRewardRatio (config rm) in
  let '(stopLossPrice, takeProfitPrice) :=
    match signalType with
    | BUY => (entryPrice * (1 - stopLossPercent / 100),
              entryPrice * (1 + takeProfitPercent / 100))
    | _ => (entryPrice * (1 + stopLossPercent / 100),
            entryPrice * (1 - takeProfitPercent / 100))
    end in
  {| rp_entryPrice := entryPrice;
     rp_stopLossPrice := stopLossPrice;
     rp_takeProfitPrice := takeProfitPrice;
     rp_positionSize :=
       Js.div riskAmount (Js.abs (entryPrice - stopLossPrice));
     rp_riskAmount := riskAmount;
     rp_rewardAmount := rewardAmount;
     rp_riskRewardRatio := riskRewardRatio (config rm);
     rp_maxLossPercentage := stopLossPercent;
     rp_maxGainPercentage := takeProfitPercent;
     rp_trailingStopPrice :=
       if trailStopLoss (config rm)
       then Some (calculateTrailingStop entryPrice signalType
                    (stopLossPercent * (6 # 10)))
       else None;
     rp_confidenceAdjustment := consecutiveLossAdjustment |}.

(** [updateTradeResult(pnl, isWin)]. *)
Definition updateTradeResult (rm : RiskManagement) (pnl : Q) (isWin : bool)
    : RiskManagement :=
  let currentDrawdown' :=
    if Js.ltb pnl 0 then currentDrawdown rm + Js.abs pnl
    else Js.max 0 (currentDrawdown rm - pnl) in
  {| config := config rm;
     consecutiveLosses :=
       if isWin then 0 else (consecutiveLosses rm + 1)%Z;
     totalTrades := (totalTrades rm + 1)%Z;
     winningTrades :=
       if isWin then (winningTrades rm + 1)%Z else winningTrades rm;
     totalPnL := totalPnL rm + pnl;
     currentDrawdown := currentDrawdown';
     maxDrawdownReached :=
       if Js.ltb pnl 0
       then Js.max (maxDrawdownReached rm) currentDrawdown'
       else maxDrawdownReached rm |}.

(** [shouldStopTrading()]:
    [(maxDrawdownReached / |totalPnL|) * 100 > maxDrawdown].  With
    [totalPnL = 0] the quotient is NaN when nothing was lost (the
    comparison fails) and plus infinity otherwise (it holds). *)
Definition shouldStopTrading (rm : RiskManagement) : bool :=
  match Js.div (maxDrawdownReached rm) (Js.abs (totalPnL rm)) with
  | Some ratio => Js.ltb (maxDrawdown (config rm)) (ratio * 100)
  | None => Js.ltb 0 (maxDrawdownReached rm)
  end.

(** The warnings of [validateSignalRisk], by kind, with the number each
    message prints. *)
Inductive Warning :=
| RiskRewardBelowMinimum (ratio : Q)
| RiskPerTradeExceedsMaximum (percent : Q)
| ConsecutiveLosses (n : Z)
| ConfidenceBelowRecommended (confidence : Z)
| MaximumDrawdownReached.

Inductive Recommendation := TakeABreak | WaitForHigherConfidence.

Record Validation := mkValidation {
  isValid : bool;
  warnings : list Warning;
  recommendations : list Recommendation
}.

(** [validateSignalRisk(signal, riskParams)]. *)
Definition validateSignalRisk (rm : RiskManagement) (signal : InsertSignal)
    (riskParams : EnhancedRiskParams) : Validation :=
  let rrLow := Js.ltb (rp_riskRewardRatio riskParams) 2 in
  let lossHigh := Js.ltb 2 (rp_maxLossPercentage riskParams) in
  let streak := (3 <=? consecutiveLosses rm)%Z in
  let lowConfidence := (ins_confidence signal <? 75)%Z in
  let stop := shouldStopTrading rm in
  {| isValid := negb rrLow && negb lossHigh && negb stop;
     warnings :=
       (if rrLow
        then [RiskRewardBelowMinimum (rp_riskRewardRatio riskParams)]
        else [])
       ++ (if lossHigh
           then [RiskPerTradeExceedsMaximum
                   (rp_maxLossPercentage riskParams)]
           else [])
       ++ (if streak then [ConsecutiveLosses (consecutiveLosses rm)]
           else [])
       ++ (if lowConfidence
           then [ConfidenceBelowRecommended (ins_confidence signal)]
           else [])
       ++ (if stop then [MaximumDrawdownReached] else []);
     recommendations :=
       (if streak then [TakeABreak] else [])
       ++ (if lowConfidence then [WaitForHigherConfidence] else []) |}.

End RiskManagementService.

(** ** Storage

    The repository behind [storage]: the [signals] table with its serial
    key, and the [signal_history] table.  Rows are kept in insertion order,
    which is also the order of their [timestamp] column. *)

Module Storage.
Import Schema.

Inductive CloseReason := TAKE_PROFIT_HIT | STOP_LOSS_HIT.
Inductive TradeOutcome := PROFIT | LOSS_OUTCOME.

(** A row of the [signal_history] table, as [createSignalHistoryEntry]
    fills it.  The row carries no reference to the signal it closes. *)
Record SignalHistory := mkSignalHistory {
  sh_asset : string;
  sh_signalType : SignalType;
  sh_entryPrice : Q;
  sh_exitPrice : Q;
  sh_takeProfitPrice : option Q;
  sh_stopLossPrice : option Q;
  sh_confidence : Z;
  sh_result : Result;
  sh_pnl : option Q;
  sh_closeReason : CloseReason;
  sh_tradeOutcome : TradeOutcome
}.

Record Db := mkDb {
  signals : list Signal;
  nextId : Z;
  signalHistory : list SignalHistory
}.

(** The fields of a [Partial<Signal>] that the services set. *)
Record SignalUpdate := mkSignalUpdate {
  upd_isActive : option bool;
  upd_result : option Result;
  upd_pnl : option (option Q);
  upd_exitPrice : option Q
}.

Definition applyUpdate (u : SignalUpdate) (s : Signal) : Signal :=
  {| id := id s;
     symbol := symbol s;
     signalType := signalType s;
     entryPrice := entryPrice s;
     exitPrice :=
       match upd_exitPrice u with Some p => Some p | None => exitPrice s end;
     takeProfitPrice := takeProfitPrice s;
     stopLossPrice := stopLossPrice s;
     confidence := confidence s;
     isActive := default (isActive s) (upd_isActive u);
     result :=
       match upd_result u with Some r => Some r | None => result s end;
     pnl := default (pnl s) (upd_pnl u);
     tradeType := tradeType s;
     timeframe := timeframe s;
     priority := priority s |}.

(** [createSignal(insertSignal)]: the row inserted, with the column
    defaults of the schema. *)
Definition createSignal (db : Db) (i : InsertSignal) : Db * Signal :=
  let row :=
    {| id := nextId db;
       symbol := ins_symbol i;
       signalType := ins_signalType i;
       entryPrice := ins_entryPrice i;
       exitPrice := None;
       takeProfitPrice := ins_takeProfitPrice i;
       stopLossPrice := ins_stopLossPrice i;
       confidence := ins_confidence i;
       isActive := true;
       result := None;
       pnl := None;
       tradeType := default DAY (ins_tradeType i);
       timeframe := default M15 (ins_timeframe i);
       priority := default 3%Z (ins_priority i) |} in
  ({| signals := signals db ++ [row];
      nextId := (nextId db + 1)%Z;
      signalHistory := signalHistory db |}, row).

(** [getActiveSignals()]: the active rows, newest first. *)
Definition getActiveSignals (db : Db) : list Signal :=
  rev (filter (fun s => isActive s = true) (signals db)).

(** [updateSignal(id, updates)]. *)
Definition updateSignal (db : Db) (key : Z) (u : SignalUpdate) : Db :=
  {| signals :=
       map (fun s => if (id s =? key)%Z then applyUpdate u s else s)
         (signals db);
     nextId := nextId db;
     signalHistory := signalHistory db |}.

(** [getSignalById(id)]. *)
Definition getSignalById (db : Db) (key : Z) : option Signal :=
  List.find (fun s => (id s =? key)%Z) (signals db).

(** [createSignalHistory(entry)]. *)
Definition createSignalHistory (db : Db) (h : SignalHistory) : Db :=
  {| signals := signals db;
     nextId := nextId db;
     signalHistory := signalHistory db ++ [h] |}.

End Storage.

(** ** SignalManager: conflict prevention *)

Module SignalManager.
Import Schema Storage.
Local Open Scope Q_scope.

(** The test of [checkForConflicts] on one active row.  With an existing
    entry price of 0 the relative difference is not finite and the
    comparison fails. *)
Definition conflictsWith (signalData : InsertSignal) (existing : Signal)
    : bool :=
  if String.eqb (symbol existing) (ins_symbol signalData) then
    if negb (SignalType_eqb (signalType existing)
               (ins_signalType signalData))
    then true
    else
      let existingEntry := entryPrice existing in
      let newEntry := ins_entryPrice signalData in
      match Js.div (Js.abs (existingEntry - newEntry)) existingEntry with
      | Some priceDiff => Js.ltb priceDiff (1 # 100)
      | None => false
      end
  else false.

(** [checkForConflicts(signalData)]. *)
Definition checkForConflicts (db : Db) (signalData : InsertSignal)
    : list Signal :=
  filter (fun existing => conflictsWith signalData existing = true)
    (getActiveSignals db).

(** [shouldCreateDespiteConflicts(signalData, conflicts)]: the loop
    returns [true] at the first conflict the new signal beats. *)
Fixpoint shouldCreateDespiteConflicts (signalData : InsertSignal)
    (conflicts : list Signal) : bool :=
  let newConfidence := ins_confidence signalData in
  let newPriority := Js.orElseZ (default 0%Z (ins_priority signalData)) 3 in
  match conflicts with
  | [] => false
  | conflict :: rest =>
      let conflictConfidence := confidence conflict in
      let conflictPriority := Js.orElseZ (priority conflict) 3 in
      if (conflictConfidence <? newConfidence)%Z then true
      else if (newConfidence =? conflictConfidence)%Z
              && (newPriority <? conflictPriority)%Z
      then true
      else shouldCreateDespiteConflicts signalData rest
  end.

(** [deactivateConflictingSignals(conflicts, newSignal)]. *)
Fixpoint deactivateConflictingSignals (db : Db) (conflicts : list Signal)
    : Db :=
  match conflicts with
  | [] => db
  | conflict :: rest =>
      deactivateConflictingSignals
        (updateSignal db (id conflict)
           {| upd_isActive := Some false;
              upd_result := Some REPLACED;
              upd_pnl := None;
              upd_exitPrice := Some (entryPrice conflict) |})
        rest
  end.

(** [categorizeSignal(signalData)]. *)
Definition categorizeSignal (signalData : InsertSignal) : InsertSignal :=
  let confidence := ins_confidence signalData in
  let '(tradeType, timeframe, priority) :=
    if (85 <=? confidence)%Z then (SCALP, M5, 1%Z)
    else if (75 <=? confidence)%Z then (DAY, M15, 2%Z)
    else if (60 <=? confidence)%Z then (SWING, H1, 3%Z)
    else (DAY, M15, 3%Z) in
  {| ins_symbol := ins_symbol signalData;
     ins_signalType := ins_signalType signalData;
     ins_entryPrice := ins_entryPrice signalData;
     ins_takeProfitPrice := ins_takeProfitPrice signalData;
     ins_stopLossPrice := ins_stopLossPrice signalData;
     ins_confidence := ins_confidence signalData;
     ins_tradeType := Some tradeType;
     ins_timeframe := Some timeframe;
     ins_priority := Some priority |}.

(** [createSignalWithConflictPrevention(signalData)]: risk validation,
    conflict check, replacement of the conflicting rows, insertion.
    Returns the database it leaves and the created row, [None] for
    [null]. *)
Definition createSignalWithConflictPrevention
    (rm : RiskManagementService.RiskManagement) (db : Db)
    (signalData : InsertSignal) : Db * option Signal :=
  let riskParams :=
    RiskManagementService.calculateEnhancedRiskParams rm
      (ins_symbol signalData) (ins_signalType signalData)
      (ins_entryPrice signalData) (ins_confidence signalData) 1 10000 in
  let riskValidation :=
    RiskManagementService.validateSignalRisk rm signalData riskParams in
  if negb (RiskManagementService.isValid riskValidation) then (db, None)
  else
    let enhancedSignal :=
      {| ins_symbol := ins_symbol signalData;
         ins_signalType := ins_signalType signalData;
         ins_entryPrice := ins_entryPrice signalData;
         ins_takeProfitPrice :=
           Some (Js.toFixed 10000
                   (RiskManagementService.rp_takeProfitPrice riskParams));
         ins_stopLossPrice :=
           Some (Js.toFixed 10000
                   (RiskManagementService.rp_stopLossPrice riskParams));
         ins_confidence := ins_confidence signalData;
         ins_tradeType := ins_tradeType signalData;
         ins_timeframe := ins_timeframe signalData;
         ins_priority := ins_priority signalData |} in
    let conflicts := checkForConflicts db enhancedSignal in
    match conflicts with
    | [] =>
        let '(db', signal) :=
          createSignal db (categorizeSignal enhancedSignal) in
        (db', Some signal)
    | _ :: _ =>
        if shouldCreateDespiteConflicts enhancedSignal conflicts then
          let db1 := deactivateConflictingSignals db conflicts in
          let '(db', signal) :=
            createSignal db1 (categorizeSignal enhancedSignal) in
          (db', Some signal)
        else (db, None)
    end.

(** The stored row of [key] is deactivated with the result REPLACED. *)
Definition replaced (db : Db) (key : Z) : Prop :=
  exists row, getSignalById db key = Some row
              /\ isActive row = false /\ result row = Some REPLACED.

End SignalManager.

(** ** SignalTracker: tick-driven closure *)

Module SignalTracker.
Import Schema Storage.
Local Open Scope Q_scope.

(** The singletons of the server process that closure can reach: the
    repository, the risk-management service, and the tracker's own
    [trackedSignals] map.  The map is kept as the list of its values in
    insertion order, keyed by their [id]. *)
Record Server := mkServer {
  db : Db;
  riskManagement : RiskManagementService.RiskManagement;
  trackedSignals : list Signal
}.

Record DerivTickData := mkTick {
  tick_symbol : string;
  quote : Q
}.

(** [mapDerivSymbolToDisplay(derivSymbol)]. *)
Definition mapDerivSymbolToDisplay (derivSymbol : string) : string :=
  if String.eqb derivSymbol "R_10" then "V10"
  else if String.eqb derivSymbol "R_25" then "V25"
  else if String.eqb derivSymbol "R_75" then "V75"
  else derivSymbol.

Inductive HitType := TP | SL.

(** [level && currentPrice >= level] and [level && currentPrice <= level]
    on a parsed level that may be [null]: a missing level and a level of
    0 are both falsy. *)
Definition reachedUp (level : option Q) (currentPrice : Q) : bool :=
  match level with
  | Some l => Js.truthy l && Js.leb l currentPrice
  | None => false
  end.

Definition reachedDown (level : option Q) (currentPrice : Q) : bool :=
  match level with
  | Some l => Js.truthy l && Js.leb currentPrice l
  | None => false
  end.

(** The decision of [checkSignalStatus]: which level, if any, the price
    has hit. *)
Definition hit (signal : Signal) (currentPrice : Q)
    : option (Result * HitType) :=
  match signalType signal with
  | BUY =>
      if reachedUp (takeProfitPrice signal) currentPrice
      then Some (WIN, TP)
      else if reachedDown (stopLossPrice signal) currentPrice
      then Some (LOSS, SL)
      else None
  | SELL =>
      if reachedDown (takeProfitPrice signal) currentPrice
      then Some (WIN, TP)
      else if reachedUp (stopLossPrice signal) currentPrice
      then Some (LOSS, SL)
      else None
  | HOLD => None
  end.

(** The profit and loss of a closure, in percent of the entry price;
    [None] when the entry price is 0. *)
Definition closingPnl (signal : Signal) (exitPrice : Q) : option Q :=
  match signalType signal with
  | BUY =>
      option_map (fun r => r * 100)
        (Js.div (exitPrice - entryPrice signal) (entryPrice signal))
  | SELL =>
      option_map (fun r => r * 100)
        (Js.div (entryPrice signal - exitPrice) (entryPrice signal))
  | HOLD => Some 0
  end.

(** [trackedSignals.delete(signalId)]. *)
Definition untrack (key : Z) (tracked : list Signal) : list Signal :=
  filter (fun s => id s <> key) tracked.

(** [trackedSignals.set(signal.id, signal)]. *)
Fixpoint track (signal : Signal) (tracked : list Signal) : list Signal :=
  match tracked with
  | [] => [signal]
  | s :: rest =>
      if (id s =? id signal)%Z then signal :: rest
      else s :: track signal rest
  end.

(** [createSignalHistoryEntry(signal, exitPrice, result, pnl, hitType)]. *)
Definition createSignalHistoryEntry (signal : Signal) (exitPrice : Q)
    (result : Result) (pnl : option Q) (hitType : HitType)
    : SignalHistory :=
  {| sh_asset := symbol signal;
     sh_signalType := signalType signal;
     sh_entryPrice := entryPrice signal;
     sh_exitPrice := exitPrice;
     sh_takeProfitPrice := takeProfitPrice signal;
     sh_stopLossPrice := stopLossPrice signal;
     sh_confidence := confidence signal;
     sh_result := result;
     sh_pnl := pnl;
     sh_closeReason :=
       match hitType with TP => TAKE_PROFIT_HIT | SL => STOP_LOSS_HIT end;
     sh_tradeOutcome :=
       match result with WIN => PROFIT | _ => LOSS_OUTCOME end |}.

(** [closeSignal(signal, exitPrice, result, hitType)]: the row is closed,
    the signal leaves the map, a history row is written.  The Telegram
    message that follows is a sink and is left out.  The method does not
    call the risk-management service. *)
Definition closeSignal (w : Server) (signal : Signal) (exitPrice : Q)
    (result : Result) (hitType : HitType) : Server :=
  let pnl := closingPnl signal exitPrice in
  let db1 :=
    updateSignal (db w) (id signal)
      {| upd_isActive := Some false;
         upd_result := Some result;
         upd_pnl := Some (option_map (Js.toFixed 100) pnl);
         upd_exitPrice := Some exitPrice |} in
  let tracked := untrack (id signal) (trackedSignals w) in
  let db2 :=
    createSignalHistory db1
      (createSignalHistoryEntry signal exitPrice result pnl hitType) in
  {| db := db2;
     riskManagement := riskManagement w;
     trackedSignals := tracked |}.

(** [checkSignalStatus(signal, currentPrice)]. *)
Definition checkSignalStatus (w : Server) (signal : Signal)
    (currentPrice : Q) : Server :=
  match hit signal currentPrice with
  | Some (result, hitType) =>
      closeSignal w signal currentPrice result hitType
  | None => w
  end.

(** The loop of [processTickData] over the entries of the map. *)
Fixpoint checkEach (entries : list Signal) (symbol : string)
    (currentPrice : Q) (w : Server) : Server :=
  match entries with
  | [] => w
  | signal :: rest =>
      let w' :=
        if String.eqb (Schema.symbol signal) symbol && isActive signal
        then checkSignalStatus w signal currentPrice
        else w in
      checkEach rest symbol currentPrice w'
  end.

(** [processTickData(tickData)]. *)
Definition processTickData (w : Server) (tickData : DerivTickData)
    : Server :=
  checkEach (trackedSignals w)
    (mapDerivSymbolToDisplay (tick_symbol tickData)) (quote tickData) w.

(** [addSignalToTracking(signal)]. *)
Definition addSignalToTracking (w : Server) (signal : Signal) : Server :=
  if isActive signal
  then {| db := db w;
          riskManagement := riskManagement w;
          trackedSignals := track signal (trackedSignals w) |}
  else w.

(** [loadActiveSignals()]. *)
Definition loadActiveSignals (w : Server) : Server :=
  {| db := db w;
     riskManagement := riskManagement w;
     trackedSignals :=
       fold_left (fun acc s => track s acc) (getActiveSignals (db w)) [] |}.

(** The ticks of a feed, delivered one after the other. *)
Definition processTicks (w : Server) (ticks : list DerivTickData) : Server :=
  fold_left processTickData ticks w.

(** The history row that a tick on [symbol] at [currentPrice] makes
    [processTickData] write for a tracked signal, if it closes it. *)
Definition closure (symbol : string) (currentPrice : Q) (signal : Signal)
    : option SignalHistory :=
  if String.eqb (Schema.symbol signal) symbol && isActive signal then
    match hit signal currentPrice with
    | Some (result, hitType) =>
        Some (createSignalHistoryEntry signal currentPrice result
                (closingPnl signal currentPrice) hitType)
    | None => None
    end
  else None.

(** The ids of the entries that such a tick closes. *)
Definition closedIds (symbol : string) (currentPrice : Q)
    (entries : list Signal) : list Z :=
  omap (fun s => fmap (fun _ => id s) (closure symbol currentPrice s)) entries.

End SignalTracker.

(** ** TacticalTradingAssistant *)

Module Status.
Inductive t := STRONG | WEAKENING | INVALIDATED | CRITICAL.

Definition eqb (a b : t) : bool :=
  match a, b with
  | STRONG, STRONG | WEAKENING, WEAKENING
  | INVALIDATED, INVALIDATED | CRITICAL, CRITICAL => true
  | _, _ => false
  end.
End Status.

Module AlertType.
Inductive t :=
| INVALIDATED | CRITICAL | WARNING
| BREAKEVEN_SUGGESTED | TRAILING_STOP | PROFIT_PROTECTION.

Definition eqb (a b : t) : bool :=
  match a, b with
  | INVALIDATED, INVALIDATED | CRITICAL, CRITICAL | WARNING, WARNING
  | BREAKEVEN_SUGGESTED, BREAKEVEN_SUGGESTED
  | TRAILING_STOP, TRAILING_STOP
  | PROFIT_PROTECTION, PROFIT_PROTECTION => true
  | _, _ => false
  end.
End AlertType.

Module TacticalTradingAssistant.
Import Schema Storage.
Local Open Scope Q_scope.

Definition TELEGRAM_THROTTLE_INTERVAL : Z := 5 * 60 * 1000.

(** [SignalHealthStatus], with the fields the alert logic reads. *)
Record SignalHealthStatus := mkHealth {
  h_id : Z;
  h_symbol : string;
  h_signalType : option SignalType;
  h_status : Status.t;
  h_healthScore : Q;
  h_currentPrice : Q;
  h_entryPrice : Q;
  h_unrealizedPnL : Q
}.

Inductive Action :=
| MONITOR | ADJUST_SL | CLOSE_MANUAL | BREAKEVEN | TRAIL | PROTECT_PROFITS.

Inductive Urgency := URGENCY_LOW | URGENCY_MEDIUM | URGENCY_HIGH.

(** [TacticalAlert].  In place of the message text the record keeps the
    stop-loss level the message quotes, if it quotes one. *)
Record TacticalAlert := mkAlert {
  signalId : Z;
  alertType : AlertType.t;
  quotedStop : option Q;
  action : Action;
  urgency : Urgency;
  timestamp : Z
}.

Inductive Tier := EXCELLENT | GOOD | BASIC | SMALL | NONE.

(** [LastAlertState].  Every write of the service sets the optional
    fields [peakProfit] and [lastPrice], so they are plain numbers here;
    dates are milliseconds. *)
Record LastAlertState := mkLastAlertState {
  status : Status.t;
  healthScore : Q;
  unrealizedPnL : Q;
  lastAlertTime : option Z;
  lastTelegramAlert : option Z;
  profitTier : Tier;
  peakProfit : Q;
  lastPrice : Q;
  lastProfitWarning : option Z
}.

(** An entry of the [signalStates] map. *)
Record SignalState := mkSignalState {
  ss_signal : SignalHealthStatus;
  ss_lastAlertTime : option Z;
  ss_healthScore : Q;
  ss_unrealizedPnL : Q;
  ss_peakProfit : Q;
  ss_lastPrice : Q;
  ss_currentProfitPercent : Q;
  ss_peakProfitPercent : Q;
  ss_lastProfitWarningAt : option Z;
  ss_recommendedStopLoss : option Q
}.

(** The three maps of the assistant, keyed by signal id. *)
Record Assistant := mkAssistant {
  monitoredSignals : gmap Z SignalHealthStatus;
  lastAlertStates : gmap Z LastAlertState;
  signalStates : gmap Z SignalState
}.




(** [removeSignalFromMonitoring(signalId)]. *)
Definition removeSignalFromMonitoring (a : Assistant) (key : Z)
    : Assistant :=
  {| monitoredSignals := delete key (monitoredSignals a);
     lastAlertStates := lastAlertStates a;
     signalStates := signalStates a |}.

(** [getProfitTier(profitPercent)]. *)
Definition getProfitTier (profitPercent : Q) : Tier :=
  if Js.ltb 5 profitPercent then EXCELLENT
  else if Js.ltb 2 profitPercent then GOOD
  else if Js.ltb 1 profitPercent then BASIC
  else if Js.ltb (3 # 10) profitPercent then SMALL
  else NONE.

(** [isSignalInvalidated(signalId, currentPrice, profitPercent, health)]. *)
Definition isSignalInvalidated (profitPercent : Q)
    (health : SignalHealthStatus) : bool :=
  let majorLoss := Js.ltb profitPercent (- (25 # 10)) in
  let healthCollapse := Js.ltb (h_healthScore health) 20 in
  let statusInvalidated := Status.eqb (h_status health) Status.INVALIDATED in
  majorLoss || healthCollapse || statusInvalidated.

(** [isSignalWeakening(signalId, currentPrice, profitPercent, health,
    lastState)].  [LastAlertState] has no [signal] field, so the signal
    type read is that of the health status. *)
Definition isSignalWeakening (currentPrice profitPercent : Q)
    (health : SignalHealthStatus) (lastState : option LastAlertState)
    : bool :=
  match lastState with
  | None => false
  | Some lastState =>
      let profitDrop := peakProfit lastState - profitPercent in
      let significantDrop :=
        Js.ltb (15 # 10) profitDrop && Js.ltb 1 (peakProfit lastState) in
      let healthDeterioration :=
        Js.ltb 20 (healthScore lastState - h_healthScore health) in
      let statusDowngrade :=
        Status.eqb (status lastState) Status.STRONG
        && Status.eqb (h_status health) Status.WEAKENING in
      let reference := Js.orElse (lastPrice lastState) currentPrice in
      let priceDirection := currentPrice - reference in
      let againstSignal :=
        match h_signalType health with
        | Some BUY => Js.ltb priceDirection 0
        | Some SELL => Js.ltb 0 priceDirection
        | _ => false
        end in
      let meaningfulMove :=
        match Js.div priceDirection reference with
        | Some r => Js.ltb (2 # 1000) (Js.abs r)
        | None => false
        end in
      significantDrop || healthDeterioration || statusDowngrade
      || (againstSignal && meaningfulMove)
  end.

(** [isProfitDeteriorating(signalId, profitPercent, peakProfit)]. *)
Definition isProfitDeteriorating (profitPercent peakProfit : Q) : bool :=
  if Js.ltb peakProfit 2 then false
  else
    let profitDrop := peakProfit - profitPercent in
    Js.ltb (25 # 10) profitDrop && Js.ltb (5 # 10) profitPercent.

(** The stop-loss that locks [percent] of profit on the entry price:
    [entryPrice * (1 + percent / 100)] for a BUY and
    [entryPrice * (1 - percent / 100)] otherwise. *)
Definition lockedStop (signal : Signal) (percent : Q) : Q :=
  match signalType signal with
  | BUY => entryPrice signal * (1 + percent / 100)
  | _ => entryPrice signal * (1 - percent / 100)
  end.

(** [calculateDynamicRetestStopLoss(signalId, signal, currentPrice,
    profitPercent, peakProfit)]. *)
Definition calculateDynamicRetestStopLoss (signal : Signal)
    (currentPrice profitPercent peakProfit : Q) : Q :=
  if Js.ltb 5 peakProfit then lockedStop signal (peakProfit * (75 # 100))
  else if Js.ltb 3 peakProfit then lockedStop signal (peakProfit * (6 # 10))
  else if Js.ltb (15 # 10) peakProfit then lockedStop signal (2 # 10)
  else if Js.ltb (5 # 10) profitPercent then lockedStop signal (1 # 10)
  else
    match signalType signal with
    | BUY => currentPrice * (1 - (15 # 10) / 100)
    | _ => currentPrice * (1 + (15 # 10) / 100)
    end.

(** [updateSignalStateOnly(signalId, health, profitPercent, peakProfit,
    currentPrice, lastAlertTime)]: the silent update. *)
Definition updateSignalStateOnly (states : gmap Z LastAlertState)
    (signalId : Z) (health : SignalHealthStatus)
    (profitPercent peakProfit currentPrice : Q) (lastAlertTime : option Z)
    : gmap Z LastAlertState :=
  let lastState := states !! signalId in
  <[signalId :=
      {| status := h_status health;
         healthScore := h_healthScore health;
         unrealizedPnL := h_unrealizedPnL health;
         lastAlertTime :=
           match lastAlertTime with
           | Some t => Some t
           | None => lastState ≫= TacticalTradingAssistant.lastAlertTime
           end;
         lastTelegramAlert := lastState ≫= lastTelegramAlert;
         profitTier := getProfitTier (h_unrealizedPnL health);
         peakProfit := peakProfit;
         lastPrice := currentPrice;
         lastProfitWarning := lastState ≫= lastProfitWarning |}]> states.

(** The profit percentage [checkAndGenerateAlerts] computes.  The code
    divides by the entry price without a guard; for an entry price of 0
    the double is not finite, and the statements about the cycle assume a
    non-zero entry price. *)
Definition profitPercentOf (signal : Signal) (currentPrice : Q) : Q :=
  match signalType signal with
  | BUY => (currentPrice - entryPrice signal) / entryPrice signal * 100
  | _ => (entryPrice signal - currentPrice) / entryPrice signal * 100
  end.

(** [Math.max(lastState?.peakProfit || 0, profitPercent)]. *)
Definition trackedPeak (lastState : option LastAlertState)
    (profitPercent : Q) : Q :=
  Js.max (Js.orElse (from_option peakProfit 0 lastState) 0) profitPercent.

(** Whether the Telegram throttle holds an alert back at time [now]. *)
Definition throttled (lastState : option LastAlertState) (now : Z) : bool :=
  match lastState ≫= lastTelegramAlert with
  | Some t => (now - t <? TELEGRAM_THROTTLE_INTERVAL)%Z
  | None => false
  end.

(** The alert, if any, that the three conditions of
    [checkAndGenerateAlerts] build. *)
Definition selectAlert (signalId : Z) (signal : Signal)
    (health : SignalHealthStatus) (lastState : option LastAlertState)
    (profitPercent peakProfit : Q) (now : Z) : option TacticalAlert :=
  let currentPrice := h_currentPrice health in
  if isSignalInvalidated profitPercent health then
    Some {| signalId := signalId;
            alertType := AlertType.INVALIDATED;
            quotedStop := None;
            action := CLOSE_MANUAL;
            urgency := URGENCY_HIGH;
            timestamp := now |}
  else if isSignalWeakening currentPrice profitPercent health lastState then
    Some {| signalId := signalId;
            alertType := AlertType.WARNING;
            quotedStop :=
              Some (calculateDynamicRetestStopLoss signal currentPrice
                      profitPercent peakProfit);
            action := ADJUST_SL;
            urgency := URGENCY_MEDIUM;
            timestamp := now |}
  else if isProfitDeteriorating profitPercent peakProfit
          && negb (Js.isSet (lastState ≫= lastProfitWarning))
  then
    Some {| signalId := signalId;
            alertType := AlertType.PROFIT_PROTECTION;
            quotedStop :=
              Some (calculateDynamicRetestStopLoss signal currentPrice
                      profitPercent peakProfit);
            action := PROTECT_PROFITS;
            urgency := URGENCY_MEDIUM;
            timestamp := now |}
  else None.

(** [checkAndGenerateAlerts(signalId, symbol, health)] at time [now]:
    the alert states it leaves and the alert it sends, if any. *)
Definition checkAndGenerateAlerts (states : gmap Z LastAlertState)
    (db : Db) (signalId : Z) (health : SignalHealthStatus) (now : Z)
    : gmap Z LastAlertState * option TacticalAlert :=
  let lastState := states !! signalId in
  match getSignalById db signalId with
  | None => (states, None)
  | Some signal =>
      let currentPrice := h_currentPrice health in
      let profitPercent := profitPercentOf signal currentPrice in
      let peakProfit := trackedPeak lastState profitPercent in
      if negb (Status.eqb (h_status health) Status.INVALIDATED)
         && throttled lastState now
      then
        (updateSignalStateOnly states signalId health profitPercent
           peakProfit currentPrice (lastState ≫= lastAlertTime), None)
      else
        match selectAlert signalId signal health lastState profitPercent
                peakProfit now with
        | Some alert =>
            (<[signalId :=
                 {| status := h_status health;
                    healthScore := h_healthScore health;
                    unrealizedPnL := h_unrealizedPnL health;
                    lastAlertTime := Some now;
                    lastTelegramAlert := Some now;
                    profitTier := getProfitTier (h_unrealizedPnL health);
                    peakProfit := peakProfit;
                    lastPrice := currentPrice;
                    lastProfitWarning :=
                      if AlertType.eqb (alertType alert)
                           AlertType.PROFIT_PROTECTION
                      then Some now
                      else lastState ≫= lastProfitWarning |}]> states,
             Some alert)
        | None =>
            (updateSignalStateOnly states signalId health profitPercent
               peakProfit currentPrice (lastState ≫= lastAlertTime), None)
        end
  end.

(** One pass of the loop body of [performHealthChecks] for a monitored
    signal, given the health status computed for it ([None] when the
    price fetched is 0 and the pass is skipped). *)
Definition healthCheck (a : Assistant) (db : Db) (key : Z)
    (newHealthStatus : option SignalHealthStatus) (now : Z)
    : Assistant * option TacticalAlert :=
  match getSignalById db key with
  | None => (removeSignalFromMonitoring a key, None)
  | Some signal =>
      if negb (isActive signal) then (removeSignalFromMonitoring a key, None)
      else
        match newHealthStatus with
        | None => (a, None)
        | Some health =>
            let '(states, alert) :=
              checkAndGenerateAlerts (lastAlertStates a) db key health
                now in
            ({| monitoredSignals := <[key := health]> (monitoredSignals a);
                lastAlertStates := states;
                signalStates := signalStates a |}, alert)
        end
  end.

(** A sequence of health-check cycles on one signal: the alert states at
    the end and the alerts sent, oldest first. *)
Fixpoint cycles (states : gmap Z LastAlertState) (db : Db) (signalId : Z)
    (inputs : list (SignalHealthStatus * Z))
    : gmap Z LastAlertState * list TacticalAlert :=
  match inputs with
  | [] => (states, [])
  | (health, now) :: rest =>
      let '(states1, alert) :=
        checkAndGenerateAlerts states db signalId health now in
      let '(states2, alerts) := cycles states1 db signalId rest in
      (states2, from_option (fun a => [a]) [] alert ++ alerts)
  end.

(** The time of the last alert sent for a signal, if any. *)
Definition lastTelegramOf (states : gmap Z LastAlertState) (key : Z)
    : option Z :=
  states !! key ≫= lastTelegramAlert.




End TacticalTradingAssistant.


(** * Concrete inputs

    The signals, indicator values and states at which the properties below
    are evaluated. *)

Module Examples.
Import Schema.
Local Open Scope Q_scope.

(** Indicator values that are bearish throughout, in a quiet market. *)
Definition bearishIndicators : ConsolidatedSignalGenerator.Indicators :=
  {| ConsolidatedSignalGenerator.rsi := 75;
     ConsolidatedSignalGenerator.macdHistogram := - 1;
     ConsolidatedSignalGenerator.bollingerPosition :=
       ConsolidatedSignalGenerator.UPPER;
     ConsolidatedSignalGenerator.smaTrend :=
       ConsolidatedSignalGenerator.BEARISH;
     ConsolidatedSignalGenerator.emaTrend :=
       ConsolidatedSignalGenerator.BEARISH;
     ConsolidatedSignalGenerator.momentum := - (5 # 1000);
     ConsolidatedSignalGenerator.volatility := 5 # 1000 |}.

(** An empty repository, and the service objects as constructed. *)
Definition emptyDb : Storage.Db :=
  {| Storage.signals := []; Storage.nextId := 1; Storage.signalHistory := [] |}.

(** A BUY candidate on V10, as the generators submit it: entry price and
    confidence, nothing categorised yet. *)
Definition buyV10 (entry : Q) (conf : Z) : InsertSignal :=
  {| ins_symbol := "V10";
     ins_signalType := BUY;
     ins_entryPrice := entry;
     ins_takeProfitPrice := None;
     ins_stopLossPrice := None;
     ins_confidence := conf;
     ins_tradeType := None;
     ins_timeframe := None;
     ins_priority := None |}.

(** Three submissions in a row: confidence 90 at 100, confidence 70 at
    101.5 (more than 1% away from the first, so no conflict), and
    confidence 75 at 100.8 (within 1% of both). *)
Definition afterFirst :=
  SignalManager.createSignalWithConflictPrevention
    RiskManagementService.initial emptyDb (buyV10 100 90).
Definition afterSecond :=
  SignalManager.createSignalWithConflictPrevention
    RiskManagementService.initial (fst afterFirst) (buyV10 (1015 # 10) 70).
Definition afterThird :=
  SignalManager.createSignalWithConflictPrevention
    RiskManagementService.initial (fst afterSecond) (buyV10 (1008 # 10) 75).

(** An active BUY on V10: entry 100, take-profit 110, stop-loss 95. *)
Definition openBuy : Signal :=
  {| id := 1;
     symbol := "V10";
     signalType := BUY;
     entryPrice := 100;
     exitPrice := None;
     takeProfitPrice := Some 110;
     stopLossPrice := Some 95;
     confidence := 80;
     isActive := true;
     result := None;
     pnl := None;
     tradeType := DAY;
     timeframe := M15;
     priority := 2 |}.

(** The server with that signal stored and tracked, and nothing traded
    yet. *)
Definition trackingOpenBuy : SignalTracker.Server :=
  {| SignalTracker.db :=
       {| Storage.signals := [openBuy];
          Storage.nextId := 2;
          Storage.signalHistory := [] |};
     SignalTracker.riskManagement := RiskManagementService.initial;
     SignalTracker.trackedSignals := [openBuy] |}.

(** An active SELL on V10 without take-profit and stop-loss levels. *)
Definition sellWithoutLevels : Signal :=
  {| id := 7;
     symbol := "V10";
     signalType := SELL;
     entryPrice := 100;
     exitPrice := None;
     takeProfitPrice := None;
     stopLossPrice := None;
     confidence := 80;
     isActive := true;
     result := None;
     pnl := None;
     tradeType := DAY;
     timeframe := M15;
     priority := 2 |}.

Definition trackingBoth : SignalTracker.Server :=
  {| SignalTracker.db :=
       {| Storage.signals := [openBuy; sellWithoutLevels];
          Storage.nextId := 8;
          Storage.signalHistory := [] |};
     SignalTracker.riskManagement := RiskManagementService.initial;
     SignalTracker.trackedSignals := [openBuy; sellWithoutLevels] |}.

(** A tick of the R_10 feed at the take-profit level. *)
Definition tickAtTakeProfit : SignalTracker.DerivTickData :=
  {| SignalTracker.tick_symbol := "R_10"; SignalTracker.quote := 110 |}.

(** Health statuses of signal 1 at a given price, and two health-check
    cycles one minute apart: the price at 106, then at 104. *)
Definition healthAt (price : Q) (status : Status.t) (score : Q)
    : TacticalTradingAssistant.SignalHealthStatus :=
  {| TacticalTradingAssistant.h_id := 1;
     TacticalTradingAssistant.h_symbol := "V10";
     TacticalTradingAssistant.h_signalType := None;
     TacticalTradingAssistant.h_status := status;
     TacticalTradingAssistant.h_healthScore := score;
     TacticalTradingAssistant.h_currentPrice := price;
     TacticalTradingAssistant.h_entryPrice := 100;
     TacticalTradingAssistant.h_unrealizedPnL := price - 100 |}.

Definition storedOpenBuy : Storage.Db := SignalTracker.db trackingOpenBuy.

Definition atPeak :=
  TacticalTradingAssistant.checkAndGenerateAlerts ∅ storedOpenBuy 1
    (healthAt 106 Status.STRONG 80) 1000000.

Definition afterRetrace :=
  TacticalTradingAssistant.checkAndGenerateAlerts (fst atPeak) storedOpenBuy 1
    (healthAt 104 Status.STRONG 80) 1060000.


(** Risk parameters of a BUY at 100 with a stop-loss 1 percent away and a
    given risk-reward ratio. *)
Definition paramsWithRatio (ratio : Q)
    : RiskManagementService.EnhancedRiskParams :=
  {| RiskManagementService.rp_entryPrice := 100;
     RiskManagementService.rp_stopLossPrice := 99;
     RiskManagementService.rp_takeProfitPrice := 100 + ratio;
     RiskManagementService.rp_positionSize := Some 100;
     RiskManagementService.rp_riskAmount := 100;
     RiskManagementService.rp_rewardAmount := 100 * ratio;
     RiskManagementService.rp_riskRewardRatio := ratio;
     RiskManagementService.rp_maxLossPercentage := 1;
     RiskManagementService.rp_maxGainPercentage := ratio;
     RiskManagementService.rp_trailingStopPrice := None;
     RiskManagementService.rp_confidenceAdjustment := 1 |}.

(** An analysis that is bullish throughout. *)
Definition oversold : TechnicalAnalysisService.Analysis :=
  {| TechnicalAnalysisService.currentPrice := 100;
     TechnicalAnalysisService.rsi := 28;
     TechnicalAnalysisService.macd := 1;
     TechnicalAnalysisService.macdSignalLine := 8 # 10;
     TechnicalAnalysisService.sma20 := 99;
     TechnicalAnalysisService.ema50 := 98;
     TechnicalAnalysisService.bollingerUpper := 120;
     TechnicalAnalysisService.bollingerLower := 99;
     TechnicalAnalysisService.priceChange := 1;
     TechnicalAnalysisService.trendDirection := 1;
     TechnicalAnalysisService.marketStructure :=
       {| TechnicalAnalysisService.trend := TechnicalAnalysisService.UPTREND;
          TechnicalAnalysisService.support := 90;
          TechnicalAnalysisService.resistance := 130;
          TechnicalAnalysisService.volatility :=
            TechnicalAnalysisService.LOW |};
     TechnicalAnalysisService.alignment := true;
     TechnicalAnalysisService.regimeType := TechnicalAnalysisService.TRENDING;
     TechnicalAnalysisService.regimeStrength := 80;
     TechnicalAnalysisService.recommendedStrategy :=
       TechnicalAnalysisService.BREAKOUT;
     TechnicalAnalysisService.volumeConfirmation := true;
     TechnicalAnalysisService.trapDetected := false;
     TechnicalAnalysisService.trapType := TechnicalAnalysisService.NONE |}.

End Examples.

(** * Further services

    The indicator functions of [TechnicalAnalysisService], the batch
    generation of [ConsolidatedSignalGenerator], the consolidated tracker,
    the tick handler of the routes, and runs of trades through the
    risk-management statistics. *)

(** ** TechnicalAnalysisService: indicators *)

Module Indicators.
Import Schema.
Local Open Scope Q_scope.

(** [l.reduce((a, b) => a + b, 0)]. *)
Definition sum (l : list Q) : Q := fold_left Qplus l 0.

(** [l.slice(-n)]: the last [n] elements, all of them when [n] is 0 or at
    least the length. *)
Definition lastN (n : nat) (l : list Q) : list Q :=
  if (n =? 0)%nat then l else drop (length l - n) l.

(** [calculateSMA(prices, period)]; [None] is the non-finite quotient of a
    period of 0. *)
Definition calculateSMA (prices : list Q) (period : nat) : option Q :=
  if (length prices <? period)%nat then Some 0
  else Js.div (sum (lastN period prices)) (inject_Z (Z.of_nat period)).

(** [calculateEMA(prices, period)]. *)
Definition calculateEMA (prices : list Q) (period : nat) : option Q :=
  if (length prices <? period)%nat
  then Some (Js.orElse (List.last prices 0) 0)
  else
    let multiplier := 2 / inject_Z (Z.of_nat period + 1) in
    match calculateSMA (take period prices) period with
    | Some start =>
        Some (fold_left
                (fun ema price => price * multiplier + ema * (1 - multiplier))
                (drop period prices) start)
    | None => None
    end.

(** The changes [prices[i] - prices[i - 1]], in order. *)
Fixpoint changes (prices : list Q) : list Q :=
  match prices with
  | previous :: (current :: _) as rest => (current - previous) :: changes rest
  | _ => []
  end.

Definition gain (change : Q) : Q := if Js.ltb 0 change then change else 0.

Definition loss (change : Q) : Q :=
  if Js.ltb change 0 then Js.abs change else 0.

(** [calculateRSI(prices, period)].  The divisor [1 + rs] is at least 1. *)
Definition calculateRSI (prices : list Q) (period : nat) : option Q :=
  if (length prices <? period + 1)%nat then Some 50
  else
    let gains := map gain (changes prices) in
    let losses := map loss (changes prices) in
    match Js.div (sum (lastN period gains)) (inject_Z (Z.of_nat period)),
          Js.div (sum (lastN period losses)) (inject_Z (Z.of_nat period))
    with
    | Some avgGain, Some avgLoss =>
        if Js.eqb avgLoss 0 then Some 100
        else
          let rs := avgGain / avgLoss in
          Some (100 - 100 / (1 + rs))
    | _, _ => None
    end.

Record Macd := mkMacd {
  macd : Q;
  signal : Q;
  histogram : Q
}.

(** [calculateMACD(prices, fastPeriod, slowPeriod, signalPeriod)]; the
    signal period is not used by the code. *)
Definition calculateMACD (prices : list Q) (fastPeriod slowPeriod : nat)
    : option Macd :=
  match calculateEMA prices fastPeriod, calculateEMA prices slowPeriod with
  | Some fastEMA, Some slowEMA =>
      let macd := fastEMA - slowEMA in
      let signal := macd * (8 # 10) in
      Some {| macd := macd; signal := signal; histogram := macd - signal |}
  | _, _ => None
  end.

Record AdxSums := mkAdxSums {
  plusDM : Q;
  minusDM : Q;
  trueRange : Q
}.

(** One round of the loop of [calculateADX], on [prices[i - 1]] and
    [prices[i]]. *)
Definition adxStep (previous current : Q) (acc : AdxSums) : AdxSums :=
  let high := Js.max current previous in
  let low := Js.min current previous in
  let upMove := high - previous in
  let downMove := previous - low in
  {| plusDM :=
       if Js.ltb downMove upMove && Js.ltb 0 upMove
       then plusDM acc + upMove else plusDM acc;
     minusDM :=
       if Js.ltb upMove downMove && Js.ltb 0 downMove
       then minusDM acc + downMove else minusDM acc;
     trueRange :=
       trueRange acc
       + Js.max (Js.max (high - low) (Js.abs (high - previous)))
                (Js.abs (low - previous)) |}.

Fixpoint adxLoop (prices : list Q) (acc : AdxSums) : AdxSums :=
  match prices with
  | previous :: (current :: _) as rest =>
      adxLoop rest (adxStep previous current acc)
  | _ => acc
  end.

(** [calculateADX(marketDataHistory, period)] on the parsed prices;
    [None] is NaN, which every non-finite quotient ends in here. *)
Definition calculateADX (prices : list Q) (period : nat) : option Q :=
  if (length prices <? period + 1)%nat then Some 0
  else
    let sums :=
      adxLoop prices {| plusDM := 0; minusDM := 0; trueRange := 0 |} in
    let p := inject_Z (Z.of_nat period) in
    match Js.div (plusDM sums) p, Js.div (minusDM sums) p,
          Js.div (trueRange sums) p
    with
    | Some smoothedPlusDM, Some smoothedMinusDM, Some smoothedTR =>
        match Js.div smoothedPlusDM smoothedTR,
              Js.div smoothedMinusDM smoothedTR
        with
        | Some plusRatio, Some minusRatio =>
            let plusDI := plusRatio * 100 in
            let minusDI := minusRatio * 100 in
            option_map (fun ratio => ratio * 100)
              (Js.div (Js.abs (plusDI - minusDI)) (plusDI + minusDI))
        | _, _ => None
        end
    | _, _, _ => None
    end.

Record MarketRegime := mkMarketRegime {
  mr_type : TechnicalAnalysisService.RegimeType;
  mr_strength : option Q;
  mr_adx : option Q;
  mr_recommendedStrategy : TechnicalAnalysisService.Strategy
}.

(** The body of [detectMarketRegime] after the ADX value is computed
    ([None] for NaN, on which every comparison fails).  The Bollinger band
    width it also reports enters no decision and is left out. *)
Definition regimeOf (adx : option Q) : MarketRegime :=
  let above (bound : Q) :=
    match adx with Some a => Js.ltb bound a | None => false end in
  let type :=
    if above 25 then TechnicalAnalysisService.TRENDING
    else TechnicalAnalysisService.RANGING in
  {| mr_type := type;
     mr_strength := option_map (fun a => Js.min 100 (a * 2)) adx;
     mr_adx := adx;
     mr_recommendedStrategy :=
       match type with
       | TechnicalAnalysisService.TRENDING =>
           if above 30 then TechnicalAnalysisService.BREAKOUT
           else if above 20 then TechnicalAnalysisService.PULLBACK
           else TechnicalAnalysisService.SCALP_STRATEGY
       | TechnicalAnalysisService.RANGING => TechnicalAnalysisService.REVERSAL
       end |}.

(** [detectMarketRegime(marketDataHistory)], with the default period of
    14 of [calculateADX]. *)
Definition detectMarketRegime (prices : list Q) : MarketRegime :=
  regimeOf (calculateADX prices 14).

End Indicators.

(** ** ConsolidatedSignalGenerator: a batch of symbols *)

Module ConsolidatedBatch.
Import Schema ConsolidatedSignalGenerator.
Local Open Scope Z_scope.

Definition MAX_SIGNALS_PER_HOUR : nat := 5.
Definition RATE_LIMIT : Z := 30 * 60 * 1000.

(** What [generateSignalForSymbol] fetches for a symbol of the batch. *)
Record MarketInput := mkMarketInput {
  in_symbol : string;
  in_price : Q;
  in_indicators : Indicators;
  in_fundamentalScore : Q;
  in_fundamentalReasoning : list string
}.

Definition signalFor (input : MarketInput) : option ConsolidatedSignal :=
  generateSignalForSymbol (in_symbol input) (in_price input)
    (in_indicators input) (in_fundamentalScore input)
    (in_fundamentalReasoning input).

(** The loop of [generateConsolidatedSignals] at time [now], on the
    [lastSignalTime] map of the generator (in milliseconds): the signals
    pushed, in order, and the map it leaves. *)
Fixpoint collect (lastSignalTime : gmap string Z) (now : Z)
    (inputs : list MarketInput)
    : list ConsolidatedSignal * gmap string Z :=
  match inputs with
  | [] => ([], lastSignalTime)
  | input :: rest =>
      let lastSignal :=
        Js.orElseZ (default 0 (lastSignalTime !! in_symbol input)) 0 in
      if now - lastSignal <? RATE_LIMIT
      then collect lastSignalTime now rest
      else
        match signalFor input with
        | Some signal =>
            if validateSignalQuality signal
            then
              let '(signals, times) :=
                collect (<[in_symbol input := now]> lastSignalTime) now
                  rest in
              (signal :: signals, times)
            else collect lastSignalTime now rest
        | None => collect lastSignalTime now rest
        end
  end.

(** [signals.sort((a, b) => b.confidence - a.confidence)]: the sort of
    the language is stable, so its result is the one of this insertion
    sort, which puts a signal before the signals that follow it with a
    confidence at most its own. *)
Fixpoint insertByConfidence (signal : ConsolidatedSignal)
    (sorted : list ConsolidatedSignal) : list ConsolidatedSignal :=
  match sorted with
  | [] => [signal]
  | other :: rest =>
      if confidence other <=? confidence signal
      then signal :: other :: rest
      else other :: insertByConfidence signal rest
  end.

(** The order the comparator puts the list in: [a] may come before [b]. *)
Definition byConfidence (a b : ConsolidatedSignal) : Prop :=
  confidence b <= confidence a.

Fixpoint sortByConfidence (signals : list ConsolidatedSignal)
    : list ConsolidatedSignal :=
  match signals with
  | [] => []
  | signal :: rest => insertByConfidence signal (sortByConfidence rest)
  end.

(** [generateConsolidatedSignals(symbols)] at time [now]. *)
Definition generateConsolidatedSignals (lastSignalTime : gmap string Z)
    (now : Z) (inputs : list MarketInput)
    : list ConsolidatedSignal * gmap string Z :=
  let '(signals, times) := collect lastSignalTime now inputs in
  (take MAX_SIGNALS_PER_HOUR (sortByConfidence signals), times).

End ConsolidatedBatch.

(** ** ConsolidatedSignalTracker *)

Module ConsolidatedSignalTracker.
Import Schema ConsolidatedSignalGenerator.
Local Open Scope Q_scope.

Inductive TrackStatus := TP_HIT | SL_HIT | EXPIRED.

(** [haystack.includes(needle)]. *)
Fixpoint includes (needle haystack : string) : bool :=
  String.prefix needle haystack
  || match haystack with
     | EmptyString => false
     | String _ rest => includes needle rest
     end.

(** What [closeSignal] records of a closure. *)
Record Closing := mkClosing {
  cl_status : TrackStatus;
  cl_finalPrice : Q;
  cl_pnlPips : Q
}.

(** [closeSignal(signal, status, currentPrice)]: the record it keeps;
    the writes to the repository and the message carry the same values. *)
Definition closeSignal (signal : ConsolidatedSignal) (status : TrackStatus)
    (currentPrice : Q) : Closing :=
  let priceDiff :=
    match action signal with
    | BUY => currentPrice - entryPrice signal
    | _ => entryPrice signal - currentPrice
    end in
  {| cl_status := status;
     cl_finalPrice := currentPrice;
     cl_pnlPips :=
       priceDiff * (if includes "JPY" (symbol signal) then 100 else 10000) |}.

(** [checkSignalStatus(signal, currentPrice)] at time [now], for a signal
    whose [expiryTime] is [expiryTime], if it has one: the closure, if
    any. *)
Definition checkSignalStatus (signal : ConsolidatedSignal)
    (expiryTime : option Z) (now : Z) (currentPrice : Q) : option Closing :=
  if match expiryTime with Some t => (t <? now)%Z | None => false end
  then Some (closeSignal signal EXPIRED currentPrice)
  else
    match action signal with
    | BUY =>
        if Js.leb (takeProfitPrice signal) currentPrice
        then Some (closeSignal signal TP_HIT currentPrice)
        else if Js.leb currentPrice (stopLossPrice signal)
        then Some (closeSignal signal SL_HIT currentPrice)
        else None
    | SELL =>
        if Js.leb currentPrice (takeProfitPrice signal)
        then Some (closeSignal signal TP_HIT currentPrice)
        else if Js.leb (stopLossPrice signal) currentPrice
        then Some (closeSignal signal SL_HIT currentPrice)
        else None
    | HOLD => None
    end.

(** The body of the loop of [checkSignals] for one signal, given the
    price found for its symbol: a missing price and a price of 0 skip
    the check. *)
Definition checkSignal (signal : ConsolidatedSignal)
    (expiryTime : option Z) (now : Z) (currentPrice : option Q)
    : option Closing :=
  match currentPrice with
  | Some price =>
      if Js.truthy price
      then checkSignalStatus signal expiryTime now price
      else None
  | None => None
  end.

End ConsolidatedSignalTracker.

(** ** The tick handler of the routes *)

Module Routes.
Import Schema Storage SignalTracker.
Local Open Scope Q_scope.

(** The decision of [checkActiveSignals] on one signal with the levels
    parsed from its row: the result, if the signal closes. *)
Definition decide (signal : Signal) (takeProfitPrice stopLossPrice : Q)
    (currentPrice : Q) : option Result :=
  match signalType signal with
  | BUY =>
      if Js.leb takeProfitPrice currentPrice then Some WIN
      else if Js.leb currentPrice stopLossPrice then Some LOSS
      else None
  | SELL =>
      if Js.leb currentPrice takeProfitPrice then Some WIN
      else if Js.leb stopLossPrice currentPrice then Some LOSS
      else None
  | HOLD => None
  end.

(** The [pnl] of a closure, formatted to two decimals and read back;
    [None] is the non-finite quotient of an entry price of 0. *)
Definition closingPnl (signal : Signal) (currentPrice : Q) : option Q :=
  let entryPrice := entryPrice signal in
  option_map (fun ratio => Js.toFixed 100 (ratio * 100))
    (match signalType signal with
     | BUY => Js.div (currentPrice - entryPrice) entryPrice
     | _ => Js.div (entryPrice - currentPrice) entryPrice
     end).

(** The flag [shouldClose] of the loop, for a row of the table. *)
Definition shouldClose (currentPrice : Q) (signal : Signal) : bool :=
  match takeProfitPrice signal, stopLossPrice signal with
  | Some takeProfitPrice, Some stopLossPrice =>
      Js.isSet (decide signal takeProfitPrice stopLossPrice currentPrice)
  | _, _ => false
  end.

Definition isWin (result : Result) : bool :=
  match result with WIN => true | _ => false end.

(** One round of the loop of [checkActiveSignals]: the row is closed and
    the result is reported to the risk-management service.  The tracker's
    map is not touched and no history row is written.  [None] stands for
    a closure at an entry price of 0, whose profit is not a number. *)
Definition closeOne (w : Server) (signal : Signal) (currentPrice : Q)
    : option Server :=
  match takeProfitPrice signal, stopLossPrice signal with
  | Some takeProfitPrice, Some stopLossPrice =>
      match decide signal takeProfitPrice stopLossPrice currentPrice with
      | Some result =>
          match closingPnl signal currentPrice with
          | Some pnl =>
              Some {| db :=
                        updateSignal (db w) (id signal)
                          {| upd_isActive := Some false;
                             upd_result := Some result;
                             upd_pnl := Some (Some pnl);
                             upd_exitPrice := Some currentPrice |};
                      riskManagement :=
                        RiskManagementService.updateTradeResult
                          (riskManagement w) pnl (isWin result);
                      trackedSignals := trackedSignals w |}
          | None => None
          end
      | None => Some w
      end
  | _, _ => Some w
  end.

Fixpoint closeEach (symbolSignals : list Signal) (currentPrice : Q)
    (w : Server) : option Server :=
  match symbolSignals with
  | [] => Some w
  | signal :: rest =>
      match closeOne w signal currentPrice with
      | Some w' => closeEach rest currentPrice w'
      | None => None
      end
  end.

(** The rows [checkActiveSignals] looks at: active, of the symbol, with
    both level columns set. *)
Definition symbolSignals (d : Db) (symbol : string) : list Signal :=
  List.filter
    (fun signal =>
       String.eqb (Schema.symbol signal) symbol && isActive signal
       && Js.isSet (takeProfitPrice signal)
       && Js.isSet (stopLossPrice signal))
    (getActiveSignals d).

(** [checkActiveSignals(symbol, currentPrice)]. *)
Definition checkActiveSignals (w : Server) (symbol : string)
    (currentPrice : Q) : option Server :=
  closeEach (symbolSignals (db w) symbol) currentPrice w.

End Routes.

(** ** Runs of trades through the risk-management statistics *)

Module RiskRuns.
Import RiskManagementService.

(** A sequence of calls of [updateTradeResult(pnl, isWin)]. *)
Definition recordTrades (rm : RiskManagement) (trades : list (Q * bool))
    : RiskManagement :=
  fold_left (fun rm trade => updateTradeResult rm (fst trade) (snd trade))
    trades rm.

End RiskRuns.

(** ** TacticalTradingAssistant: the health of a signal *)

Module SignalHealth.
Import Schema TacticalTradingAssistant.
Local Open Scope Q_scope.

Inductive PriceAction := FAVORABLE | NEUTRAL | ADVERSE.
Inductive RiskLevel := RISK_LOW | RISK_MEDIUM | RISK_HIGH | RISK_EXTREME.

(** [signal.signalType === 'BUY' ? currentPrice - entryPrice
    : entryPrice - currentPrice]. *)
Definition priceDiff (signal : Signal) (currentPrice : Q) : Q :=
  match signalType signal with
  | BUY => currentPrice - entryPrice signal
  | _ => entryPrice signal - currentPrice
  end.

(** [assessPriceAction(signal, currentPrice, entryPrice)].  With an entry
    price of 0 the percentage is an infinity of the sign of the
    difference, or NaN when there is none. *)
Definition assessPriceAction (signal : Signal) (currentPrice : Q)
    : PriceAction :=
  match Js.div (priceDiff signal currentPrice) (entryPrice signal) with
  | Some ratio =>
      if Js.ltb (5 # 10) (ratio * 100) then FAVORABLE
      else if Js.ltb (ratio * 100) (- (3 # 10)) then ADVERSE
      else NEUTRAL
  | None =>
      if Js.ltb 0 (priceDiff signal currentPrice) then FAVORABLE
      else if Js.ltb (priceDiff signal currentPrice) 0 then ADVERSE
      else NEUTRAL
  end.

(** [assessRiskLevel(signal, currentPrice, stopLossPrice)], on the
    stop-loss as [calculateSignalHealth] parses it: 0 when the row has
    none.  With a stop-loss at the entry the ratio is plus infinity, or
    NaN when the price is there too. *)
Definition assessRiskLevel (signal : Signal) (currentPrice stopLossPrice : Q)
    : RiskLevel :=
  if negb (Js.truthy stopLossPrice) then RISK_MEDIUM
  else
    let slDistance := Js.abs (entryPrice signal - stopLossPrice) in
    let currentDistance := Js.abs (currentPrice - stopLossPrice) in
    match Js.div currentDistance slDistance with
    | Some riskRatio =>
        if Js.ltb (8 # 10) riskRatio then RISK_LOW
        else if Js.ltb (5 # 10) riskRatio then RISK_MEDIUM
        else if Js.ltb (2 # 10) riskRatio then RISK_HIGH
        else RISK_EXTREME
    | None => if Js.truthy currentDistance then RISK_LOW else RISK_EXTREME
    end.

(** [calculateRiskProximity(signal, currentPrice, stopLossPrice)];
    [None] is the NaN of a price and an entry both at the stop-loss. *)
Definition calculateRiskProximity (signal : Signal)
    (currentPrice stopLossPrice : Q) : option Q :=
  if negb (Js.truthy stopLossPrice) then Some 0
  else
    let slDistance := Js.abs (entryPrice signal - stopLossPrice) in
    let currentDistance := Js.abs (currentPrice - stopLossPrice) in
    match Js.div currentDistance slDistance with
    | Some ratio => Some (Js.max 0 (1 - ratio))
    | None => if Js.truthy currentDistance then Some 0 else None
    end.

(** The status of a health score. *)
Definition statusOf (healthScore : Q) : Status.t :=
  if Js.leb 75 healthScore then Status.STRONG
  else if Js.leb 50 healthScore then Status.WEAKENING
  else if Js.leb 25 healthScore then Status.CRITICAL
  else Status.INVALIDATED.

(** [calculateSignalHealth(signal, currentPrice)], given the trend
    alignment and the momentum strength it computes from recent prices.
    [None] stands for a health score that is not a number.  The health
    status has no signal type of its own. *)
Definition calculateSignalHealth (signal : Signal) (currentPrice : Q)
    (trendAlignment : bool) (momentumStrength : Q)
    : option SignalHealthStatus :=
  let stopLossPrice := default 0 (stopLossPrice signal) in
  let priceAction := assessPriceAction signal currentPrice in
  match calculateRiskProximity signal currentPrice stopLossPrice with
  | Some riskProximity =>
      let healthScore :=
        50 + (if trendAlignment then 30 else - 20)
        + (momentumStrength - 50) * (5 # 10)
        + match priceAction with
          | FAVORABLE => 20
          | ADVERSE => - 25
          | NEUTRAL => 0
          end
        - riskProximity * 25 in
      let healthScore := Js.max 0 (Js.min 100 healthScore) in
      Some {| h_id := id signal;
              h_symbol := symbol signal;
              h_signalType := None;
              h_status := statusOf healthScore;
              h_healthScore := healthScore;
              h_currentPrice := currentPrice;
              h_entryPrice := entryPrice signal;
              h_unrealizedPnL := priceDiff signal currentPrice |}
  | None => None
  end.

End SignalHealth.

(** ** RiskManagementService: the statistics it reports *)

Module RiskReport.
Import RiskManagementService.
Local Open Scope Q_scope.

Record RiskStatistics := mkRiskStatistics {
  st_totalTrades : Z;
  st_winRate : Q;
  st_averagePnL : Q;
  st_consecutiveLosses : Z;
  st_currentDrawdown : Q;
  st_maxDrawdownReached : Q;
  st_riskRewardRatio : Q;
  st_shouldReduceRisk : bool
}.

(** [getRiskStatistics()].  The two quotients are taken only with a
    positive number of trades. *)
Definition getRiskStatistics (rm : RiskManagement) : RiskStatistics :=
  {| st_totalTrades := totalTrades rm;
     st_winRate :=
       if (0 <? totalTrades rm)%Z
       then inject_Z (winningTrades rm) / inject_Z (totalTrades rm) * 100
       else 0;
     st_averagePnL :=
       if (0 <? totalTrades rm)%Z
       then totalPnL rm / inject_Z (totalTrades rm)
       else 0;
     st_consecutiveLosses := consecutiveLosses rm;
     st_currentDrawdown := currentDrawdown rm;
     st_maxDrawdownReached := maxDrawdownReached rm;
     st_riskRewardRatio := riskRewardRatio (config rm);
     st_shouldReduceRisk :=
       (maxConsecutiveLosses (config rm) <=? consecutiveLosses rm)%Z |}.

End RiskReport.

(** ** Further sample inputs *)

Module MoreExamples.
Import Schema.
Local Open Scope Q_scope.

(** Fifteen prices rising by one. *)
Definition rising : list Q :=
  [1; 2; 3; 4; 5; 6; 7; 8; 9; 10; 11; 12; 13; 14; 15].

(** An analysis with the MACD values of a computed MACD. *)
Definition withMacd (m : Indicators.Macd)
    (a : TechnicalAnalysisService.Analysis)
    : TechnicalAnalysisService.Analysis :=
  {| TechnicalAnalysisService.currentPrice :=
       TechnicalAnalysisService.currentPrice a;
     TechnicalAnalysisService.rsi := TechnicalAnalysisService.rsi a;
     TechnicalAnalysisService.macd := Indicators.macd m;
     TechnicalAnalysisService.macdSignalLine := Indicators.signal m;
     TechnicalAnalysisService.sma20 := TechnicalAnalysisService.sma20 a;
     TechnicalAnalysisService.ema50 := TechnicalAnalysisService.ema50 a;
     TechnicalAnalysisService.bollingerUpper :=
       TechnicalAnalysisService.bollingerUpper a;
     TechnicalAnalysisService.bollingerLower :=
       TechnicalAnalysisService.bollingerLower a;
     TechnicalAnalysisService.priceChange :=
       TechnicalAnalysisService.priceChange a;
     TechnicalAnalysisService.trendDirection :=
       TechnicalAnalysisService.trendDirection a;
     TechnicalAnalysisService.marketStructure :=
       TechnicalAnalysisService.marketStructure a;
     TechnicalAnalysisService.alignment :=
       TechnicalAnalysisService.alignment a;
     TechnicalAnalysisService.regimeType :=
       TechnicalAnalysisService.regimeType a;
     TechnicalAnalysisService.regimeStrength :=
       TechnicalAnalysisService.regimeStrength a;
     TechnicalAnalysisService.recommendedStrategy :=
       TechnicalAnalysisService.recommendedStrategy a;
     TechnicalAnalysisService.volumeConfirmation :=
       TechnicalAnalysisService.volumeConfirmation a;
     TechnicalAnalysisService.trapDetected :=
       TechnicalAnalysisService.trapDetected a;
     TechnicalAnalysisService.trapType :=
       TechnicalAnalysisService.trapType a |}.

(** A market structure whose resistance is 0.3 percent above a price of
    100. *)
Definition nearResistance : TechnicalAnalysisService.MarketStructure :=
  {| TechnicalAnalysisService.trend := TechnicalAnalysisService.UPTREND;
     TechnicalAnalysisService.support := 90;
     TechnicalAnalysisService.resistance := 1003 # 10;
     TechnicalAnalysisService.volatility := TechnicalAnalysisService.LOW |}.

(** What the generator fetches for V10 at a price of 100 in a bearish
    market. *)
Definition v10Input : ConsolidatedBatch.MarketInput :=
  {| ConsolidatedBatch.in_symbol := "V10";
     ConsolidatedBatch.in_price := 100;
     ConsolidatedBatch.in_indicators := Examples.bearishIndicators;
     ConsolidatedBatch.in_fundamentalScore := 50;
     ConsolidatedBatch.in_fundamentalReasoning := [] |}.

(** The risk statistics after one losing trade of one percent. *)
Definition afterOneLoss : RiskManagementService.RiskManagement :=
  RiskRuns.recordTrades RiskManagementService.initial [(- 1, false)].

End MoreExamples.

(** * Properties *)

(** ** Comparisons and rounding *)

Section JsFacts.
Local Open Scope Q_scope.

Lemma ltb_lt (x y : Q) : Js.ltb x y = true <-> x < y.
Proof.
  unfold Js.ltb. rewrite negb_true_iff. split.
  - intros H. apply Qnot_le_lt. intros Hle.
    apply Qle_bool_iff in Hle. congruence.
  - intros H. destruct (Qle_bool y x) eqn:E; [|reflexivity].
    apply Qle_bool_iff in E. apply Qle_not_lt in E. contradiction.
Qed.

Lemma ltb_ge (x y : Q) : Js.ltb x y = false <-> y <= x.
Proof.
  unfold Js.ltb. rewrite negb_false_iff. apply Qle_bool_iff.
Qed.

Lemma leb_le (x y : Q) : Js.leb x y = true <-> x <= y.
Proof. apply Qle_bool_iff. Qed.

Lemma leb_gt (x y : Q) : Js.leb x y = false <-> y < x.
Proof.
  unfold Js.leb. split.
  - intros H. apply Qnot_le_lt. intros Hle.
    apply Qle_bool_iff in Hle. congruence.
  - intros H. destruct (Qle_bool x y) eqn:E; [|reflexivity].
    apply Qle_bool_iff in E. apply Qle_not_lt in E. contradiction.
Qed.

Lemma max_ge_l (x y : Q) : x <= Js.max x y.
Proof.
  unfold Js.max. destruct (Js.leb x y) eqn:E.
  - now apply leb_le.
  - apply Qle_refl.
Qed.

Lemma max_ge_r (x y : Q) : y <= Js.max x y.
Proof.
  unfold Js.max. destruct (Js.leb x y) eqn:E.
  - apply Qle_refl.
  - apply leb_gt in E. now apply Qlt_le_weak.
Qed.

Lemma orElse_0 (x : Q) : Js.orElse x 0 == x.
Proof.
  unfold Js.orElse, Js.truthy, Js.eqb.
  destruct (Qeq_bool x 0) eqn:E; simpl; [|reflexivity].
  apply Qeq_bool_iff in E. now symmetry.
Qed.



End JsFacts.

(** ** Trade levels *)

Section TradeLevels.
Import Schema ConsolidatedSignalGenerator.
Local Open Scope Q_scope.

(** [calculateRiskLevels] has no direction among its arguments: for a
    positive entry price and a positive confidence it puts the stop-loss
    below the entry and the take-profit above it. *)
Lemma calculateRiskLevels_buy_side (entry volatility : Q) (conf : Z)
    (tf : TradeType) :
  0 < entry -> (0 < conf)%Z ->
  rl_stopLossPrice (calculateRiskLevels entry conf volatility tf) < entry
  /\ entry < rl_takeProfitPrice (calculateRiskLevels entry conf volatility tf).
Proof.
  intros Hentry Hconf.
  assert (Hbase : 15 # 1000 <= Js.max (15 # 1000) (volatility * (15 # 10)))
    by apply max_ge_l.
  assert (Hc : 0 < inject_Z conf / 100).
  { apply Qlt_shift_div_l; [reflexivity|].
    rewrite Qmult_0_l. change 0 with (inject_Z 0). now rewrite <- Zlt_Qlt. }
  unfold calculateRiskLevels.
  set (base := Js.max (15 # 1000) (volatility * (15 # 10))) in *.
  set (c := inject_Z conf / 100) in *.
  assert (Hb : 0 < base) by lra.
  assert (Heb : 0 < entry * base) by now apply Qmult_lt_0_compat.
  assert (Hebc : 0 < entry * base * c) by now apply Qmult_lt_0_compat.
  destruct tf; cbn [timeframeMultipliers rl_stopLossPrice rl_takeProfitPrice];
    split; nra.
Qed.


(** C1, at a failing input.  For bearish indicator values the consolidated
    generator returns a SELL signal that passes its quality check, with the
    levels of [calculateRiskLevels]: entry 100, stop-loss 98.2 and
    take-profit 104.914.  The stop-loss is below the entry and the
    take-profit above it, which is the ordering of a BUY; a SELL requires
    take-profit < entry < stop-loss. *)
Theorem consolidated_sell_levels_on_buy_side :
  exists s,
    generateSignalForSymbol "V10" 100 Examples.bearishIndicators 50 []
      = Some s
    /\ action s = SELL
    /\ validateSignalQuality s = true
    /\ entryPrice s == 100
    /\ stopLossPrice s == 982 # 10
    /\ takeProfitPrice s == 104914 # 1000
    /\ ~ (takeProfitPrice s < entryPrice s /\ entryPrice s < stopLossPrice s).
Proof.
  eexists. split; [vm_compute; reflexivity|].
  repeat split; try (vm_compute; reflexivity).
  intros [H _]. vm_compute in H. discriminate H.
Qed.

End TradeLevels.

(** ** Repository lookups *)

Section StorageFacts.
Import Schema Storage.

Lemma find_updateSignal_ne (d : Db) (key k : Z) (u : SignalUpdate) :
  key ≠ k → getSignalById (updateSignal d key u) k = getSignalById d k.
Proof.
  intros Hne. unfold getSignalById, updateSignal. simpl.
  induction (signals d) as [|r rows IH]; [reflexivity|]. simpl.
  destruct (Z.eqb_spec (id r) key) as [E|E]; simpl;
    destruct (Z.eqb_spec (id r) k) as [E'|E']; congruence || exact IH.
Qed.

Lemma find_updateSignal_eq (d : Db) (key : Z) (u : SignalUpdate) :
  getSignalById (updateSignal d key u) key
  = option_map (applyUpdate u) (getSignalById d key).
Proof.
  unfold getSignalById, updateSignal. simpl.
  induction (signals d) as [|r rows IH]; [reflexivity|]. simpl.
  destruct (Z.eqb_spec (id r) key) as [E|E]; simpl.
  - now rewrite E, Z.eqb_refl.
  - destruct (Z.eqb_spec (id r) key); [contradiction|exact IH].
Qed.

End StorageFacts.

(** ** Conflict prevention *)

Section ConflictPrevention.
Import Schema Storage SignalManager.
Local Open Scope Z_scope.

(** [shouldCreateDespiteConflicts] accepts as soon as the candidate beats
    one of the conflicting signals. *)
Lemma shouldCreateDespiteConflicts_some (signalData : InsertSignal)
    (conflicts : list Signal) :
  shouldCreateDespiteConflicts signalData conflicts = true <->
  exists conflict, In conflict conflicts
    /\ (confidence conflict < ins_confidence signalData
        \/ (ins_confidence signalData = confidence conflict
            /\ Js.orElseZ (default 0 (ins_priority signalData)) 3
               < Js.orElseZ (priority conflict) 3)).
Proof.
  induction conflicts as [|c rest IH]; simpl.
  - split; [discriminate|]. intros (? & [] & _).
  - destruct (confidence c <? ins_confidence signalData) eqn:E1.
    { split; [|reflexivity]. intros _. exists c. split; [now left|].
      left. lia. }
    destruct ((ins_confidence signalData =? confidence c)
              && (Js.orElseZ (default 0 (ins_priority signalData)) 3
                  <? Js.orElseZ (priority c) 3)) eqn:E2.
    { split; [|reflexivity]. intros _. exists c. split; [now left|].
      right. apply andb_true_iff in E2. lia. }
    rewrite IH. split.
    + intros (x & Hin & Hx). exists x. split; [now right|exact Hx].
    + intros (x & [->|Hin] & Hx); [|now exists x].
      apply andb_false_iff in E2. lia.
Qed.


Lemma deactivate_keeps_replaced (d : Db) (conflicts : list Signal) (k : Z) :
  replaced d k -> replaced (deactivateConflictingSignals d conflicts) k.
Proof.
  revert d. induction conflicts as [|c rest IH]; intros d H; [exact H|].
  simpl. apply IH. destruct H as (row & Hrow & Hact & Hres).
  destruct (Z.eq_dec (id c) k) as [<-|Hne].
  - unfold replaced. rewrite find_updateSignal_eq, Hrow. simpl.
    eexists. split; [reflexivity|]. split; reflexivity.
  - exists row. split; [|tauto].
    rewrite <- Hrow. now apply find_updateSignal_ne.
Qed.

(** On acceptance every conflicting signal that is stored is deactivated
    with the result REPLACED. *)
Lemma deactivateConflictingSignals_all (d : Db) (conflicts : list Signal)
    (c : Signal) :
  c ∈ conflicts -> is_Some (getSignalById d (id c)) ->
  replaced (deactivateConflictingSignals d conflicts) (id c).
Proof.
  revert d. induction conflicts as [|x rest IH]; intros d Hin Hsome.
  - now apply elem_of_nil in Hin.
  - simpl. apply elem_of_cons in Hin as [->|Hin].
    + apply deactivate_keeps_replaced. destruct Hsome as [row Hrow].
      unfold replaced. rewrite find_updateSignal_eq, Hrow. simpl.
      eexists. split; [reflexivity|]. split; reflexivity.
    + apply IH; [exact Hin|].
      destruct (Z.eq_dec (id x) (id c)) as [E|E].
      * rewrite <- E, find_updateSignal_eq. destruct Hsome as [row Hrow].
        rewrite <- E in Hrow. rewrite Hrow. simpl. eauto.
      * now rewrite find_updateSignal_ne.
Qed.

(** C2, at a failing input.  Signals 1 (confidence 90, entry 100) and 2
    (confidence 70, entry 101.5) are created through the manager and are
    both active.  A candidate of confidence 75 at 100.8 conflicts with both.
    It is not above every conflicting confidence, yet it is created, and
    signal 1, of confidence 90, is deactivated as REPLACED. *)
Theorem lower_confidence_candidate_replaces_higher :
  exists first second third replaced,
    snd Examples.afterFirst = Some first
    /\ snd Examples.afterSecond = Some second
    /\ snd Examples.afterThird = Some third
    /\ map id (checkForConflicts (fst Examples.afterSecond)
                 (Examples.buyV10 (1008 # 10) 75)) = [id second; id first]
    /\ confidence first = 90 /\ confidence second = 70
    /\ confidence third = 75
    /\ isActive third = true
    /\ getSignalById (fst Examples.afterThird) (id first) = Some replaced
    /\ isActive replaced = false
    /\ result replaced = Some REPLACED
    /\ confidence replaced = 90.
Proof.
  do 4 eexists.
  split; [vm_compute; reflexivity|].
  split; [vm_compute; reflexivity|].
  split; [vm_compute; reflexivity|].
  split; [vm_compute; reflexivity|].
  do 4 (split; [reflexivity|]).
  split; [vm_compute; reflexivity|].
  repeat split.
Qed.

End ConflictPrevention.

(** ** The closing decision and its effects *)

Section ClosingDecision.
Import Schema Storage SignalTracker.
Local Open Scope Q_scope.

(** The decision of [checkSignalStatus] on a signal with both levels set
    and non-zero: a BUY wins at or above its take-profit and otherwise
    loses at or below its stop-loss; a SELL mirrors it. *)
Lemma hit_levels (s : Signal) (price tp sl : Q) :
  takeProfitPrice s = Some tp -> stopLossPrice s = Some sl ->
  ~ tp == 0 -> ~ sl == 0 ->
  match signalType s with
  | BUY =>
      (tp <= price -> hit s price = Some (WIN, TP))
      /\ (price < tp -> price <= sl -> hit s price = Some (LOSS, SL))
      /\ (price < tp -> sl < price -> hit s price = None)
  | SELL =>
      (price <= tp -> hit s price = Some (WIN, TP))
      /\ (tp < price -> sl <= price -> hit s price = Some (LOSS, SL))
      /\ (tp < price -> price < sl -> hit s price = None)
  | HOLD => hit s price = None
  end.
Proof.
  intros Htp Hsl Htp0 Hsl0. unfold hit. rewrite Htp, Hsl.
  assert (Et : Js.truthy tp = true).
  { unfold Js.truthy, Js.eqb. destruct (Qeq_bool tp 0) eqn:E; [|reflexivity].
    now apply Qeq_bool_iff in E. }
  assert (Es : Js.truthy sl = true).
  { unfold Js.truthy, Js.eqb. destruct (Qeq_bool sl 0) eqn:E; [|reflexivity].
    now apply Qeq_bool_iff in E. }
  unfold reachedUp, reachedDown. rewrite Et, Es. simpl.
  destruct (signalType s); [| |reflexivity]; repeat split; intros;
    repeat match goal with
           | |- context [Js.leb ?x ?y] =>
               let E := fresh "E" in
               destruct (Js.leb x y) eqn:E;
               [apply leb_le in E|apply leb_gt in E]
           end; try reflexivity; lra.
Qed.

(** What a closure does to the server: the stored row of the signal is
    deactivated with the result and the exit price, the signal leaves the
    tracked set, one history row is appended, and the risk-management
    service is not touched. *)
Lemma closeSignal_effects (w : Server) (s row : Signal) (price : Q)
    (r : Result) (ht : HitType) :
  getSignalById (db w) (id s) = Some row ->
  let w' := closeSignal w s price r ht in
  (exists row', getSignalById (db w') (id s) = Some row'
                /\ isActive row' = false /\ result row' = Some r
                /\ exitPrice row' = Some price)
  /\ (id s ∉ id <$> trackedSignals w')
  /\ signalHistory (db w')
     = signalHistory (db w)
       ++ [createSignalHistoryEntry s price r (closingPnl s price) ht]
  /\ riskManagement w' = riskManagement w.
Proof.
  intros Hrow. cbv zeta. unfold closeSignal.
  cbn [db trackedSignals riskManagement].
  split; [|split; [|split; reflexivity]].
  - unfold getSignalById, createSignalHistory, updateSignal in *.
    cbn [signals] in *.
    induction (signals (db w)) as [|x rows IH]; [discriminate|].
    simpl in *. destruct (Z.eqb_spec (id x) (id s)) as [E|E].
    + simpl. rewrite E, Z.eqb_refl. eexists. split; [reflexivity|].
      repeat split.
    + destruct (Z.eqb_spec (id x) (id s)); [contradiction|]. now apply IH.
  - unfold untrack. intros Hin.
    apply list_elem_of_fmap in Hin as (t & Hid & Ht).
    apply list_elem_of_filter in Ht as [Hne _]. now apply Hne.
Qed.

End ClosingDecision.

(** ** Tick-driven closure *)

Section Closure.
Import Schema Storage SignalTracker.

(** Tick processing never touches the risk-management service. *)
Lemma checkEach_riskManagement (entries : list Signal) (sym : string)
    (price : Q) (w : Server) :
  riskManagement (checkEach entries sym price w) = riskManagement w.
Proof.
  revert w. induction entries as [|s rest IH]; intros w; simpl; [reflexivity|].
  rewrite IH. destruct (_ && _); [|reflexivity].
  unfold checkSignalStatus. now destruct (hit s price) as [[? ?]|].
Qed.

Lemma processTickData_riskManagement (w : Server) (tick : DerivTickData) :
  riskManagement (processTickData w tick) = riskManagement w.
Proof. apply checkEach_riskManagement. Qed.

(** C3, at a failing input.  A tracked active BUY (entry 100, take-profit
    110) receives a tick at 110.  The closure registers a WIN on the stored
    row, removes the signal from the tracked set and appends one history
    row with a profit of 10 percent; the risk-management statistics are
    left as they were, where [updateTradeResult(10, true)] would have
    counted one trade. *)
Theorem closure_leaves_risk_profile_untouched :
  let w := SignalTracker.processTickData Examples.trackingOpenBuy
             Examples.tickAtTakeProfit in
  hit Examples.openBuy 110 = Some (WIN, TP)
  /\ (exists row, signals (db w) = [row]
        /\ isActive row = false /\ result row = Some WIN)
  /\ trackedSignals w = []
  /\ (exists h, signalHistory (db w) = [h]
        /\ sh_result h = WIN /\ sh_closeReason h = TAKE_PROFIT_HIT
        /\ option_map Qred (sh_pnl h) = Some 10%Q)
  /\ riskManagement w = RiskManagementService.initial
  /\ RiskManagementService.totalTrades (riskManagement w) = 0%Z
  /\ RiskManagementService.totalTrades
       (RiskManagementService.updateTradeResult
          RiskManagementService.initial 10 true) = 1%Z.
Proof.
  cbv zeta. split; [vm_compute; reflexivity|].
  split; [eexists; split; [vm_compute; reflexivity|split; reflexivity]|].
  split; [vm_compute; reflexivity|].
  split; [eexists; split; [vm_compute; reflexivity|repeat split]|].
  split; [apply processTickData_riskManagement|].
  split; [now rewrite processTickData_riskManagement|reflexivity].
Qed.

(** *** The effect of one tick on the tracked set, the rows and the
    history *)

Lemma checkEach_history (entries : list Signal) (sym : string) (price : Q)
    (w : Server) :
  signalHistory (db (checkEach entries sym price w))
  = signalHistory (db w) ++ omap (closure sym price) entries.
Proof.
  revert w. induction entries as [|s rest IH]; intros w; simpl.
  - now rewrite app_nil_r.
  - rewrite IH. unfold closure, checkSignalStatus.
    destruct (String.eqb (symbol s) sym && isActive s); [|reflexivity].
    destruct (hit s price) as [[r ht]|]; [|reflexivity].
    simpl. now rewrite <- app_assoc.
Qed.

Lemma filter_all (P : Signal → Prop) `{!∀ x, Decision (P x)}
    (l : list Signal) :
  (∀ x, x ∈ l → P x) → filter P l = l.
Proof.
  induction l as [|x l IH]; intros Hall; [reflexivity|].
  rewrite filter_cons_True by (apply Hall; left).
  f_equal. apply IH. intros y Hy. apply Hall. now right.
Qed.

Lemma checkEach_tracked (entries : list Signal) (sym : string) (price : Q)
    (w : Server) :
  trackedSignals (checkEach entries sym price w)
  = filter (λ t, id t ∉ closedIds sym price entries) (trackedSignals w).
Proof.
  revert w. induction entries as [|s rest IH]; intros w; simpl.
  - symmetry. apply filter_all. intros x _. apply not_elem_of_nil.
  - rewrite IH. unfold closedIds at 2. simpl. fold (closedIds sym price rest).
    unfold closure, checkSignalStatus.
    destruct (String.eqb (symbol s) sym && isActive s); [|reflexivity].
    destruct (hit s price) as [[r ht]|]; [|reflexivity].
    simpl. unfold untrack. rewrite list_filter_filter.
    apply list_filter_iff. intros t. rewrite not_elem_of_cons. tauto.
Qed.

Lemma checkEach_noop (entries : list Signal) (sym : string) (price : Q)
    (w : Server) :
  (∀ s, s ∈ entries → closure sym price s = None) →
  checkEach entries sym price w = w.
Proof.
  revert w. induction entries as [|s rest IH]; intros w H; simpl;
    [reflexivity|].
  assert (Hs : closure sym price s = None) by (apply H; left).
  unfold closure in Hs. unfold checkSignalStatus.
  destruct (String.eqb (symbol s) sym && isActive s).
  - destruct (hit s price) as [[r ht]|]; [discriminate|].
    apply IH. intros t Ht. apply H. now right.
  - apply IH. intros t Ht. apply H. now right.
Qed.

Lemma closedIds_elem (sym : string) (price : Q) (entries : list Signal)
    (k : Z) :
  k ∈ closedIds sym price entries ↔
  ∃ s, s ∈ entries ∧ is_Some (closure sym price s) ∧ id s = k.
Proof.
  unfold closedIds. rewrite list_elem_of_omap. split.
  - intros (s & Hin & Hs). exists s. split; [exact Hin|].
    destruct (closure sym price s); simpl in Hs; [|discriminate].
    split; [eauto|congruence].
  - intros (s & Hin & [h Hh] & <-). exists s. split; [exact Hin|].
    now rewrite Hh.
Qed.

Lemma checkEach_row (entries : list Signal) (sym : string) (price : Q)
    (w : Server) (k : Z) :
  k ∉ closedIds sym price entries →
  getSignalById (db (checkEach entries sym price w)) k
  = getSignalById (db w) k.
Proof.
  revert w. induction entries as [|s rest IH]; intros w Hk; simpl;
    [reflexivity|].
  unfold closedIds in Hk. simpl in Hk. fold (closedIds sym price rest) in Hk.
  unfold closure in Hk. unfold checkSignalStatus.
  destruct (String.eqb (symbol s) sym && isActive s); [|now apply IH].
  destruct (hit s price) as [[r ht]|]; [|now apply IH].
  simpl in Hk. apply not_elem_of_cons in Hk as [Hne Hk].
  rewrite IH by exact Hk. simpl.
  unfold getSignalById at 1. simpl.
  apply (find_updateSignal_ne (db w) (id s) k). congruence.
Qed.

Lemma same_id_same_entry (l : list Signal) (x y : Signal) :
  NoDup (id <$> l) → x ∈ l → y ∈ l → id x = id y → x = y.
Proof.
  induction l as [|a l IH]; intros Hnd Hx Hy Hid.
  - now apply elem_of_nil in Hx.
  - rewrite fmap_cons in Hnd. apply NoDup_cons in Hnd as [Ha Hnd].
    apply elem_of_cons in Hx as [->|Hx]; apply elem_of_cons in Hy as [->|Hy].
    + reflexivity.
    + exfalso. apply Ha. rewrite Hid. now apply list_elem_of_fmap_2.
    + exfalso. apply Ha. rewrite <- Hid. now apply list_elem_of_fmap_2.
    + now apply IH.
Qed.

Lemma untouched_by_tick (w : Server) (tick : DerivTickData) (s : Signal) :
  NoDup (id <$> trackedSignals w) →
  s ∈ trackedSignals w →
  closure (mapDerivSymbolToDisplay (tick_symbol tick)) (quote tick) s = None →
  NoDup (id <$> trackedSignals (processTickData w tick))
  ∧ s ∈ trackedSignals (processTickData w tick)
  ∧ getSignalById (db (processTickData w tick)) (id s)
    = getSignalById (db w) (id s).
Proof.
  intros Hnd Hin Hclosure. unfold processTickData.
  set (sym := mapDerivSymbolToDisplay (tick_symbol tick)) in *.
  assert (Hid : id s ∉ closedIds sym (quote tick) (trackedSignals w)).
  { intros Hk. apply closedIds_elem in Hk as (t & Ht & [h Hh] & Heq).
    assert (t = s) by (eapply same_id_same_entry; eauto).
    subst t. congruence. }
  rewrite checkEach_tracked. split; [|split].
  - eapply sublist_NoDup; [exact Hnd|].
    apply fmap_sublist, sublist_filter.
  - apply list_elem_of_filter. now split.
  - now apply checkEach_row.
Qed.

(** *** Reloading the tracked set *)

Lemma track_elem (x t : Signal) (l : list Signal) :
  t ∈ track x l → t = x ∨ t ∈ l.
Proof.
  induction l as [|y l IH]; simpl.
  - intros H. apply list_elem_of_singleton in H. now left.
  - destruct (id y =? id x)%Z.
    + intros H. apply elem_of_cons in H as [->|H]; [now left|].
      right. now right.
    + intros H. apply elem_of_cons in H as [->|H]; [right; left|].
      destruct (IH H) as [->|Hl]; [now left|right; now right].
Qed.

Lemma loaded_elem (l acc : list Signal) (t : Signal) :
  t ∈ fold_left (λ acc s, track s acc) l acc → t ∈ l ∨ t ∈ acc.
Proof.
  revert acc. induction l as [|x l IH]; intros acc H; simpl in H.
  - now right.
  - destruct (IH _ H) as [Hl|Hacc]; [left; now right|].
    destruct (track_elem _ _ _ Hacc) as [->|Hin]; [left; left|now right].
Qed.

(** The periodic reload of the tracked set from the repository does not
    bring a closed signal back. *)
Lemma closed_signal_not_reloaded (w : Server) (s : Signal) (price : Q)
    (r : Result) (ht : HitType) :
  id s
  ∉ id <$> trackedSignals (loadActiveSignals (closeSignal w s price r ht)).
Proof.
  intros Hin. apply list_elem_of_fmap in Hin as (t & Hid & Ht).
  unfold loadActiveSignals in Ht. cbn [trackedSignals] in Ht.
  apply loaded_elem in Ht as [Ht|Ht]; [|now apply elem_of_nil in Ht].
  unfold getActiveSignals in Ht.
  apply list_elem_of_In, in_rev, list_elem_of_In in Ht.
  apply list_elem_of_filter in Ht as [Hact Ht].
  unfold closeSignal in Ht.
  cbn [db signals createSignalHistory updateSignal] in Ht.
  apply list_elem_of_In, in_map_iff in Ht as (row & <- & _).
  destruct (Z.eqb_spec (id row) (id s)) as [E|E].
  - simpl in Hact. discriminate.
  - congruence.
Qed.
(** C4.  A tick that hits a level of a tracked active signal, delivered
    twice in a row (the tracked map holding one entry per id): the first
    delivery removes the signal from the tracked set, the second changes
    nothing, and over both deliveries the history gains exactly one row for
    that signal (next to the rows of the other signals the same tick
    closes). *)
Theorem closing_tick_twice_one_outcome (w : Server) (tick : DerivTickData)
    (s : Signal) (r : Result) (ht : HitType) :
  let sym := mapDerivSymbolToDisplay (tick_symbol tick) in
  let price := quote tick in
  let h := createSignalHistoryEntry s price r (closingPnl s price) ht in
  let w1 := processTickData w tick in
  let w2 := processTickData w1 tick in
  NoDup (id <$> trackedSignals w) →
  s ∈ trackedSignals w →
  symbol s = sym →
  isActive s = true →
  hit s price = Some (r, ht) →
  (id s ∉ id <$> trackedSignals w1)
  ∧ w2 = w1
  ∧ ∃ before after,
      trackedSignals w = before ++ s :: after
      ∧ (id s ∉ id <$> before) ∧ (id s ∉ id <$> after)
      ∧ signalHistory (db w2)
        = signalHistory (db w)
          ++ omap (closure sym price) before
          ++ h :: omap (closure sym price) after.
Proof.
  intros sym price h w1 w2 Hnd Hin Hsym Hactive Hhit.
  assert (Hclosure : closure sym price s = Some h).
  { unfold closure. rewrite Hsym, String.eqb_refl, Hactive, Hhit.
    reflexivity. }
  assert (Hclosed : ∀ t,
            t ∈ trackedSignals w1 → closure sym price t = None).
  { intros t Ht. subst w1. unfold processTickData in Ht.
    rewrite checkEach_tracked in Ht.
    apply list_elem_of_filter in Ht as [Hid Ht].
    destruct (closure sym price t) as [h'|] eqn:E; [|reflexivity].
    exfalso. apply Hid. apply closedIds_elem. exists t.
    split; [exact Ht|]. split; [exists h'; exact E|reflexivity]. }
  assert (Hsame : w2 = w1).
  { subst w2. unfold processTickData at 1. now apply checkEach_noop. }
  split; [|split; [exact Hsame|]].
  - intros Hmem. apply list_elem_of_fmap in Hmem as (t & Hid & Ht).
    specialize (Hclosed t Ht).
    subst w1. unfold processTickData in Ht. rewrite checkEach_tracked in Ht.
    apply list_elem_of_filter in Ht as [Hnot _]. apply Hnot.
    apply closedIds_elem. exists s. split; [exact Hin|].
    split; [exists h; exact Hclosure|exact Hid].
  - destruct (list_elem_of_split _ _ Hin) as (before & after & Hsplit).
    exists before, after. split; [exact Hsplit|].
    rewrite Hsplit, fmap_app, fmap_cons in Hnd.
    apply NoDup_app in Hnd as (_ & Hdisj & Hnd).
    apply NoDup_cons in Hnd as [Hafter _].
    split; [|split; [exact Hafter|]].
    + intros Hb. apply (Hdisj _ Hb). left.
    + rewrite Hsame. subst w1. unfold processTickData.
      rewrite checkEach_history. fold sym price.
      rewrite Hsplit, omap_app. simpl. now rewrite Hclosure.
Qed.

Lemma closing_tick_twice_one_outcome_witness :
  NoDup (id <$> trackedSignals Examples.trackingOpenBuy)
  ∧ Examples.openBuy ∈ trackedSignals Examples.trackingOpenBuy
  ∧ hit Examples.openBuy 110 = Some (WIN, TP)
  ∧ processTickData
      (processTickData Examples.trackingOpenBuy Examples.tickAtTakeProfit)
      Examples.tickAtTakeProfit
    = processTickData Examples.trackingOpenBuy Examples.tickAtTakeProfit.
Proof.
  assert (Hnd : NoDup (id <$> trackedSignals Examples.trackingOpenBuy))
    by (apply NoDup_singleton).
  assert (Hin : Examples.openBuy ∈ trackedSignals Examples.trackingOpenBuy)
    by (apply list_elem_of_singleton; reflexivity).
  assert (Hhit : hit Examples.openBuy 110 = Some (WIN, TP))
    by (vm_compute; reflexivity).
  split; [exact Hnd|]. split; [exact Hin|]. split; [exact Hhit|].
  exact (proj1 (proj2
    (closing_tick_twice_one_outcome Examples.trackingOpenBuy
       Examples.tickAtTakeProfit Examples.openBuy WIN TP
       Hnd Hin eq_refl eq_refl Hhit))).
Defined.

(** *** Signals without levels *)

Lemma hit_without_levels (s : Signal) (price : Q) :
  takeProfitPrice s = None → stopLossPrice s = None → hit s price = None.
Proof.
  intros Htp Hsl. unfold hit. rewrite Htp, Hsl.
  now destruct (signalType s).
Qed.

(** C10.  For a tracked signal (the tracked map holding one entry per
    id): without a take-profit level no tick is a WIN, without a stop-loss
    level no tick is a LOSS, and with neither level the signal stays in the
    tracked set, and its stored row stays as it is, through every sequence
    of ticks. *)
Theorem missing_levels_never_close (w : Server) (s : Signal)
    (ticks : list DerivTickData) :
  NoDup (id <$> trackedSignals w) →
  s ∈ trackedSignals w →
  (takeProfitPrice s = None →
   ∀ price ht, hit s price ≠ Some (WIN, ht))
  ∧ (stopLossPrice s = None →
     ∀ price ht, hit s price ≠ Some (LOSS, ht))
  ∧ (takeProfitPrice s = None → stopLossPrice s = None →
     s ∈ trackedSignals (processTicks w ticks)
     ∧ getSignalById (db (processTicks w ticks)) (id s)
       = getSignalById (db w) (id s)).
Proof.
  intros Hnd Hin. split; [|split].
  - intros Htp price ht. unfold hit. rewrite Htp. simpl.
    destruct (signalType s); [| |discriminate].
    + destruct (reachedDown _ _); discriminate.
    + destruct (reachedUp _ _); discriminate.
  - intros Hsl price ht. unfold hit. rewrite Hsl. simpl.
    destruct (signalType s); [| |discriminate].
    + destruct (reachedUp _ _); discriminate.
    + destruct (reachedDown _ _); discriminate.
  - intros Htp Hsl. unfold processTicks.
    revert w Hnd Hin. induction ticks as [|tick rest IH]; intros w Hnd Hin.
    + now split.
    + simpl.
      destruct (untouched_by_tick w tick s Hnd Hin) as (Hnd' & Hin' & Hrow).
      { unfold closure. rewrite hit_without_levels by assumption.
        now destruct (_ && _). }
      destruct (IH _ Hnd' Hin') as [Hin'' Hrow'].
      split; [exact Hin''|]. now rewrite Hrow'.
Qed.


Lemma missing_levels_never_close_witness :
  NoDup (id <$> trackedSignals Examples.trackingBoth)
  ∧ Examples.sellWithoutLevels ∈ trackedSignals Examples.trackingBoth
  ∧ Examples.sellWithoutLevels
    ∈ trackedSignals
        (processTicks Examples.trackingBoth
           [Examples.tickAtTakeProfit; Examples.tickAtTakeProfit]).
Proof.
  assert (Hnd : NoDup (id <$> trackedSignals Examples.trackingBoth))
    by (apply NoDup_cons; split;
        [intros H; apply list_elem_of_singleton in H; discriminate H
        |apply NoDup_singleton]).
  assert (Hin : Examples.sellWithoutLevels
                ∈ trackedSignals Examples.trackingBoth)
    by (right; left).
  split; [exact Hnd|]. split; [exact Hin|].
  exact (proj1 (proj2 (proj2
    (missing_levels_never_close Examples.trackingBoth
       Examples.sellWithoutLevels
       [Examples.tickAtTakeProfit; Examples.tickAtTakeProfit] Hnd Hin))
    eq_refl eq_refl)).
Defined.

End Closure.

(** ** Signal scoring *)

Section Scoring.
Import Schema TechnicalAnalysisService.
Local Open Scope Z_scope.

Lemma bullish_nonneg (n : Z) (why : list string) (s : Scores) :
  0 <= n -> nonneg s -> nonneg (bullish n why s).
Proof. unfold nonneg, bullish. simpl. lia. Qed.

Lemma bearish_nonneg (n : Z) (why : list string) (s : Scores) :
  0 <= n -> nonneg s -> nonneg (bearish n why s).
Proof. unfold nonneg, bearish. simpl. lia. Qed.

Ltac step_nonneg :=
  repeat match goal with
         | |- nonneg (if ?b then _ else _) => destruct b
         | |- nonneg (match ?t with UPTREND => _ | _ => _ end) => destruct t
         end;
  first [assumption
        | apply bullish_nonneg; [lia|assumption]
        | apply bearish_nonneg; [lia|assumption]].

Lemma scoreRsi_nonneg (a : Analysis) (s : Scores) :
  nonneg s -> nonneg (scoreRsi a s).
Proof. intros H. unfold scoreRsi. step_nonneg. Qed.

Lemma scoreMacd_nonneg (a : Analysis) (s : Scores) :
  nonneg s -> nonneg (scoreMacd a s).
Proof. intros H. unfold scoreMacd; cbv zeta. step_nonneg. Qed.

Lemma scoreMovingAverages_nonneg (a : Analysis) (s : Scores) :
  nonneg s -> nonneg (scoreMovingAverages a s).
Proof. intros H. unfold scoreMovingAverages. step_nonneg. Qed.

Lemma scoreBollinger_nonneg (a : Analysis) (s : Scores) :
  nonneg s -> nonneg (scoreBollinger a s).
Proof. intros H. unfold scoreBollinger. step_nonneg. Qed.

Lemma scoreMomentum_nonneg (a : Analysis) (s : Scores) :
  nonneg s -> nonneg (scoreMomentum a s).
Proof. intros H. unfold scoreMomentum. step_nonneg. Qed.

Lemma scoreStructure_nonneg (a : Analysis) (s : Scores) :
  nonneg s -> nonneg (scoreStructure a s).
Proof. intros H. unfold scoreStructure; cbv zeta. step_nonneg. Qed.

Lemma scores_nonneg (a : Analysis) :
  0 <= bullishScore (scores a) /\ 0 <= bearishScore (scores a).
Proof.
  unfold scores.
  apply scoreStructure_nonneg, scoreMomentum_nonneg, scoreBollinger_nonneg,
    scoreMovingAverages_nonneg, scoreMacd_nonneg, scoreRsi_nonneg.
  unfold nonneg. simpl. lia.
Qed.

Lemma bonuses_bounded (a : Analysis) (t : SignalType) :
  0 <= alignmentBonus a <= 10 /\ 0 <= trendBonus a <= 5
  /\ 0 <= volumeBonus a <= 5 /\ 0 <= trapPenalty a <= 15
  /\ 0 <= reversalBonus a t <= 5.
Proof.
  unfold alignmentBonus, trendBonus, volumeBonus, trapPenalty, reversalBonus.
  destruct (alignment a), (regimeType a), (Js.ltb 70 (regimeStrength a)),
    (volumeConfirmation a), (trapDetected a), (recommendedStrategy a), t,
    (Js.ltb (rsi a) 30), (Js.ltb 70 (rsi a)); lia.
Qed.

(** C9.  On a history of at least 20 points [generateSignal] returns a
    result, and: a gap of at most 20 between the bullish and the bearish
    score gives HOLD; for a BUY or a SELL the pure-technical confidence is
    at most 85, high volatility has taken exactly 15 from it, and the
    returned confidence is that value plus 10 for multi-timeframe
    alignment, 5 for a strong trend, 5 for volume confirmation, minus 15
    for a liquidity trap, plus the 5 of a reversal in a ranging market,
    capped at 95; the returned confidence lies between 0 and 95. *)
Theorem generateSignal_hold_cap_range (historyLength : nat) (a : Analysis) :
  (20 <= historyLength)%nat ->
  exists r,
    generateSignal historyLength a = Some r
    /\ (scoreDifference (scores a) <= 20 -> sr_signalType r = HOLD)
    /\ (sr_signalType r <> HOLD ->
        let technical := snd (technicalDecision (scores a)) in
        technical <= 85
        /\ volatilityAdjusted a technical
           = technical
             - (if isHigh (volatility (marketStructure a)) then 15 else 0)
        /\ sr_confidence r
           = Z.min (volatilityAdjusted a technical
                    + alignmentBonus a + trendBonus a + volumeBonus a
                    - trapPenalty a + reversalBonus a (sr_signalType r)) 95)
    /\ 0 <= sr_confidence r <= 95.
Proof.
  intros Hlen. unfold generateSignal.
  destruct (Nat.ltb_spec historyLength 20) as [Hlt|_]; [lia|].
  destruct (scores_nonneg a) as [Hbull Hbear].
  destruct (technicalDecision (scores a)) as [t c] eqn:Hdec.
  eexists. split; [reflexivity|]. cbn [sr_signalType sr_confidence snd].
  pose proof (bonuses_bounded a (gated t (volatilityAdjusted a c))) as Hb.
  unfold technicalDecision, scoreDifference in Hdec.
  unfold adjustedConfidence, gated, volatilityAdjusted, scoreDifference in *.
  destruct (isHigh (volatility (marketStructure a)));
    repeat match type of Hdec with
           | context [if ?b then _ else _] =>
               let E := fresh "E" in destruct b eqn:E
           end;
    inversion Hdec; subst t c; clear Hdec;
    repeat match goal with
           | H : _ && _ = true |- _ => apply andb_true_iff in H as [? ?]
           | H : _ && _ = false |- _ => apply andb_false_iff in H
           end;
    repeat match goal with
           | |- context [(?x <? ?y)] => destruct (Z.ltb_spec x y)
           end;
    repeat split; intros; try congruence; try lia.
Qed.

Lemma generateSignal_hold_cap_range_witness :
  (20 <= 20)%nat
  /\ exists r,
       generateSignal 20 Examples.oversold = Some r
       /\ 0 <= sr_confidence r <= 95.
Proof.
  split; [apply le_n|].
  destruct (generateSignal_hold_cap_range 20 Examples.oversold (le_n 20))
    as (r & Hr & _ & _ & Hrange).
  exists r. split; [exact Hr|exact Hrange].
Defined.

End Scoring.

(** ** Health-check cycles: peak tracking and throttling *)

Section Alerts.
Import Schema Storage TacticalTradingAssistant.
Local Open Scope Z_scope.

Lemma max_compat (x x' y : Q) : (x == x')%Q -> (Js.max x y == Js.max x' y)%Q.
Proof.
  intros H. unfold Js.max.
  destruct (Js.leb x y) eqn:E1, (Js.leb x' y) eqn:E2;
    rewrite ?leb_le, ?leb_gt in *; lra.
Qed.

Lemma trackedPeak_max (last : LastAlertState) (profit : Q) :
  (trackedPeak (Some last) profit == Js.max (peakProfit last) profit)%Q.
Proof. unfold trackedPeak. simpl. apply max_compat, orElse_0. Qed.

Lemma trackedPeak_ge (last : LastAlertState) (profit : Q) :
  (peakProfit last <= trackedPeak (Some last) profit)%Q.
Proof. rewrite trackedPeak_max. apply max_ge_l. Qed.

(** The alert state that a cycle leaves for a signal found in storage. *)
Lemma checkAndGenerateAlerts_state (states : gmap Z LastAlertState)
    (d : Db) (key : Z) (health : SignalHealthStatus) (now : Z)
    (signal : Signal) :
  getSignalById d key = Some signal ->
  exists next,
    fst (checkAndGenerateAlerts states d key health now) !! key = Some next
    /\ status next = h_status health
    /\ healthScore next = h_healthScore health
    /\ unrealizedPnL next = h_unrealizedPnL health
    /\ profitTier next = getProfitTier (h_unrealizedPnL health)
    /\ lastPrice next = h_currentPrice health
    /\ peakProfit next
       = trackedPeak (states !! key)
           (profitPercentOf signal (h_currentPrice health))
    /\ lastTelegramAlert next
       = match snd (checkAndGenerateAlerts states d key health now) with
         | Some _ => Some now
         | None => lastTelegramOf states key
         end.
Proof.
  intros Hsig. unfold checkAndGenerateAlerts, lastTelegramOf. rewrite Hsig.
  destruct (negb _ && throttled _ _).
  - simpl. unfold updateSignalStateOnly. rewrite lookup_insert_eq.
    eexists. split; [reflexivity|]. repeat split.
  - destruct (selectAlert _ _ _ _ _ _ _); simpl.
    + rewrite lookup_insert_eq. eexists. split; [reflexivity|]. repeat split.
    + unfold updateSignalStateOnly. rewrite lookup_insert_eq.
      eexists. split; [reflexivity|]. repeat split.
Qed.

Lemma cycles_cons_fst (states : gmap Z LastAlertState) (d : Db) (key : Z)
    (health : SignalHealthStatus) (now : Z)
    (rest : list (SignalHealthStatus * Z)) :
  fst (cycles states d key ((health, now) :: rest))
  = fst (cycles (fst (checkAndGenerateAlerts states d key health now))
           d key rest).
Proof.
  simpl. destruct (checkAndGenerateAlerts states d key health now).
  simpl. now destruct (cycles _ d key rest).
Qed.

Lemma cycles_cons_snd (states : gmap Z LastAlertState) (d : Db) (key : Z)
    (health : SignalHealthStatus) (now : Z)
    (rest : list (SignalHealthStatus * Z)) :
  snd (cycles states d key ((health, now) :: rest))
  = from_option (fun a => [a]) []
      (snd (checkAndGenerateAlerts states d key health now))
    ++ snd (cycles (fst (checkAndGenerateAlerts states d key health now))
              d key rest).
Proof.
  simpl. destruct (checkAndGenerateAlerts states d key health now).
  simpl. now destruct (cycles _ d key rest).
Qed.

(** C6.  For a monitored open signal (stored, with a non-zero entry
    price) whose alert state holds a peak: a health-check cycle stores the
    maximum of the previous peak and the current profit, which is not below
    the previous peak, and after any sequence of cycles the stored peak is
    not below the one at the start. *)
Theorem peakProfit_never_decreases (states : gmap Z LastAlertState)
    (d : Db) (key : Z) (signal : Signal) (last : LastAlertState) :
  getSignalById d key = Some signal ->
  ~ (entryPrice signal == 0)%Q ->
  states !! key = Some last ->
  (forall health now,
     exists next,
       fst (checkAndGenerateAlerts states d key health now) !! key
         = Some next
       /\ (peakProfit next
           == Js.max (peakProfit last)
                (profitPercentOf signal (h_currentPrice health)))%Q
       /\ (peakProfit last <= peakProfit next)%Q)
  /\ (forall inputs,
        exists final,
          fst (cycles states d key inputs) !! key = Some final
          /\ (peakProfit last <= peakProfit final)%Q).
Proof.
  intros Hsig Hentry Hlast.
  assert (Hstep : forall (st : gmap Z LastAlertState) l health now,
            st !! key = Some l ->
            exists next,
              fst (checkAndGenerateAlerts st d key health now) !! key
                = Some next
              /\ (peakProfit next
                  == Js.max (peakProfit l)
                       (profitPercentOf signal (h_currentPrice health)))%Q
              /\ (peakProfit l <= peakProfit next)%Q).
  { intros st l health now Hl.
    destruct (checkAndGenerateAlerts_state st d key health now signal Hsig)
      as (next & Hnext & _ & _ & _ & _ & _ & Hpeak & _).
    exists next. split; [exact Hnext|]. rewrite Hpeak, Hl.
    split; [apply trackedPeak_max|apply trackedPeak_ge]. }
  split; [intros health now; now apply Hstep|].
  intros inputs. revert states last Hlast.
  induction inputs as [|[health now] rest IH]; intros states last Hlast.
  - exists last. split; [exact Hlast|apply Qle_refl].
  - rewrite cycles_cons_fst.
    destruct (Hstep states last health now Hlast) as (next & Hnext & _ & Hle).
    destruct (IH _ next Hnext) as (final & Hfinal & Hle').
    exists final. split; [exact Hfinal|]. eapply Qle_trans; eassumption.
Qed.

Lemma peakProfit_never_decreases_witness :
  getSignalById Examples.storedOpenBuy 1 = Some Examples.openBuy
  /\ ~ (entryPrice Examples.openBuy == 0)%Q
  /\ exists last final,
       fst Examples.atPeak !! 1 = Some last
       /\ fst (cycles (fst Examples.atPeak) Examples.storedOpenBuy 1
                 [(Examples.healthAt 104 Status.STRONG 80, 1060000)]) !! 1
          = Some final
       /\ (peakProfit last <= peakProfit final)%Q.
Proof.
  assert (Hsig : getSignalById Examples.storedOpenBuy 1
                 = Some Examples.openBuy) by reflexivity.
  assert (Hentry : ~ (entryPrice Examples.openBuy == 0)%Q)
    by (intros H; vm_compute in H; discriminate H).
  split; [exact Hsig|]. split; [exact Hentry|].
  destruct (checkAndGenerateAlerts_state ∅ Examples.storedOpenBuy 1
              (Examples.healthAt 106 Status.STRONG 80) 1000000
              Examples.openBuy Hsig) as (last & Hlast & _).
  fold Examples.atPeak in Hlast.
  destruct (proj2 (peakProfit_never_decreases (fst Examples.atPeak)
                     Examples.storedOpenBuy 1 Examples.openBuy last
                     Hsig Hentry Hlast)
              [(Examples.healthAt 104 Status.STRONG 80, 1060000)])
    as (final & Hfinal & Hle).
  exists last, final. split; [exact Hlast|]. split; [exact Hfinal|exact Hle].
Defined.

(** A cycle on one signal leaves the alert state of the others alone. *)
Lemma other_signals_untouched (states : gmap Z LastAlertState) (d : Db)
    (key other : Z) (health : SignalHealthStatus) (now : Z) :
  key <> other ->
  fst (checkAndGenerateAlerts states d key health now) !! other
  = states !! other.
Proof.
  intros Hne. unfold checkAndGenerateAlerts.
  destruct (getSignalById d key); [|reflexivity].
  destruct (negb _ && throttled _ _).
  - simpl. unfold updateSignalStateOnly. now rewrite lookup_insert_ne.
  - destruct (selectAlert _ _ _ _ _ _ _); simpl;
      unfold updateSignalStateOnly; now rewrite lookup_insert_ne.
Qed.

(** *** Throttling *)

Lemma selectAlert_timestamp (key : Z) (signal : Signal)
    (health : SignalHealthStatus) (last : option LastAlertState)
    (profit peak : Q) (now : Z) (alert : TacticalAlert) :
  selectAlert key signal health last profit peak now = Some alert ->
  timestamp alert = now /\ signalId alert = key.
Proof.
  unfold selectAlert. intros H.
  repeat match type of H with
         | context [if ?b then _ else _] => destruct b
         end; inversion H; now subst.
Qed.

Lemma selectAlert_not_invalidated (key : Z) (signal : Signal)
    (health : SignalHealthStatus) (last : option LastAlertState)
    (profit peak : Q) (now : Z) (alert : TacticalAlert) :
  selectAlert key signal health last profit peak now = Some alert ->
  alertType alert <> AlertType.INVALIDATED ->
  Status.eqb (h_status health) Status.INVALIDATED = false.
Proof.
  unfold selectAlert. intros H Htype.
  destruct (isSignalInvalidated profit health) eqn:Einv.
  - inversion H. subst alert. now contradiction Htype.
  - unfold isSignalInvalidated in Einv.
    now apply orb_false_iff in Einv as [_ ?].
Qed.

Lemma selectAlert_invalidated (key : Z) (signal : Signal)
    (health : SignalHealthStatus) (last : option LastAlertState)
    (profit peak : Q) (now : Z) :
  h_status health = Status.INVALIDATED ->
  selectAlert key signal health last profit peak now
  = Some {| signalId := key;
            alertType := AlertType.INVALIDATED;
            quotedStop := None;
            action := CLOSE_MANUAL;
            urgency := URGENCY_HIGH;
            timestamp := now |}.
Proof.
  intros Hst. unfold selectAlert, isSignalInvalidated. rewrite Hst. simpl.
  now rewrite !orb_true_r.
Qed.

Lemma alert_sets_time (states : gmap Z LastAlertState) (d : Db) (key : Z)
    (health : SignalHealthStatus) (now : Z) (alert : TacticalAlert) :
  snd (checkAndGenerateAlerts states d key health now) = Some alert ->
  timestamp alert = now
  /\ lastTelegramOf (fst (checkAndGenerateAlerts states d key health now)) key
     = Some now.
Proof.
  unfold checkAndGenerateAlerts, lastTelegramOf.
  destruct (getSignalById d key) as [signal|]; [|discriminate].
  destruct (negb _ && throttled _ _); [discriminate|].
  destruct (selectAlert _ _ _ _ _ _ _) as [a|] eqn:Esel; [|discriminate].
  simpl. intros [= <-]. rewrite lookup_insert_eq. simpl.
  split; [|reflexivity]. now apply selectAlert_timestamp in Esel.
Qed.

Lemma alert_respects_throttle (states : gmap Z LastAlertState) (d : Db)
    (key : Z) (health : SignalHealthStatus) (now : Z)
    (alert : TacticalAlert) (t : Z) :
  snd (checkAndGenerateAlerts states d key health now) = Some alert ->
  alertType alert <> AlertType.INVALIDATED ->
  lastTelegramOf states key = Some t ->
  t + TELEGRAM_THROTTLE_INTERVAL <= now.
Proof.
  unfold checkAndGenerateAlerts, lastTelegramOf.
  destruct (getSignalById d key) as [signal|]; [|discriminate].
  destruct (negb _ && throttled _ _) eqn:Ethr; [discriminate|].
  destruct (selectAlert _ _ _ _ _ _ _) as [a|] eqn:Esel; [|discriminate].
  simpl. intros [= <-] Htype Ht.
  apply selectAlert_not_invalidated in Esel; [|exact Htype].
  rewrite Esel in Ethr. simpl in Ethr.
  unfold throttled in Ethr. rewrite Ht in Ethr.
  apply Z.ltb_ge in Ethr. lia.
Qed.

Lemma silent_keeps_time (states : gmap Z LastAlertState) (d : Db) (key : Z)
    (health : SignalHealthStatus) (now : Z) :
  snd (checkAndGenerateAlerts states d key health now) = None ->
  lastTelegramOf (fst (checkAndGenerateAlerts states d key health now)) key
  = lastTelegramOf states key.
Proof.
  unfold checkAndGenerateAlerts, lastTelegramOf.
  destruct (getSignalById d key) as [signal|]; [|reflexivity].
  destruct (negb _ && throttled _ _).
  - intros _. simpl. unfold updateSignalStateOnly.
    now rewrite lookup_insert_eq.
  - destruct (selectAlert _ _ _ _ _ _ _); [discriminate|].
    intros _. simpl. unfold updateSignalStateOnly.
    now rewrite lookup_insert_eq.
Qed.

(** Alerts of a run of cycles at non-decreasing times: each carries the
    time of its cycle, and an alert that is not INVALIDATED comes a full
    throttle interval after the alert before it, and after the last alert
    recorded in the state the run starts from. *)
Lemma cycles_spacing (d : Db) (key : Z)
    (inputs : list (SignalHealthStatus * Z)) :
  forall states : gmap Z LastAlertState,
  StronglySorted Z.le (snd <$> inputs) ->
  (forall b, b ∈ snd (cycles states d key inputs) ->
     timestamp b ∈ snd <$> inputs)
  /\ (forall b t,
        b ∈ snd (cycles states d key inputs) ->
        alertType b <> AlertType.INVALIDATED ->
        lastTelegramOf states key = Some t ->
        (forall now, now ∈ snd <$> inputs -> t <= now) ->
        t + TELEGRAM_THROTTLE_INTERVAL <= timestamp b)
  /\ (forall (i j : nat) a b,
        (i < j)%nat ->
        snd (cycles states d key inputs) !! i = Some a ->
        snd (cycles states d key inputs) !! j = Some b ->
        alertType b <> AlertType.INVALIDATED ->
        timestamp a + TELEGRAM_THROTTLE_INTERVAL <= timestamp b).
Proof.
  induction inputs as [|[health now] rest IH]; intros states Hsorted.
  - simpl. split; [|split].
    + intros b Hb. now apply elem_of_nil in Hb.
    + intros b t Hb. now apply elem_of_nil in Hb.
    + intros i j a b _ Ha. now rewrite lookup_nil in Ha.
  - rewrite fmap_cons in Hsorted. simpl in Hsorted.
    apply StronglySorted_inv in Hsorted as [Hsorted Hfirst].
    rewrite Forall_forall in Hfirst.
    rewrite cycles_cons_snd.
    set (step := checkAndGenerateAlerts states d key health now) in *.
    destruct (IH (fst step) Hsorted) as (IHtime & IHlast & IHpair).
    destruct (snd step) as [a0|] eqn:Estep; simpl.
    + destruct (alert_sets_time states d key health now a0 Estep)
        as [Hts Hset]. fold step in Hset.
      assert (Hafter : forall b,
                b ∈ snd (cycles (fst step) d key rest) ->
                alertType b <> AlertType.INVALIDATED ->
                now + TELEGRAM_THROTTLE_INTERVAL <= timestamp b).
      { intros b Hb Htype. apply (IHlast b now Hb Htype Hset).
        intros now' Hnow'. apply Hfirst, Hnow'. }
      split; [|split].
      * intros b Hb. apply elem_of_cons in Hb as [->|Hb].
        -- rewrite Hts. left.
        -- right. now apply IHtime.
      * intros b t Hb Htype Ht Hle. apply elem_of_cons in Hb as [->|Hb].
        -- rewrite Hts.
           now apply (alert_respects_throttle states d key health now a0 t).
        -- specialize (Hafter b Hb Htype).
           assert (t <= now) by (apply Hle; left). lia.
      * intros i j a b Hij Ha Hb Htype.
        destruct j as [|j]; [lia|]. simpl in Hb.
        destruct i as [|i]; simpl in Ha.
        -- injection Ha as <-. rewrite Hts.
           apply Hafter; [|exact Htype].
           eapply list_elem_of_lookup_2, Hb.
        -- apply (IHpair i j a b); [lia|assumption..].
    + pose proof (silent_keeps_time states d key health now Estep) as Hkeep.
      fold step in Hkeep.
      split; [|split].
      * intros b Hb. right. now apply IHtime.
      * intros b t Hb Htype Ht Hle.
        apply (IHlast b t Hb Htype); [now rewrite Hkeep|].
        intros now' Hnow'. apply Hle. now right.
      * exact IHpair.
Qed.

(** C7.  Over health-check cycles at non-decreasing times on a stored
    signal: two alerts that are not INVALIDATED are at least the throttle
    interval (5 minutes) apart; a health status of INVALIDATED always sends
    an INVALIDATED alert, at once and at high urgency, whatever the time of
    the last alert; and a cycle that sends nothing still stores the new
    status, health score, profit, peak and price for the signal, and keeps
    the time of the last alert. *)
Theorem alerts_throttled_except_invalidated (states : gmap Z LastAlertState)
    (d : Db) (key : Z) (signal : Signal)
    (inputs : list (SignalHealthStatus * Z)) :
  getSignalById d key = Some signal ->
  ~ (entryPrice signal == 0)%Q ->
  Sorted Z.le (snd <$> inputs) ->
  (forall (i j : nat) a b,
     (i < j)%nat ->
     snd (cycles states d key inputs) !! i = Some a ->
     snd (cycles states d key inputs) !! j = Some b ->
     alertType a <> AlertType.INVALIDATED ->
     alertType b <> AlertType.INVALIDATED ->
     timestamp a + 5 * 60 * 1000 <= timestamp b)
  /\ (forall health now,
        h_status health = Status.INVALIDATED ->
        exists alert,
          snd (checkAndGenerateAlerts states d key health now) = Some alert
          /\ alertType alert = AlertType.INVALIDATED
          /\ urgency alert = URGENCY_HIGH
          /\ timestamp alert = now)
  /\ (forall health now,
        snd (checkAndGenerateAlerts states d key health now) = None ->
        exists next,
          fst (checkAndGenerateAlerts states d key health now) !! key
            = Some next
          /\ status next = h_status health
          /\ healthScore next = h_healthScore health
          /\ unrealizedPnL next = h_unrealizedPnL health
          /\ lastPrice next = h_currentPrice health
          /\ peakProfit next
             = trackedPeak (states !! key)
                 (profitPercentOf signal (h_currentPrice health))
          /\ lastTelegramAlert next = lastTelegramOf states key).
Proof.
  intros Hsig Hentry Hsorted. split; [|split].
  - intros i j a b Hij Ha Hb _ Htype.
    apply Sorted_StronglySorted in Hsorted; [|intros x y z; apply Z.le_trans].
    destruct (cycles_spacing d key inputs states Hsorted) as (_ & _ & Hpair).
    now apply (Hpair i j a b).
  - intros health now Hst. unfold checkAndGenerateAlerts. rewrite Hsig.
    rewrite Hst. simpl.
    rewrite (selectAlert_invalidated key signal health) by exact Hst.
    simpl. eexists. split; [reflexivity|]. repeat split.
  - intros health now Hnone.
    destruct (checkAndGenerateAlerts_state states d key health now signal
                Hsig) as (next & Hnext & H1 & H2 & H3 & _ & H5 & H6 & H7).
    rewrite Hnone in H7. exists next. repeat split; assumption.
Qed.

Lemma alerts_throttled_except_invalidated_witness :
  getSignalById Examples.storedOpenBuy 1 = Some Examples.openBuy
  /\ ~ (entryPrice Examples.openBuy == 0)%Q
  /\ Sorted Z.le
       (snd <$> [(Examples.healthAt 106 Status.STRONG 80, 1000000);
                 (Examples.healthAt 104 Status.STRONG 80, 1060000)])
  /\ exists alert,
       snd (checkAndGenerateAlerts (fst Examples.afterRetrace)
              Examples.storedOpenBuy 1
              (Examples.healthAt 96 Status.INVALIDATED 10) 1120000)
         = Some alert
       /\ alertType alert = AlertType.INVALIDATED
       /\ urgency alert = URGENCY_HIGH
       /\ timestamp alert = 1120000.
Proof.
  assert (Hsig : getSignalById Examples.storedOpenBuy 1
                 = Some Examples.openBuy) by reflexivity.
  assert (Hentry : ~ (entryPrice Examples.openBuy == 0)%Q)
    by (intros H; vm_compute in H; discriminate H).
  assert (Hsorted : Sorted Z.le
            (snd <$> [(Examples.healthAt 106 Status.STRONG 80, 1000000);
                      (Examples.healthAt 104 Status.STRONG 80, 1060000)])).
  { repeat constructor. intros H. vm_compute in H. discriminate H. }
  split; [exact Hsig|]. split; [exact Hentry|]. split; [exact Hsorted|].
  exact (proj1 (proj2
    (alerts_throttled_except_invalidated (fst Examples.afterRetrace)
       Examples.storedOpenBuy 1 Examples.openBuy _ Hsig Hentry Hsorted))
    (Examples.healthAt 96 Status.INVALIDATED 10) 1120000 eq_refl).
Defined.

End Alerts.

(** ** Profit protection *)

Section ProfitProtection.
Import Schema Storage TacticalTradingAssistant.
Local Open Scope Q_scope.




End ProfitProtection.

(** ** Risk validation *)

Section RiskValidation.
Import Schema Storage RiskManagementService.
Local Open Scope Q_scope.

(** C8 as stated fails.  The service is configured with a minimum
    risk-reward ratio of 2.5; a candidate whose ratio is 2.2, below that
    minimum, with a loss of 1 percent and no drawdown, is returned valid,
    without a warning. *)
Lemma ratio_below_configured_minimum_is_valid :
  let v := validateSignalRisk initial (Examples.buyV10 100 80)
             (Examples.paramsWithRatio (22 # 10)) in
  riskRewardRatio (config initial) == 25 # 10
  /\ rp_riskRewardRatio (Examples.paramsWithRatio (22 # 10))
     < riskRewardRatio (config initial)
  /\ isValid v = true
  /\ warnings v = [].
Proof.
  cbv zeta. split; [reflexivity|]. split; [reflexivity|].
  split; vm_compute; reflexivity.
Qed.

(** C8, amended.  [validateSignalRisk] returns invalid exactly when the
    risk-reward ratio is below the fixed threshold 2 (whatever minimum is
    configured), when the maximum loss percentage exceeds 2, or when
    [shouldStopTrading] holds, and each of the three adds its warning.  A
    ratio of 1.8 is invalid with the risk-reward warning, also under the
    configured minimum of 2.5; and when the validation of a candidate
    fails, [createSignalWithConflictPrevention] returns [null] and leaves
    the repository as it was. *)
Theorem validateSignalRisk_rejections (rm : RiskManagement)
    (signal : InsertSignal) (riskParams : EnhancedRiskParams) (d : Db) :
  let v := validateSignalRisk rm signal riskParams in
  (isValid v = false <->
   rp_riskRewardRatio riskParams < 2
   \/ 2 < rp_maxLossPercentage riskParams
   \/ shouldStopTrading rm = true)
  /\ (rp_riskRewardRatio riskParams < 2 ->
      RiskRewardBelowMinimum (rp_riskRewardRatio riskParams) ∈ warnings v)
  /\ (2 < rp_maxLossPercentage riskParams ->
      RiskPerTradeExceedsMaximum (rp_maxLossPercentage riskParams)
      ∈ warnings v)
  /\ (shouldStopTrading rm = true -> MaximumDrawdownReached ∈ warnings v)
  /\ (rp_riskRewardRatio riskParams == 18 # 10 ->
      isValid v = false
      /\ RiskRewardBelowMinimum (rp_riskRewardRatio riskParams) ∈ warnings v)
  /\ (isValid
        (validateSignalRisk rm signal
           (calculateEnhancedRiskParams rm (ins_symbol signal)
              (ins_signalType signal) (ins_entryPrice signal)
              (ins_confidence signal) 1 10000)) = false ->
      SignalManager.createSignalWithConflictPrevention rm d signal
      = (d, None)).
Proof.
  cbv zeta.
  assert (Hrr : rp_riskRewardRatio riskParams < 2 ->
            RiskRewardBelowMinimum (rp_riskRewardRatio riskParams)
            ∈ warnings (validateSignalRisk rm signal riskParams)).
  { intros H. unfold validateSignalRisk. cbn [warnings].
    rewrite (proj2 (ltb_lt _ _) H). left. }
  assert (Hvalid : isValid (validateSignalRisk rm signal riskParams) = false
            <-> rp_riskRewardRatio riskParams < 2
                \/ 2 < rp_maxLossPercentage riskParams
                \/ shouldStopTrading rm = true).
  { unfold validateSignalRisk. cbn [isValid].
    rewrite !andb_false_iff, !negb_false_iff, !ltb_lt. tauto. }
  split; [exact Hvalid|]. split; [exact Hrr|]. split; [|split; [|split]].
  - intros H. unfold validateSignalRisk. cbn [warnings].
    rewrite (proj2 (ltb_lt _ _) H).
    apply elem_of_app. right. apply elem_of_app. left. left.
  - intros H. unfold validateSignalRisk. cbn [warnings]. rewrite H.
    do 4 (apply elem_of_app; right). left.
  - intros H. assert (Hlt : rp_riskRewardRatio riskParams < 2)
      by (rewrite H; reflexivity).
    split; [apply Hvalid; now left|now apply Hrr].
  - intros H. unfold SignalManager.createSignalWithConflictPrevention.
    now rewrite H.
Qed.

Lemma validateSignalRisk_rejections_witness :
  rp_riskRewardRatio (Examples.paramsWithRatio (18 # 10)) == 18 # 10
  /\ isValid (validateSignalRisk initial (Examples.buyV10 100 80)
               (Examples.paramsWithRatio (18 # 10))) = false
  /\ RiskRewardBelowMinimum (18 # 10)
     ∈ warnings (validateSignalRisk initial (Examples.buyV10 100 80)
                   (Examples.paramsWithRatio (18 # 10))).
Proof.
  assert (H : rp_riskRewardRatio (Examples.paramsWithRatio (18 # 10))
              == 18 # 10) by reflexivity.
  split; [exact H|].
  exact (proj1 (proj2 (proj2 (proj2 (proj2
    (validateSignalRisk_rejections initial (Examples.buyV10 100 80)
       (Examples.paramsWithRatio (18 # 10)) Examples.emptyDb))))) H).
Defined.

End RiskValidation.

(** ** Indicators *)

(** Case analysis on every comparison of the goal. *)
Ltac ltb_cases :=
  repeat match goal with
  | |- context [Js.ltb ?x ?y] =>
      let E := fresh "E" in
      destruct (Js.ltb x y) eqn:E;
      [apply ltb_lt in E | apply ltb_ge in E]
  end.

Section IndicatorFacts.
Import Schema Indicators.
Local Open Scope Q_scope.

Lemma fold_sum_acc (l : list Q) (a : Q) :
  fold_left Qplus l a == a + sum l.
Proof.
  unfold sum. revert a. induction l as [|x l IH]; intros a; simpl.
  - lra.
  - rewrite (IH (a + x)), (IH (0 + x)). lra.
Qed.

Lemma sum_cons (x : Q) (l : list Q) : sum (x :: l) == x + sum l.
Proof. unfold sum at 1. simpl. rewrite fold_sum_acc. lra. Qed.



Lemma sum_nonneg (l : list Q) : Forall (fun p => 0 <= p) l -> 0 <= sum l.
Proof.
  induction 1 as [|x l Hx _ IH].
  - unfold sum. simpl. lra.
  - rewrite sum_cons. lra.
Qed.

Lemma lastN_Forall (P : Q -> Prop) (n : nat) (l : list Q) :
  Forall P l -> Forall P (lastN n l).
Proof.
  intros H. unfold lastN. destruct (n =? 0)%nat; [exact H|].
  now apply Forall_drop.
Qed.


Lemma inject_nat_pos (n : nat) : (0 < n)%nat -> 0 < inject_Z (Z.of_nat n).
Proof.
  intros H. change 0 with (inject_Z 0). rewrite <- Zlt_Qlt. lia.
Qed.

Lemma div_pos (x y : Q) : 0 < y -> Js.div x y = Some (x / y).
Proof.
  intros H. unfold Js.div, Js.eqb.
  destruct (Qeq_bool y 0) eqn:E; [|reflexivity].
  apply Qeq_bool_iff in E. lra.
Qed.









(** The signal line is a fixed 0.8 of the MACD value, so the histogram
    is a fifth of it and the crossover tests of the scoring reduce to the
    sign of the MACD value: an analysis fed from [calculateMACD] scores
    bullish exactly when the fast average is above the slow one and
    bearish exactly when it is below. *)
Theorem macd_crossover_is_sign_of_macd
    (prices : list Q) (fast slow : nat) (m : Macd)
    (a : TechnicalAnalysisService.Analysis)
    (s : TechnicalAnalysisService.Scores) :
  calculateMACD prices fast slow = Some m ->
  TechnicalAnalysisService.macd a = macd m ->
  TechnicalAnalysisService.macdSignalLine a = signal m ->
  histogram m == macd m * (2 # 10)
  /\ TechnicalAnalysisService.scoreMacd a s =
     if Js.ltb 0 (macd m)
     then TechnicalAnalysisService.bullish 20 ["MACD bullish crossover"] s
     else if Js.ltb (macd m) 0
     then TechnicalAnalysisService.bearish 20 ["MACD bearish crossover"] s
     else s.
Proof.
  intros Hm Ha Hs. unfold calculateMACD in Hm.
  destruct (calculateEMA prices fast) as [f|]; [|discriminate].
  destruct (calculateEMA prices slow) as [w|]; [|discriminate].
  injection Hm as <-. simpl in *. split; [lra|].
  unfold TechnicalAnalysisService.scoreMacd. rewrite Ha, Hs.
  set (d := f - w).
  destruct (Js.ltb 0 d) eqn:E1.
  - apply ltb_lt in E1.
    assert (Js.ltb (d * (8 # 10)) d = true) as -> by (apply ltb_lt; lra).
    assert (Js.ltb 0 (d - d * (8 # 10)) = true) as ->
      by (apply ltb_lt; lra).
    reflexivity.
  - apply ltb_ge in E1.
    assert (Js.ltb (d * (8 # 10)) d = false) as -> by (apply ltb_ge; lra).
    simpl. destruct (Js.ltb d 0) eqn:E2.
    + apply ltb_lt in E2.
      assert (Js.ltb d (d * (8 # 10)) = true) as -> by (apply ltb_lt; lra).
      assert (Js.ltb (d - d * (8 # 10)) 0 = true) as ->
        by (apply ltb_lt; lra).
      reflexivity.
    + apply ltb_ge in E2.
      assert (Js.ltb d (d * (8 # 10)) = false) as ->
        by (apply ltb_ge; lra).
      reflexivity.
Qed.

Lemma gain_nonneg (c : Q) : 0 <= gain c.
Proof.
  unfold gain. destruct (Js.ltb 0 c) eqn:E; [|lra].
  apply ltb_lt in E. lra.
Qed.

Lemma loss_nonneg (c : Q) : 0 <= loss c.
Proof.
  unfold loss. destruct (Js.ltb c 0); [apply Qabs_nonneg|lra].
Qed.

Lemma loss_rising (c : Q) : 0 <= c -> loss c = 0.
Proof.
  intros H. unfold loss. destruct (Js.ltb c 0) eqn:E; [|reflexivity].
  apply ltb_lt in E. lra.
Qed.

Lemma sum_zero (l : list Q) : Forall (fun p => p = 0) l -> sum l == 0.
Proof.
  induction 1 as [|x l Hx _ IH].
  - reflexivity.
  - rewrite sum_cons, IH, Hx. lra.
Qed.

(** The RSI is a number between 0 and 100 for every positive period; it
    is 50 on a series of at most [period] prices, and 100 on a longer
    series that never falls, a flat one included, which the scoring
    counts as extremely overbought. *)
Theorem calculateRSI_range (prices : list Q) (period : nat) :
  (0 < period)%nat ->
  (exists r, calculateRSI prices period = Some r /\ 0 <= r <= 100)
  /\ ((length prices <= period)%nat -> calculateRSI prices period = Some 50)
  /\ ((period < length prices)%nat ->
      Forall (fun change => 0 <= change) (changes prices) ->
      calculateRSI prices period = Some 100
      /\ forall a s,
           TechnicalAnalysisService.rsi a = 100 ->
           TechnicalAnalysisService.scoreRsi a s =
           TechnicalAnalysisService.bearish 25 ["RSI extremely overbought"]
             s).
Proof.
  intros Hp.
  assert (Hn : 0 < inject_Z (Z.of_nat period)) by now apply inject_nat_pos.
  split; [|split].
  - unfold calculateRSI.
    destruct (length prices <? period + 1)%nat.
    { exists 50. split; [reflexivity|lra]. }
    rewrite !div_pos by exact Hn.
    set (g := sum (lastN period (map gain (changes prices)))).
    set (l := sum (lastN period (map loss (changes prices)))).
    assert (Hg : 0 <= g).
    { apply sum_nonneg, lastN_Forall, Forall_forall.
      intros x Hx. apply list_elem_of_In, in_map_iff in Hx.
      destruct Hx as (c & <- & _). apply gain_nonneg. }
    assert (Hl : 0 <= l).
    { apply sum_nonneg, lastN_Forall, Forall_forall.
      intros x Hx. apply list_elem_of_In, in_map_iff in Hx.
      destruct Hx as (c & <- & _). apply loss_nonneg. }
    destruct (Js.eqb (l / inject_Z (Z.of_nat period)) 0) eqn:E.
    { exists 100. split; [reflexivity|lra]. }
    eexists. split; [reflexivity|].
    assert (Hl' : 0 < l / inject_Z (Z.of_nat period)).
    { assert (0 <= l / inject_Z (Z.of_nat period))
        by (apply Qle_shift_div_l; lra).
      destruct (Qeq_dec (l / inject_Z (Z.of_nat period)) 0) as [E0|E0].
      - apply Qeq_bool_iff in E0. unfold Js.eqb in E. congruence.
      - lra. }
    assert (Hg' : 0 <= g / inject_Z (Z.of_nat period))
      by (apply Qle_shift_div_l; lra).
    set (al := l / inject_Z (Z.of_nat period)) in *.
    set (ag := g / inject_Z (Z.of_nat period)) in *.
    assert (Hrs : 0 <= ag / al) by (apply Qle_shift_div_l; lra).
    assert (H1 : 0 <= 100 / (1 + ag / al))
      by (apply Qle_shift_div_l; lra).
    assert (H2 : 100 / (1 + ag / al) <= 100)
      by (apply Qle_shift_div_r; lra).
    lra.
  - intros Hl. unfold calculateRSI.
    destruct (Nat.ltb_spec (length prices) (period + 1)); [reflexivity|lia].
  - intros Hl Hrise. split.
    + unfold calculateRSI.
      destruct (Nat.ltb_spec (length prices) (period + 1)); [lia|].
      rewrite !div_pos by exact Hn.
      assert (Hz : sum (lastN period (map loss (changes prices))) == 0).
      { apply sum_zero, lastN_Forall, Forall_forall.
        intros x Hx. apply list_elem_of_In, in_map_iff in Hx.
        destruct Hx as (c & <- & Hc). apply loss_rising.
        rewrite Forall_forall in Hrise. apply Hrise.
        now apply list_elem_of_In. }
      assert (Js.eqb
                (sum (lastN period (map loss (changes prices)))
                 / inject_Z (Z.of_nat period)) 0 = true) as ->.
      { apply Qeq_bool_iff. rewrite Hz. field. lra. }
      reflexivity.
    + intros a s Ha. unfold TechnicalAnalysisService.scoreRsi.
      rewrite Ha. reflexivity.
Qed.

Lemma calculateRSI_range_witness :
  (0 < 2)%nat
  /\ exists r, calculateRSI [10; 12; 11; 13] 2 = Some r /\ 0 <= r <= 100.
Proof.
  split; [lia|].
  exact (proj1 (calculateRSI_range [10; 12; 11; 13] 2 ltac:(lia))).
Defined.

Lemma max_case (x y : Q) :
  (Js.max x y = x /\ y <= x) \/ (Js.max x y = y /\ x <= y).
Proof.
  unfold Js.max. destruct (Js.leb x y) eqn:E.
  - right. split; [reflexivity|]. now apply leb_le.
  - left. split; [reflexivity|]. apply leb_gt in E. lra.
Qed.

Lemma min_case (x y : Q) :
  (Js.min x y = x /\ x <= y) \/ (Js.min x y = y /\ y <= x).
Proof.
  unfold Js.min. destruct (Js.leb x y) eqn:E.
  - left. split; [reflexivity|]. now apply leb_le.
  - right. split; [reflexivity|]. apply leb_gt in E. lra.
Qed.

Lemma abs_case (x : Q) :
  (Js.abs x == x /\ 0 <= x) \/ (Js.abs x == - x /\ x <= 0).
Proof.
  unfold Js.abs. destruct (Qlt_le_dec x 0) as [H|H].
  - right. split; [apply Qabs_neg|]; lra.
  - left. split; [now apply Qabs_pos|exact H].
Qed.

Lemma trueRange_step (previous current : Q) :
  Js.max
    (Js.max (Js.max current previous - Js.min current previous)
            (Js.abs (Js.max current previous - previous)))
    (Js.abs (Js.min current previous - previous))
  == Js.abs (current - previous).
Proof.
  destruct (abs_case (current - previous)) as [[-> Ha]|[-> Ha]];
  destruct (max_case current previous) as [[-> H1]|[-> H1]];
  destruct (min_case current previous) as [[-> H2]|[-> H2]];
  match goal with
  | |- Js.max (Js.max ?a (Js.abs ?b)) (Js.abs ?c) == _ =>
      destruct (abs_case b) as [[Eb Hb]|[Eb Hb]];
      destruct (abs_case c) as [[Ec Hc]|[Ec Hc]];
      destruct (max_case a (Js.abs b)) as [[-> H3]|[-> H3]];
      match goal with
      | |- Js.max ?u ?v == _ =>
          destruct (max_case u v) as [[-> H4]|[-> H4]]
      end
  end; lra.
Qed.

Lemma adxStep_sums (previous current : Q) (acc : AdxSums) :
  let r := adxStep previous current acc in
  plusDM r - minusDM r == plusDM acc - minusDM acc + (current - previous)
  /\ plusDM r + minusDM r
     == plusDM acc + minusDM acc + Js.abs (current - previous)
  /\ trueRange r == trueRange acc + Js.abs (current - previous)
  /\ (0 <= plusDM acc -> 0 <= plusDM r)
  /\ (0 <= minusDM acc -> 0 <= minusDM r).
Proof.
  unfold adxStep. cbv zeta. cbn [plusDM minusDM trueRange].
  rewrite trueRange_step.
  destruct (abs_case (current - previous)) as [[-> Ha]|[-> Ha]];
  destruct (max_case current previous) as [[-> H1]|[-> H1]];
  destruct (min_case current previous) as [[-> H2]|[-> H2]];
  ltb_cases; cbn [andb]; repeat split; lra.
Qed.

Lemma adxLoop_sums (prices : list Q) (acc : AdxSums) :
  let r := adxLoop prices acc in
  plusDM r - minusDM r
  == plusDM acc - minusDM acc
     + (List.last prices 0 - List.hd 0 prices)
  /\ plusDM r + minusDM r
     == plusDM acc + minusDM acc + sum (map Js.abs (changes prices))
  /\ trueRange r == trueRange acc + sum (map Js.abs (changes prices))
  /\ (0 <= plusDM acc -> 0 <= minusDM acc ->
      0 <= plusDM r /\ 0 <= minusDM r).
Proof.
  revert acc. induction prices as [|previous rest IH]; intros acc.
  - simpl. unfold sum. simpl. repeat split; try lra; tauto.
  - destruct rest as [|current rest].
    + simpl. unfold sum. simpl. repeat split; try lra; tauto.
    + specialize (IH (adxStep previous current acc)).
      destruct (adxStep_sums previous current acc)
        as (S1 & S2 & S3 & S4 & S5).
      destruct IH as (I1 & I2 & I3 & I4).
      change (adxLoop (previous :: current :: rest) acc)
        with (adxLoop (current :: rest) (adxStep previous current acc)).
      change (changes (previous :: current :: rest))
        with ((current - previous) :: changes (current :: rest)).
      change (List.last (previous :: current :: rest) 0)
        with (List.last (current :: rest) 0).
      cbv zeta in *. rewrite map_cons, sum_cons.
      change (hd 0 (previous :: current :: rest)) with previous.
      change (hd 0 (current :: rest)) with current in I1.
      repeat split; lra.
Qed.

(** The trend strength of [calculateADX] is the net move of the series
    as a percentage of the distance it travelled: on more than [period]
    prices that are not all equal it is
    [100 * |last - first| / sum |changes|], a number between 0 and 100;
    on a flat series it is not a number. *)
Theorem calculateADX_net_move_over_path (prices : list Q) (period : nat) :
  (0 < period)%nat -> (period < length prices)%nat ->
  let path := sum (map Js.abs (changes prices)) in
  (path == 0 -> calculateADX prices period = None)
  /\ (~ path == 0 ->
      exists adx,
        calculateADX prices period = Some adx
        /\ adx == 100 * Js.abs (List.last prices 0 - List.hd 0 prices) / path
        /\ 0 <= adx <= 100).
Proof.
  intros Hp Hl path.
  assert (Hn : 0 < inject_Z (Z.of_nat period)) by now apply inject_nat_pos.
  destruct (adxLoop_sums prices
              {| plusDM := 0; minusDM := 0; trueRange := 0 |})
    as (S1 & S2 & S3 & S4).
  cbv zeta in *. simpl plusDM in *. simpl minusDM in *.
  simpl trueRange in *. fold path in S2, S3.
  destruct S4 as [Hplus Hminus]; [lra|lra|].
  assert (S1' : plusDM (adxLoop prices
                          {| plusDM := 0; minusDM := 0; trueRange := 0 |})
                - minusDM (adxLoop prices
                             {| plusDM := 0; minusDM := 0; trueRange := 0 |})
                == List.last prices 0 - hd 0 prices) by lra.
  assert (S2' : plusDM (adxLoop prices
                          {| plusDM := 0; minusDM := 0; trueRange := 0 |})
                + minusDM (adxLoop prices
                             {| plusDM := 0; minusDM := 0; trueRange := 0 |})
                == path) by lra.
  assert (S3' : trueRange (adxLoop prices
                             {| plusDM := 0; minusDM := 0; trueRange := 0 |})
                == path) by lra.
  clear S1 S2 S3.
  unfold calculateADX.
  destruct (Nat.ltb_spec (length prices) (period + 1)) as [E|_]; [lia|].
  rewrite !div_pos by exact Hn.
  set (r := adxLoop prices _) in *.
  set (p := inject_Z (Z.of_nat period)) in *.
  split.
  - intros Hz.
    assert (Js.div (plusDM r / p) (trueRange r / p) = None) as ->.
    { unfold Js.div.
      assert (Js.eqb (trueRange r / p) 0 = true) as ->; [|reflexivity].
      apply Qeq_bool_iff. rewrite S3', Hz. field. lra. }
    reflexivity.
  - intros Hnz.
    assert (Hpath : 0 < path) by lra.
    assert (Htr : 0 < trueRange r / p).
    { apply Qlt_shift_div_l; lra. }
    rewrite !div_pos by exact Htr.
    assert (Hsum : plusDM r / p / (trueRange r / p) * 100
                   + minusDM r / p / (trueRange r / p) * 100 == 100).
    { assert (E : plusDM r / p / (trueRange r / p) * 100
                  + minusDM r / p / (trueRange r / p) * 100
                  == (plusDM r + minusDM r) / trueRange r * 100)
        by (field; split; lra).
      rewrite E, S2', S3'. field. lra. }
    rewrite div_pos by lra. cbn [option_map].
    eexists. split; [reflexivity|].
    assert (Hdiff : plusDM r / p / (trueRange r / p) * 100
                    - minusDM r / p / (trueRange r / p) * 100
                    == (plusDM r - minusDM r) * (100 / path)).
    { assert (E : plusDM r / p / (trueRange r / p) * 100
                  - minusDM r / p / (trueRange r / p) * 100
                  == (plusDM r - minusDM r) * (100 / trueRange r))
        by (field; split; lra).
      rewrite E, S3'. reflexivity. }
    assert (Hk : 0 < 100 / path) by (apply Qlt_shift_div_l; lra).
    unfold Js.abs in *.
    assert (Hnet : Qabs (List.last prices 0 - hd 0 prices) <= path).
    { rewrite <- S1'. apply Qabs_Qle_condition. lra. }
    rewrite Hsum, Hdiff, S1', Qabs_Qmult, (Qabs_pos (100 / path)) by lra.
    set (net := Qabs (List.last prices 0 - hd 0 prices)) in *.
    assert (Hnet0 : 0 <= net) by apply Qabs_nonneg.
    assert (Hq : net * (100 / path) / 100 * 100 == 100 * net / path)
      by (field; lra).
    rewrite Hq. split; [reflexivity|]. split.
    + apply Qle_shift_div_l; lra.
    + apply Qle_shift_div_r; lra.
Qed.

Lemma calculateADX_net_move_over_path_witness :
  (0 < 2)%nat /\ (2 < length [10; 12; 11])%nat
  /\ (~ sum (map Js.abs (changes [10; 12; 11])) == 0 ->
      exists adx,
        calculateADX [10; 12; 11] 2 = Some adx
        /\ adx == 100 * Js.abs (List.last [10; 12; 11] 0
                                - List.hd 0 [10; 12; 11])
                  / sum (map Js.abs (changes [10; 12; 11]))
        /\ 0 <= adx <= 100).
Proof.
  split; [lia|]. split; [simpl; lia|].
  exact (proj2 (calculateADX_net_move_over_path [10; 12; 11] 2
                  ltac:(lia) ltac:(simpl; lia))).
Defined.

(** The market regime never recommends scalping, whatever the trend
    strength, NaN included: a trending market gets BREAKOUT or PULLBACK
    and a ranging one REVERSAL.  So the bonus for a strong trend and the
    bonus for a reversal in a ranging market never both apply to one
    analysis taken from [detectMarketRegime]. *)
Theorem market_regime_never_scalp
    (prices : list Q) (a : TechnicalAnalysisService.Analysis)
    (signalType : SignalType) :
  let regime := detectMarketRegime prices in
  TechnicalAnalysisService.regimeType a = mr_type regime ->
  TechnicalAnalysisService.recommendedStrategy a
  = mr_recommendedStrategy regime ->
  mr_recommendedStrategy regime <> TechnicalAnalysisService.SCALP_STRATEGY
  /\ (mr_recommendedStrategy regime = TechnicalAnalysisService.REVERSAL
      <-> mr_type regime = TechnicalAnalysisService.RANGING)
  /\ (TechnicalAnalysisService.trendBonus a = 0%Z
      \/ TechnicalAnalysisService.reversalBonus a signalType = 0%Z).
Proof.
  intros regime Ht Hs. subst regime.
  unfold TechnicalAnalysisService.trendBonus,
    TechnicalAnalysisService.reversalBonus.
  rewrite Ht, Hs. clear Ht Hs.
  unfold detectMarketRegime, regimeOf. simpl.
  destruct (calculateADX prices 14) as [adx|]; simpl.
  - destruct (Js.ltb 25 adx) eqn:E25; simpl.
    + apply ltb_lt in E25.
      assert (Js.ltb 20 adx = true) as -> by (apply ltb_lt; lra).
      destruct (Js.ltb 30 adx); simpl;
        (split; [discriminate|]; split; [split; discriminate|]);
        right; reflexivity.
    + split; [discriminate|]. split; [tauto|]. left. reflexivity.
  - split; [discriminate|]. split; [tauto|]. left. reflexivity.
Qed.

Lemma market_regime_never_scalp_witness :
  let regime := detectMarketRegime MoreExamples.rising in
  TechnicalAnalysisService.regimeType Examples.oversold = mr_type regime
  /\ TechnicalAnalysisService.recommendedStrategy Examples.oversold
     = mr_recommendedStrategy regime
  /\ mr_recommendedStrategy regime
     <> TechnicalAnalysisService.SCALP_STRATEGY.
Proof.
  assert (H1 : TechnicalAnalysisService.regimeType Examples.oversold
               = mr_type (detectMarketRegime MoreExamples.rising))
    by (vm_compute; reflexivity).
  assert (H2 : TechnicalAnalysisService.recommendedStrategy
                 Examples.oversold
               = mr_recommendedStrategy
                   (detectMarketRegime MoreExamples.rising))
    by (vm_compute; reflexivity).
  split; [exact H1|]. split; [exact H2|].
  exact (proj1 (market_regime_never_scalp MoreExamples.rising Examples.oversold
                  BUY H1 H2)).
Defined.

End IndicatorFacts.

(** ** Levels and thresholds of the technical signal *)

Section TechnicalLevels.
Import Schema TechnicalAnalysisService.
Local Open Scope Q_scope.

Lemma roundTo_close (scale : positive) (x : Q) :
  x - 1 / inject_Z (Zpos (2 * scale)) < Js.roundTo scale x
  /\ Js.roundTo scale x <= x + 1 / inject_Z (Zpos (2 * scale)).
Proof.
  unfold Js.roundTo, Js.round.
  set (s := inject_Z (Zpos scale)).
  assert (Hs : 0 < s) by reflexivity.
  assert (H2 : inject_Z (Zpos (2 * scale)) == 2 * s).
  { unfold s. rewrite Pos2Z.inj_mul, inject_Z_mult. reflexivity. }
  rewrite H2.
  pose proof (Qfloor_le (x * s + (1 # 2))) as Hle.
  pose proof (Qlt_floor (x * s + (1 # 2))) as Hlt.
  rewrite inject_Z_plus in Hlt. change (inject_Z 1) with 1 in Hlt.
  set (f := inject_Z (Qfloor (x * s + (1 # 2)))) in *.
  assert (E : 1 / (2 * s) == (1 # 2) / s) by (field; lra).
  rewrite E. split.
  - apply Qlt_shift_div_l; [exact Hs|].
    assert (E1 : (x - (1 # 2) / s) * s == x * s - (1 # 2)) by (field; lra).
    rewrite E1. lra.
  - apply Qle_shift_div_r; [exact Hs|].
    assert (E1 : (x + (1 # 2) / s) * s == x * s + (1 # 2)) by (field; lra).
    rewrite E1. lra.
Qed.

Lemma roundTo_10000 (x : Q) :
  x - (1 # 20000) < Js.roundTo 10000 x <= x + (1 # 20000).
Proof. exact (roundTo_close 10000 x). Qed.

Lemma percentages_at_least (confidence : Z) (v : Volatility) :
  exists tp sl,
    (let '(tpPercent, slPercent) :=
       if (85 <=? confidence)%Z then (25 # 10, 15 # 10)
       else if (80 <=? confidence)%Z then (2, 15 # 10)
       else if (75 <=? confidence)%Z then (18 # 10, 15 # 10)
       else (15 # 10, 2) in
     match v with
     | HIGH => (tpPercent * (11 # 10), slPercent * (11 # 10))
     | MEDIUM => (tpPercent * 1, slPercent * 1)
     | LOW => (tpPercent, slPercent)
     end) = (tp, sl)
    /\ 15 # 10 <= tp /\ 15 # 10 <= sl.
Proof.
  destruct (85 <=? confidence)%Z; [|destruct (80 <=? confidence)%Z;
    [|destruct (75 <=? confidence)%Z]];
    destruct v; eexists; eexists; (split; [reflexivity|]); split; lra.
Qed.

(** With the percentages chosen by confidence and volatility, the stop
    loss of [calculateTakeProfitStopLoss] is always on the losing side of
    the entry, but the take-profit is not always on the winning side: a
    BUY has its take-profit at or below the entry exactly when the
    resistance lies above the entry by at most the 0.5% margin, and a
    SELL has it at or above the entry exactly when the support lies below
    the entry by at most that margin. *)
Theorem take_profit_side_depends_on_nearby_level
    (entryPrice : Q) (signalType : SignalType) (confidence : Z)
    (ms : MarketStructure) :
  1 # 100 <= entryPrice -> signalType <> HOLD ->
  exists r,
    calculateTakeProfitStopLoss entryPrice signalType confidence ms = Some r
    /\ match signalType with
       | BUY =>
           tp_stopLossPrice r < entryPrice
           /\ (tp_takeProfitPrice r <= entryPrice
               <-> entryPrice < resistance ms
                   /\ resistance ms * (995 # 1000) <= entryPrice)
       | _ =>
           entryPrice < tp_stopLossPrice r
           /\ (entryPrice <= tp_takeProfitPrice r
               <-> 0 < support ms /\ support ms < entryPrice
                   /\ entryPrice <= support ms * (1005 # 1000))
       end.
Proof.
  intros Hentry Hdir. unfold calculateTakeProfitStopLoss.
  destruct (percentages_at_least confidence (volatility ms))
    as (tp & sl & E & Htp & Hsl).
  cbv zeta in E.
  destruct (if (85 <=? confidence)%Z then _ else _) as [tp0 sl0].
  rewrite E. clear E.
  assert (Dtp : 15 # 100000 <= entryPrice * (tp / 100)).
  { unfold Qdiv. change (/ 100) with (1 # 100). nra. }
  assert (Dsl : 15 # 100000 <= entryPrice * (sl / 100)).
  { unfold Qdiv. change (/ 100) with (1 # 100). nra. }
  pose proof (roundTo_10000 (entryPrice * (1 + tp / 100))) as Rup_tp.
  pose proof (roundTo_10000 (entryPrice * (1 - tp / 100))) as Rdn_tp.
  pose proof (roundTo_10000 (entryPrice * (1 + sl / 100))) as Rup_sl.
  pose proof (roundTo_10000 (entryPrice * (1 - sl / 100))) as Rdn_sl.
  destruct signalType; [| |congruence];
    cbn [generateTradeLevels takeProfit stopLoss];
    eexists; (split; [reflexivity|]);
    cbn [tp_takeProfitPrice tp_stopLossPrice];
    set (up_tp := Js.roundTo 10000 (entryPrice * (1 + tp / 100))) in *;
    set (dn_tp := Js.roundTo 10000 (entryPrice * (1 - tp / 100))) in *;
    set (up_sl := Js.roundTo 10000 (entryPrice * (1 + sl / 100))) in *;
    set (dn_sl := Js.roundTo 10000 (entryPrice * (1 - sl / 100))) in *;
    unfold Qdiv in *; change (/ 100) with (1 # 100) in *;
    ltb_cases; cbn [andb]; repeat split; intros; lra.
Qed.

(** The thresholds [generateSignal] works with in effect.  The gate at a
    confidence of 70 comes after the decision on the score difference
    and after the reduction for high volatility, so a BUY or a SELL
    needs a score difference of at least 30, and of at least 45 in high
    volatility, not the 20 of the decision itself; its direction is the
    one of the larger score, its confidence lies between 55 and 95, and
    it carries both levels.  A HOLD carries no levels. *)
Theorem generateSignal_effective_thresholds (historyLength : nat)
    (a : Analysis) (r : SignalResult) :
  generateSignal historyLength a = Some r ->
  (sr_signalType r = HOLD ->
   sr_takeProfitPrice r = None /\ sr_stopLossPrice r = None)
  /\ (sr_signalType r <> HOLD ->
      (30 <= scoreDifference (scores a))%Z
      /\ (isHigh (volatility (marketStructure a)) = true ->
          (45 <= scoreDifference (scores a))%Z)
      /\ (sr_signalType r = BUY <->
          (bearishScore (scores a) < bullishScore (scores a))%Z)
      /\ (55 <= sr_confidence r <= 95)%Z
      /\ is_Some (sr_takeProfitPrice r)
      /\ is_Some (sr_stopLossPrice r)).
Proof.
  unfold generateSignal.
  destruct (historyLength <? 20)%nat; [discriminate|].
  destruct (technicalDecision (scores a)) as [t c] eqn:Hdec.
  intros [= <-]. cbn [sr_signalType sr_confidence sr_takeProfitPrice
                      sr_stopLossPrice].
  pose proof (bonuses_bounded a (gated t (volatilityAdjusted a c))) as Hb.
  assert (Hlevels : gated t (volatilityAdjusted a c) <> HOLD ->
    exists l,
      calculateTakeProfitStopLoss (currentPrice a)
        (gated t (volatilityAdjusted a c)) (volatilityAdjusted a c)
        (marketStructure a) = Some l).
  { intros Hne. unfold calculateTakeProfitStopLoss.
    destruct (if (85 <=? volatilityAdjusted a c)%Z then _ else _)
      as [tp0 sl0].
    destruct (match volatility (marketStructure a) with
              | HIGH => _ | MEDIUM => _ | LOW => _ end) as [tp sl].
    destruct (gated t (volatilityAdjusted a c)); [| |congruence];
      cbn [generateTradeLevels]; eexists; reflexivity. }
  split.
  - intros Hhold. rewrite Hhold. split; reflexivity.
  - intros Hne. destruct (Hlevels Hne) as [l Hl].
    assert (Hsome :
      is_Some (option_map tp_takeProfitPrice
                 match gated t (volatilityAdjusted a c) with
                 | HOLD => None
                 | _ => calculateTakeProfitStopLoss (currentPrice a)
                          (gated t (volatilityAdjusted a c))
                          (volatilityAdjusted a c) (marketStructure a)
                 end)
      /\ is_Some (option_map tp_stopLossPrice
                    match gated t (volatilityAdjusted a c) with
                    | HOLD => None
                    | _ => calculateTakeProfitStopLoss (currentPrice a)
                             (gated t (volatilityAdjusted a c))
                             (volatilityAdjusted a c) (marketStructure a)
                    end)).
    { destruct (gated t (volatilityAdjusted a c)); [| |congruence];
        rewrite Hl; split; eexists; reflexivity. }
    destruct Hsome as [Htp Hsl].
    clear Hlevels Hl.
    unfold technicalDecision, scoreDifference in Hdec.
    unfold adjustedConfidence, gated, volatilityAdjusted,
      scoreDifference in *.
    destruct (isHigh (volatility (marketStructure a)));
      repeat match type of Hdec with
             | context [if ?b then _ else _] =>
                 let E := fresh "E" in destruct b eqn:E
             end;
      inversion Hdec; subst t c; clear Hdec;
      repeat match goal with
             | H : _ && _ = true |- _ => apply andb_true_iff in H as [? ?]
             | H : _ && _ = false |- _ => apply andb_false_iff in H
             end;
      repeat match goal with
             | H : context [(?x <? ?y)%Z] |- _ =>
                 destruct (Z.ltb_spec x y)
             | |- context [(?x <? ?y)%Z] => destruct (Z.ltb_spec x y)
             end;
      try congruence;
      (split; [lia|]); (split; [intros; try discriminate; lia|]);
      (split; [split; intros; try discriminate; try reflexivity; lia|]);
      (split; [lia|]); split; assumption.
Qed.

End TechnicalLevels.

(** ** Batches of consolidated signals *)

Section Batches.
Import Schema ConsolidatedSignalGenerator ConsolidatedBatch.
Local Open Scope Z_scope.

Lemma insertByConfidence_perm (s : ConsolidatedSignal)
    (l : list ConsolidatedSignal) :
  insertByConfidence s l ≡ₚ s :: l.
Proof.
  induction l as [|x l IH]; simpl; [reflexivity|].
  destruct (confidence x <=? confidence s); [reflexivity|].
  rewrite IH. apply Permutation_swap.
Qed.

Lemma sortByConfidence_perm (l : list ConsolidatedSignal) :
  sortByConfidence l ≡ₚ l.
Proof.
  induction l as [|x l IH]; simpl; [reflexivity|].
  now rewrite insertByConfidence_perm, IH.
Qed.

Lemma insertByConfidence_sorted (s : ConsolidatedSignal)
    (l : list ConsolidatedSignal) :
  StronglySorted byConfidence l ->
  StronglySorted byConfidence (insertByConfidence s l).
Proof.
  induction 1 as [|x l Hl IH Hx]; simpl.
  - constructor; constructor.
  - destruct (Z.leb_spec (confidence x) (confidence s)) as [E|E].
    + constructor; [now constructor|].
      constructor; [exact E|].
      eapply Forall_impl; [exact Hx|].
      intros y Hy. unfold byConfidence in *. lia.
    + constructor; [exact IH|].
      rewrite insertByConfidence_perm. constructor; [|exact Hx].
      unfold byConfidence. lia.
Qed.

Lemma sortByConfidence_sorted (l : list ConsolidatedSignal) :
  StronglySorted byConfidence (sortByConfidence l).
Proof.
  induction l as [|x l IH]; simpl; [constructor|].
  now apply insertByConfidence_sorted.
Qed.

Lemma elem_of_drop_weaken {A : Type} (n : nat) (l : list A) (x : A) :
  x ∈ drop n l -> x ∈ l.
Proof.
  intros H. rewrite <- (take_drop n l). apply elem_of_app. now right.
Qed.

Lemma elem_of_take_weaken {A : Type} (n : nat) (l : list A) (x : A) :
  x ∈ take n l -> x ∈ l.
Proof.
  intros H. rewrite <- (take_drop n l). apply elem_of_app. now left.
Qed.

Lemma sorted_take_drop (n : nat) (l : list ConsolidatedSignal)
    (a b : ConsolidatedSignal) :
  StronglySorted byConfidence l -> a ∈ take n l -> b ∈ drop n l ->
  confidence b <= confidence a.
Proof.
  intros Hs. revert n. induction Hs as [|x l Hl IH Hx]; intros n Ha Hb.
  - rewrite take_nil in Ha. now apply elem_of_nil in Ha.
  - destruct n as [|n]; simpl in *; [now apply elem_of_nil in Ha|].
    apply elem_of_cons in Ha as [->|Ha]; [|now apply (IH n)].
    rewrite Forall_forall in Hx. apply Hx.
    now apply (elem_of_drop_weaken n).
Qed.

Lemma sorted_take (n : nat) (l : list ConsolidatedSignal) :
  StronglySorted byConfidence l -> StronglySorted byConfidence (take n l).
Proof.
  intros Hs. revert n. induction Hs as [|x l Hl IH Hx]; intros n.
  - rewrite take_nil. constructor.
  - destruct n as [|n]; simpl; [constructor|].
    constructor; [apply IH|]. rewrite Forall_forall in *.
    intros y Hy. apply Hx. now apply (elem_of_take_weaken n).
Qed.

Lemma signalFor_symbol (input : MarketInput) (s : ConsolidatedSignal) :
  signalFor input = Some s -> symbol s = in_symbol input.
Proof.
  unfold signalFor, generateSignalForSymbol. cbv zeta.
  destruct (_ || _); [discriminate|]. now intros [= <-].
Qed.

(** What the loop of a batch leaves: every signal pushed passed the
    quality check, comes from one of the inputs, was not limited before,
    and has its symbol limited from [now] on; no two signals pushed
    share a symbol; limits set at [now] stay. *)
Lemma collect_spec (now : Z) (inputs : list MarketInput)
    (times : gmap string Z) :
  let signals := fst (collect times now inputs) in
  let times' := snd (collect times now inputs) in
  (forall s, s ∈ signals ->
     validateSignalQuality s = true
     /\ (exists input, input ∈ inputs /\ signalFor input = Some s)
     /\ times !! symbol s <> Some now
     /\ times' !! symbol s = Some now)
  /\ NoDup (symbol <$> signals)
  /\ (forall k, times !! k = Some now -> times' !! k = Some now)
  /\ (forall k t, times' !! k = Some t ->
        times !! k = Some t \/ (t = now /\ k ∈ symbol <$> signals)).
Proof.
  revert times. induction inputs as [|input rest IH]; intros times.
  - simpl. split; [intros s Hs; now apply elem_of_nil in Hs|].
    split; [constructor|]. split; [tauto|]. intros k t H. now left.
  - simpl.
    assert (Hskip :
      let signals := fst (collect times now rest) in
      let times' := snd (collect times now rest) in
      (forall s, s ∈ signals ->
         validateSignalQuality s = true
         /\ (exists i, i ∈ input :: rest /\ signalFor i = Some s)
         /\ times !! symbol s <> Some now
         /\ times' !! symbol s = Some now)
      /\ NoDup (symbol <$> signals)
      /\ (forall k, times !! k = Some now -> times' !! k = Some now)
      /\ (forall k t, times' !! k = Some t ->
            times !! k = Some t \/ (t = now /\ k ∈ symbol <$> signals))).
    { destruct (IH times) as (I1 & I2 & I3 & I4).
      split; [|split; [exact I2|split; [exact I3|exact I4]]].
      intros s Hs. destruct (I1 s Hs) as (V & (i & Hi & Hsig) & Hn & Ht).
      split; [exact V|]. split; [|split; assumption].
      exists i. split; [now right|exact Hsig]. }
    destruct (Z.ltb_spec
                (now - Js.orElseZ (default 0 (times !! in_symbol input)) 0)
                RATE_LIMIT) as [Hlim|Hlim]; [exact Hskip|].
    destruct (signalFor input) as [s|] eqn:Hsig; [|exact Hskip].
    destruct (validateSignalQuality s) eqn:Hvalid; [|exact Hskip].
    clear Hskip.
    assert (Hsym : symbol s = in_symbol input)
      by now apply signalFor_symbol.
    assert (Hfresh : times !! in_symbol input <> Some now).
    { intros E. rewrite E in Hlim. simpl in Hlim.
      unfold Js.orElseZ, RATE_LIMIT in Hlim.
      destruct (Z.eqb_spec now 0); lia. }
    destruct (IH (<[in_symbol input := now]> times)) as (I1 & I2 & I3 & I4).
    destruct (collect (<[in_symbol input := now]> times) now rest)
      as [signals times'] eqn:Hc.
    cbn [fst snd] in *.
    assert (Hhead : times' !! in_symbol input = Some now)
      by (apply I3; apply lookup_insert_eq).
    split; [|split; [|split]].
    + intros x Hx. apply elem_of_cons in Hx as [->|Hx].
      * split; [exact Hvalid|]. split; [exists input; split; [left|]; auto|].
        rewrite Hsym. split; assumption.
      * destruct (I1 x Hx) as (V & (i & Hi & Hs') & Hn & Ht).
        split; [exact V|]. split; [exists i; split; [now right|exact Hs']|].
        split; [|exact Ht].
        intros E. apply Hn.
        destruct (decide (in_symbol input = symbol x)) as [Eq|Ne].
        -- rewrite <- Eq. apply lookup_insert_eq.
        -- now rewrite lookup_insert_ne.
    + rewrite fmap_cons. constructor; [|exact I2].
      intros Hin. apply list_elem_of_fmap in Hin as (x & Hx & Hin).
      destruct (I1 x Hin) as (_ & _ & Hn & _).
      apply Hn. rewrite <- Hx, Hsym. apply lookup_insert_eq.
    + intros k Hk. apply I3.
      destruct (decide (in_symbol input = k)) as [<-|Ne].
      * apply lookup_insert_eq.
      * now rewrite lookup_insert_ne.
    + intros k t Hk. destruct (I4 k t Hk) as [Hold|[-> Hin]].
      * destruct (decide (in_symbol input = k)) as [<-|Ne].
        -- rewrite lookup_insert_eq in Hold. injection Hold as <-.
           right. split; [reflexivity|]. rewrite fmap_cons, Hsym. left.
        -- rewrite lookup_insert_ne in Hold by exact Ne. now left.
      * right. split; [reflexivity|]. rewrite fmap_cons. now right.
Qed.

(** A batch returns at most five signals, in descending order of
    confidence, for pairwise different symbols; each of them passed the
    quality check and was generated for one of the inputs; and every
    signal that was generated and passed the check but is not returned
    has a confidence at most that of each returned one. *)
Theorem batch_returns_top_five (times : gmap string Z) (now : Z)
    (inputs : list MarketInput) :
  let returned := fst (generateConsolidatedSignals times now inputs) in
  let pushed := fst (collect times now inputs) in
  (length returned <= 5)%nat
  /\ StronglySorted byConfidence returned
  /\ NoDup (symbol <$> returned)
  /\ (forall s, s ∈ returned ->
        validateSignalQuality s = true
        /\ exists input, input ∈ inputs /\ signalFor input = Some s)
  /\ (forall a b, a ∈ returned -> b ∈ pushed -> b ∉ returned ->
        confidence b <= confidence a).
Proof.
  cbv zeta. unfold generateConsolidatedSignals.
  destruct (collect_spec now inputs times) as (C1 & C2 & _ & _).
  destruct (collect times now inputs) as [signals times'] eqn:Hc.
  cbn [fst snd] in *.
  pose proof (sortByConfidence_perm signals) as Hperm.
  pose proof (sortByConfidence_sorted signals) as Hsorted.
  split; [|split; [|split; [|split]]].
  - rewrite length_take. unfold MAX_SIGNALS_PER_HOUR. lia.
  - now apply sorted_take.
  - assert (Hnd : NoDup (symbol <$> sortByConfidence signals))
      by now rewrite Hperm.
    rewrite <- (take_drop MAX_SIGNALS_PER_HOUR (sortByConfidence signals)),
      fmap_app in Hnd.
    now apply NoDup_app in Hnd as [Hnd _].
  - intros s Hs. apply elem_of_take_weaken in Hs. rewrite Hperm in Hs.
    destruct (C1 s Hs) as (V & Hin & _). split; assumption.
  - intros a b Ha Hb Hnb.
    apply (sorted_take_drop MAX_SIGNALS_PER_HOUR (sortByConfidence signals));
      [exact Hsorted|exact Ha|].
    rewrite <- Hperm in Hb.
    rewrite <- (take_drop MAX_SIGNALS_PER_HOUR (sortByConfidence signals))
      in Hb.
    apply elem_of_app in Hb as [Hb|Hb]; [contradiction|exact Hb].
Qed.

(** A signal that passed the quality check limits its symbol for thirty
    minutes whether or not it is among the five returned: in a later
    batch less than thirty minutes after, no signal is pushed for the
    symbol of any signal pushed in the first one, the ones cut off by
    the limit of five included. *)
Theorem cut_off_signals_still_limit_their_symbol
    (times : gmap string Z) (now later : Z)
    (inputs inputs' : list MarketInput) (s : ConsolidatedSignal) :
  now <= later < now + RATE_LIMIT ->
  s ∈ fst (collect times now inputs) ->
  let times' := snd (generateConsolidatedSignals times now inputs) in
  times' !! symbol s = Some now
  /\ forall s',
       s' ∈ fst (collect times' later inputs') -> symbol s' <> symbol s.
Proof.
  intros Hlater Hs. cbv zeta.
  unfold generateConsolidatedSignals.
  destruct (collect_spec now inputs times) as (C1 & _ & _ & _).
  destruct (collect times now inputs) as [signals times'] eqn:Hc.
  cbn [fst snd] in *. destruct (C1 s Hs) as (_ & _ & _ & Ht).
  split; [exact Ht|].
  clear C1 Hc Hs. revert times' Ht.
  induction inputs' as [|input rest IH]; intros times' Ht s' Hs'.
  - now apply elem_of_nil in Hs'.
  - simpl in Hs'.
    destruct (Z.ltb_spec
                (later
                 - Js.orElseZ (default 0 (times' !! in_symbol input)) 0)
                RATE_LIMIT) as [Hlim|Hlim]; [now apply (IH times')|].
    destruct (signalFor input) as [x|] eqn:Hsig; [|now apply (IH times')].
    destruct (validateSignalQuality x); [|now apply (IH times')].
    assert (Hne : in_symbol input <> symbol s).
    { intros E. rewrite E, Ht in Hlim. simpl in Hlim.
      unfold Js.orElseZ in Hlim. destruct (Z.eqb_spec now 0); lia. }
    destruct (collect (<[in_symbol input := later]> times') later rest)
      as [signals' times''] eqn:Hc.
    simpl in Hs'. apply elem_of_cons in Hs' as [->|Hs'].
    + rewrite (signalFor_symbol _ _ Hsig). exact Hne.
    + apply (IH (<[in_symbol input := later]> times')).
      * now rewrite lookup_insert_ne.
      * now rewrite Hc.
Qed.

End Batches.

(** ** Consolidated signals: shape and closure *)

Section ConsolidatedShape.
Import Schema ConsolidatedSignalGenerator.
Local Open Scope Q_scope.

Lemma min_le_l (x y : Q) : Js.min x y <= x.
Proof.
  unfold Js.min. destruct (Js.leb x y) eqn:E; [lra|].
  apply leb_gt in E. lra.
Qed.

Lemma min_le_r (x y : Q) : Js.min x y <= y.
Proof.
  unfold Js.min. destruct (Js.leb x y) eqn:E; [|lra].
  now apply leb_le.
Qed.

Lemma technical_score_of_net (net : Q) :
  let confidence := Js.min 95 (Js.abs net / (20 + 25 + 15 + 20 + 20) * 100) in
  let action :=
    if Js.ltb 30 net then BUY else if Js.ltb net (- 30) then SELL else HOLD in
  0 <= confidence <= 95 /\ (action = HOLD -> confidence <= 30).
Proof.
  cbv zeta.
  assert (E : Js.abs net / (20 + 25 + 15 + 20 + 20) * 100 == Js.abs net)
    by (field; lra).
  pose proof (min_le_l 95 (Js.abs net / (20 + 25 + 15 + 20 + 20) * 100)) as H1.
  assert (H2 : Js.min 95 (Js.abs net / (20 + 25 + 15 + 20 + 20) * 100)
               <= Js.abs net).
  { eapply Qle_trans; [apply min_le_r|]. rewrite E. apply Qle_refl. }
  assert (H0 : 0 <= Js.min 95
                      (Js.abs net / (20 + 25 + 15 + 20 + 20) * 100)).
  { unfold Js.min at 1.
    destruct (Js.leb 95 _); [lra|]. rewrite E. apply Qabs_nonneg. }
  split; [split; assumption|].
  destruct (Js.ltb 30 net) eqn:E1; [discriminate|].
  destruct (Js.ltb net (- 30)) eqn:E2; [discriminate|].
  intros _. apply ltb_ge in E1, E2.
  assert (Js.abs net <= 30) by (apply Qabs_Qle_condition; lra).
  lra.
Qed.

(** The technical score is a number between 0 and 95, and it is at most
    30 when the action is HOLD. *)
Lemma generateTechnicalSignal_score (i : Indicators) :
  0 <= ts_technicalScore (generateTechnicalSignal i) <= 95
  /\ (ts_action (generateTechnicalSignal i) = HOLD ->
      ts_technicalScore (generateTechnicalSignal i) <= 30).
Proof.
  unfold generateTechnicalSignal.
  destruct (if Js.ltb (rsi i) 30 then _ else _) as [[bull1 bear1] why1].
  destruct (if Js.ltb 0 (macdHistogram i) then _ else _)
    as [[bull2 bear2] why2].
  destruct (match bollingerPosition i with UPPER => _ | _ => _ end)
    as [[bull3 bear3] why3].
  destruct (match smaTrend i with BULLISH => _ | _ => _ end)
    as [[bull4 bear4] why4].
  destruct (if Js.ltb (2 # 100) (momentum i) then _ else _)
    as [[bull5 bear5] why5].
  cbn [ts_technicalScore ts_action].
  apply technical_score_of_net.
Qed.

Lemma round_bounds (x : Q) :
  x - (1 # 2) < inject_Z (Js.round x) <= x + (1 # 2).
Proof.
  unfold Js.round.
  pose proof (Qfloor_le (x + (1 # 2))) as Hle.
  pose proof (Qlt_floor (x + (1 # 2))) as Hlt.
  rewrite inject_Z_plus in Hlt. change (inject_Z 1) with 1 in Hlt.
  lra.
Qed.

Lemma riskReward_value (entry volatility : Q) (conf : Z) (tf : TradeType) :
  let ratio := snd (timeframeMultipliers tf) * (inject_Z conf / 100) in
  ratio - (1 # 200)
  < rl_riskReward (calculateRiskLevels entry conf volatility tf)
  <= ratio + (1 # 200).
Proof.
  cbv zeta. unfold calculateRiskLevels.
  assert (Hbase : 15 # 1000 <= Js.max (15 # 1000) (volatility * (15 # 10)))
    by apply max_ge_l.
  set (base := Js.max (15 # 1000) (volatility * (15 # 10))) in *.
  set (c := inject_Z conf / 100).
  destruct tf; cbn [timeframeMultipliers rl_riskReward snd];
    match goal with
    | |- _ < Js.roundTo 100 ?q <= _ =>
        pose proof (roundTo_close 100 q) as Hr;
        change (inject_Z (Z.pos (2 * 100))) with 200 in Hr;
        change (1 / 200) with (1 # 200) in Hr;
        set (rr := Js.roundTo 100 q) in *
    end.
  - assert (E : base * (8 # 10) * (25 # 10) * c / (base * (8 # 10))
                == (25 # 10) * c) by (field; lra).
    rewrite E in Hr. exact Hr.
  - assert (E : base * 1 * 3 * c / (base * 1) == 3 * c) by (field; lra).
    rewrite E in Hr. exact Hr.
  - assert (E : base * (12 # 10) * (35 # 10) * c / (base * (12 # 10))
                == (35 # 10) * c) by (field; lra).
    rewrite E in Hr. exact Hr.
Qed.

(** Every signal [generateSignalForSymbol] returns, for a positive price
    and a fundamental score between 0 and 100: it is a BUY or a SELL,
    never a HOLD; its confidence lies between 75 and 97; its timeframe is
    never SCALP, and DAY only from a confidence of 84; its stop-loss is
    below the entry and its take-profit above it whatever the action;
    with the neutral fundamental score of 50 of the synthetic indices the
    confidence is at most 82 and the timeframe is SWING. *)
Theorem consolidated_signal_shape (symbol : string) (price : Q)
    (indicators : Indicators) (fundamentalScore : Q)
    (fundamentalReasoning : list string) (s : ConsolidatedSignal) :
  0 < price -> 0 <= fundamentalScore <= 100 ->
  generateSignalForSymbol symbol price indicators fundamentalScore
    fundamentalReasoning = Some s ->
  action s <> HOLD
  /\ (75 <= confidence s <= 97)%Z
  /\ timeframe s <> SCALP
  /\ (timeframe s = DAY -> (84 <= confidence s)%Z)
  /\ stopLossPrice s < entryPrice s < takeProfitPrice s
  /\ (fundamentalScore == 50 ->
      (confidence s <= 82)%Z /\ timeframe s = SWING).
Proof.
  intros Hprice Hf. unfold generateSignalForSymbol. cbv zeta.
  destruct (generateTechnicalSignal_score indicators) as ([Ht0 Ht95] & Hhold).
  set (ts := generateTechnicalSignal indicators) in *.
  unfold combineAnalysis.
  cbn [cs_confidence cs_action cs_reasoning cs_technicalScore
       cs_fundamentalScore].
  set (combined :=
         ts_technicalScore ts * (7 # 10) + fundamentalScore * (3 # 10)).
  pose proof (round_bounds combined) as Hround.
  set (conf := Js.round combined) in *.
  pose proof (riskReward_value price (volatility indicators) conf
                (determineTimeframe indicators)) as Hrr.
  cbv zeta in Hrr.
  unfold MIN_CONFIDENCE, MIN_RISK_REWARD.
  destruct (Z.ltb_spec conf 75) as [Hlow|Hconf]; [discriminate|].
  cbn [orb].
  destruct (Js.ltb _ (25 # 10)) eqn:Err; [discriminate|].
  apply ltb_ge in Err. intros [= <-].
  cbn [action confidence timeframe stopLossPrice entryPrice
       takeProfitPrice].
  assert (Hc75 : 75 <= inject_Z conf).
  { change 75 with (inject_Z 75). now rewrite <- Zle_Qle. }
  assert (Hc97 : (conf <= 97)%Z).
  { assert (H : inject_Z conf < inject_Z 98)
      by (change (inject_Z 98) with 98; unfold combined in Hround; lra).
    rewrite <- Zlt_Qlt in H. lia. }
  assert (Hcq97 : inject_Z conf <= 97).
  { change 97 with (inject_Z 97). now rewrite <- Zle_Qle. }
  split; [|split; [|split; [|split; [|split]]]].
  - intros Hact. specialize (Hhold Hact). unfold combined in Hround. lra.
  - lia.
  - intros Htf. rewrite Htf in Hrr, Err.
    cbn [timeframeMultipliers snd] in Hrr.
    unfold Qdiv in Hrr. change (/ 100) with (1 # 100) in Hrr. lra.
  - intros Htf. rewrite Htf in Hrr, Err.
    cbn [timeframeMultipliers snd] in Hrr.
    unfold Qdiv in Hrr. change (/ 100) with (1 # 100) in Hrr.
    destruct (Z.le_gt_cases 84 conf) as [H|H]; [exact H|].
    assert (Hq : inject_Z conf <= 83).
    { change 83 with (inject_Z 83). rewrite <- Zle_Qle. lia. }
    lra.
  - apply calculateRiskLevels_buy_side; [exact Hprice|lia].
  - intros Hf50.
    assert (Hq : inject_Z conf < inject_Z 83)
      by (change (inject_Z 83) with 83; unfold combined in Hround; lra).
    rewrite <- Zlt_Qlt in Hq. split; [lia|].
    assert (Hq' : inject_Z conf <= 82).
    { change 82 with (inject_Z 82). rewrite <- Zle_Qle. lia. }
    destruct (determineTimeframe indicators); [| |reflexivity];
      cbn [timeframeMultipliers snd] in Hrr;
      unfold Qdiv in Hrr; change (/ 100) with (1 # 100) in Hrr; lra.
Qed.

End ConsolidatedShape.

Section ConsolidatedClosure.
Import Schema ConsolidatedSignalGenerator ConsolidatedSignalTracker.
Local Open Scope Q_scope.

Lemma generated_levels (symbol : string) (price : Q)
    (indicators : Indicators) (fundamentalScore : Q)
    (fundamentalReasoning : list string) (s : ConsolidatedSignal) :
  0 < price ->
  generateSignalForSymbol symbol price indicators fundamentalScore
    fundamentalReasoning = Some s ->
  entryPrice s = price
  /\ stopLossPrice s < entryPrice s < takeProfitPrice s.
Proof.
  intros Hprice. unfold generateSignalForSymbol. cbv zeta.
  unfold MIN_CONFIDENCE.
  match goal with
  | |- context [(?c <? 75)%Z] =>
      destruct (Z.ltb_spec c 75) as [Hlow|Hconf]; [discriminate|]
  end.
  cbn [orb]. destruct (Js.ltb _ MIN_RISK_REWARD); [discriminate|].
  intros [= <-]. cbn [stopLossPrice entryPrice takeProfitPrice].
  split; [reflexivity|].
  apply calculateRiskLevels_buy_side; [exact Hprice|].
  unfold combineAnalysis in Hconf. cbn [cs_confidence] in *. lia.
Qed.

Lemma pips_sign (s : ConsolidatedSignal) (status : TrackStatus) (cp : Q) :
  let diff :=
    match action s with
    | BUY => cp - entryPrice s
    | _ => entryPrice s - cp
    end in
  (0 < diff -> 0 < cl_pnlPips (closeSignal s status cp))
  /\ (diff < 0 -> cl_pnlPips (closeSignal s status cp) < 0)
  /\ (diff == 0 -> cl_pnlPips (closeSignal s status cp) == 0).
Proof.
  cbv zeta. unfold closeSignal. cbn [cl_pnlPips].
  destruct (includes "JPY" (symbol s)); repeat split; intros; nra.
Qed.

(** The tracker against the levels of the generator.  A generated SELL
    has its stop-loss below and its take-profit above the entry, so the
    first check closes it whatever the price: as a take-profit hit at
    every price up to the take-profit, with a loss in pips when that
    price is above the entry and with none at the entry itself, and as a
    stop-loss hit above.  A generated BUY closes as a take-profit hit
    only with a gain and as a stop-loss hit only with a loss. *)
Theorem generated_sell_closes_at_first_check (symbol : string) (price : Q)
    (indicators : Indicators) (fundamentalScore : Q)
    (fundamentalReasoning : list string) (s : ConsolidatedSignal)
    (expiryTime : option Z) (now : Z) (currentPrice : Q) :
  0 < price ->
  generateSignalForSymbol symbol price indicators fundamentalScore
    fundamentalReasoning = Some s ->
  match action s with
  | SELL =>
      exists closing,
        checkSignalStatus s expiryTime now currentPrice = Some closing
        /\ (cl_status closing = TP_HIT ->
            currentPrice <= takeProfitPrice s
            /\ (entryPrice s < currentPrice -> cl_pnlPips closing < 0)
            /\ (currentPrice == entryPrice s -> cl_pnlPips closing == 0))
        /\ (cl_status closing = SL_HIT -> cl_pnlPips closing < 0)
        /\ (expiryTime = None ->
            cl_status closing
            = if Js.leb currentPrice (takeProfitPrice s)
              then TP_HIT else SL_HIT)
  | BUY =>
      forall closing,
        checkSignalStatus s expiryTime now currentPrice = Some closing ->
        (cl_status closing = TP_HIT -> 0 < cl_pnlPips closing)
        /\ (cl_status closing = SL_HIT -> cl_pnlPips closing < 0)
  | HOLD =>
      forall closing,
        checkSignalStatus s expiryTime now currentPrice = Some closing ->
        cl_status closing = EXPIRED
  end.
Proof.
  intros Hprice Hgen.
  destruct (generated_levels _ _ _ _ _ _ Hprice Hgen) as (_ & Hsl & Htp).
  unfold checkSignalStatus.
  pose proof (pips_sign s TP_HIT currentPrice) as Ptp.
  pose proof (pips_sign s SL_HIT currentPrice) as Psl.
  cbv zeta in Ptp, Psl.
  destruct (action s) eqn:Hact.
  - intros closing.
    destruct (match expiryTime with Some t => _ | None => _ end).
    { intros [= <-]. split; discriminate. }
    destruct (Js.leb (takeProfitPrice s) currentPrice) eqn:E1.
    { apply leb_le in E1. intros [= <-]. cbn [cl_status].
      split; [intros _; apply Ptp; lra|discriminate]. }
    destruct (Js.leb currentPrice (stopLossPrice s)) eqn:E2;
      [|discriminate].
    apply leb_le in E2. intros [= <-]. cbn [cl_status].
    split; [discriminate|intros _; apply Psl; lra].
  - assert (Hopen :
      exists closing,
        (if Js.leb currentPrice (takeProfitPrice s)
         then Some (closeSignal s TP_HIT currentPrice)
         else if Js.leb (stopLossPrice s) currentPrice
              then Some (closeSignal s SL_HIT currentPrice)
              else None) = Some closing
        /\ (cl_status closing = TP_HIT ->
            currentPrice <= takeProfitPrice s
            /\ (entryPrice s < currentPrice -> cl_pnlPips closing < 0)
            /\ (currentPrice == entryPrice s -> cl_pnlPips closing == 0))
        /\ (cl_status closing = SL_HIT -> cl_pnlPips closing < 0)
        /\ cl_status closing
           = if Js.leb currentPrice (takeProfitPrice s)
             then TP_HIT else SL_HIT).
    { destruct (Js.leb currentPrice (takeProfitPrice s)) eqn:E1.
      - apply leb_le in E1. eexists. split; [reflexivity|].
        cbn [cl_status]. split; [|split; [discriminate|reflexivity]].
        intros _. split; [exact E1|].
        split; intros Hc; apply Ptp; lra.
      - apply leb_gt in E1.
        assert (Js.leb (stopLossPrice s) currentPrice = true) as ->
          by (apply leb_le; lra).
        eexists. split; [reflexivity|]. cbn [cl_status].
        split; [discriminate|]. split; [|reflexivity].
        intros _. apply Psl. lra. }
    destruct Hopen as (closing & Hc & H1 & H2 & H3).
    destruct expiryTime as [t|].
    + destruct (t <? now)%Z.
      * eexists. split; [reflexivity|]. cbn [cl_status].
        split; [discriminate|]. split; discriminate.
      * exists closing. split; [exact Hc|].
        split; [exact H1|]. split; [exact H2|discriminate].
    + exists closing. split; [exact Hc|].
      split; [exact H1|]. split; [exact H2|]. intros _. exact H3.
  - intros closing.
    destruct (match expiryTime with Some t => _ | None => _ end);
      [|discriminate].
    now intros [= <-].
Qed.

End ConsolidatedClosure.

(** ** The tick handler of the routes and the tracker *)

Section RoutesHandler.
Import Schema Storage SignalTracker.
Local Open Scope Z_scope.

Lemma closeOne_spec (w w' : Server) (s : Signal) (price : Q) :
  Routes.closeOne w s price = Some w' ->
  trackedSignals w' = trackedSignals w
  /\ signalHistory (db w') = signalHistory (db w)
  /\ RiskManagementService.totalTrades (riskManagement w')
     = RiskManagementService.totalTrades (riskManagement w)
       + (if Routes.shouldClose price s then 1 else 0)
  /\ (forall row, row ∈ signals (db w') -> isActive row = true ->
        row ∈ signals (db w)
        /\ (Routes.shouldClose price s = true -> id row <> id s))
  /\ (Routes.shouldClose price s = false -> w' = w).
Proof.
  unfold Routes.closeOne, Routes.shouldClose.
  destruct (takeProfitPrice s) as [tp|], (stopLossPrice s) as [sl|];
    try (intros [= <-]; repeat split; auto; try lia; discriminate).
  destruct (Routes.decide s tp sl price) as [r|]; cbn [Js.isSet];
    [|intros [= <-]; repeat split; auto; try lia; discriminate].
  destruct (Routes.closingPnl s price) as [pnl|]; [|discriminate].
  intros [= <-]. cbn [db riskManagement trackedSignals].
  split; [reflexivity|]. split; [reflexivity|].
  split; [reflexivity|]. split; [|discriminate].
  intros row Hrow Hact. unfold updateSignal in Hrow. cbn [signals] in Hrow.
  apply list_elem_of_In, in_map_iff in Hrow as (old & Hold & Hin).
  destruct (Z.eqb_spec (id old) (id s)) as [E|E].
  - subst row. discriminate Hact.
  - subst row. split; [now apply list_elem_of_In|]. intros _. exact E.
Qed.

Lemma closeEach_spec (l : list Signal) (price : Q) (w w' : Server) :
  Routes.closeEach l price w = Some w' ->
  trackedSignals w' = trackedSignals w
  /\ signalHistory (db w') = signalHistory (db w)
  /\ RiskManagementService.totalTrades (riskManagement w')
     = RiskManagementService.totalTrades (riskManagement w)
       + Z.of_nat (length (List.filter (Routes.shouldClose price) l))
  /\ (forall row, row ∈ signals (db w') -> isActive row = true ->
        row ∈ signals (db w)
        /\ forall s, s ∈ l -> Routes.shouldClose price s = true ->
             id row <> id s)
  /\ ((forall s, s ∈ l -> Routes.shouldClose price s = false) -> w' = w).
Proof.
  revert w. induction l as [|s l IH]; intros w.
  - simpl. intros [= <-]. repeat split; auto; try lia.
    intros s Hs. now apply elem_of_nil in Hs.
  - simpl. destruct (Routes.closeOne w s price) as [w1|] eqn:H1;
      [|discriminate].
    intros H2. destruct (closeOne_spec _ _ _ _ H1) as (A1 & A2 & A3 & A4 & A5).
    destruct (IH _ H2) as (B1 & B2 & B3 & B4 & B5).
    split; [congruence|]. split; [congruence|]. split; [|split].
    + rewrite B3, A3. destruct (Routes.shouldClose price s); simpl length; lia.
    + intros row Hrow Hact. destruct (B4 row Hrow Hact) as [Hin1 Hids].
      destruct (A4 row Hin1 Hact) as [Hin Hid].
      split; [exact Hin|]. intros x Hx Hclose.
      apply elem_of_cons in Hx as [->|Hx]; [now apply Hid|].
      now apply Hids.
    + intros Hnone. rewrite B5.
      * apply A5, Hnone. left.
      * intros x Hx. apply Hnone. now right.
Qed.

Lemma symbolSignals_elem (d : Db) (sym : string) (s : Signal) :
  s ∈ Routes.symbolSignals d sym <->
  s ∈ signals d /\ isActive s = true /\ symbol s = sym
  /\ is_Some (takeProfitPrice s) /\ is_Some (stopLossPrice s).
Proof.
  unfold Routes.symbolSignals, getActiveSignals.
  rewrite list_elem_of_In, filter_In, <- in_rev, <- list_elem_of_In.
  rewrite list_elem_of_filter, !andb_true_iff, String.eqb_eq.
  split.
  - intros ((Ha & Hin) & ((Hs & _) & Htp) & Hsl).
    destruct (takeProfitPrice s), (stopLossPrice s); try discriminate.
    repeat split; eauto.
  - intros (Hin & Ha & Hs & [tp Htp] & [sl Hsl]).
    rewrite Htp, Hsl. repeat split; assumption.
Qed.

(** The handler of the routes reports every row it closes to the
    risk-management service, once: the number of trades grows by the
    number of rows closed.  It writes no history row and leaves the map
    of the tracker as it was, and the same tick a second time changes
    nothing. *)
Theorem routes_handler_reports_each_closure (w w' : Server) (sym : string)
    (price : Q) :
  Routes.checkActiveSignals w sym price = Some w' ->
  RiskManagementService.totalTrades (riskManagement w')
  = RiskManagementService.totalTrades (riskManagement w)
    + Z.of_nat
        (length (List.filter (Routes.shouldClose price)
                   (Routes.symbolSignals (db w) sym)))
  /\ trackedSignals w' = trackedSignals w
  /\ signalHistory (db w') = signalHistory (db w)
  /\ Routes.checkActiveSignals w' sym price = Some w'.
Proof.
  unfold Routes.checkActiveSignals. intros H.
  destruct (closeEach_spec _ _ _ _ H) as (A1 & A2 & A3 & A4 & _).
  split; [exact A3|]. split; [exact A1|]. split; [exact A2|].
  destruct (Routes.closeEach (Routes.symbolSignals (db w') sym) price w')
    as [w2|] eqn:H2.
  - destruct (closeEach_spec _ _ _ _ H2) as (_ & _ & _ & _ & B5).
    rewrite B5; [reflexivity|].
    intros s Hs. apply symbolSignals_elem in Hs
      as (Hin & Hact & Hsym & Htp & Hsl).
    destruct (A4 s Hin Hact) as [Hold Hids].
    destruct (Routes.shouldClose price s) eqn:E; [|reflexivity].
    exfalso. apply (Hids s); [|exact E|reflexivity].
    apply symbolSignals_elem. repeat split; assumption.
  - exfalso.
    assert (Hnone : forall s, s ∈ Routes.symbolSignals (db w') sym ->
                      Routes.shouldClose price s = false).
    { intros s Hs. apply symbolSignals_elem in Hs
        as (Hin & Hact & Hsym & Htp & Hsl).
      destruct (A4 s Hin Hact) as [Hold Hids].
      destruct (Routes.shouldClose price s) eqn:E; [|reflexivity].
      exfalso. apply (Hids s); [|exact E|reflexivity].
      apply symbolSignals_elem. repeat split; assumption. }
    clear - H2 Hnone.
    revert H2 Hnone.
    generalize (Routes.symbolSignals (db w') sym) as l.
    induction l as [|s l IH]; [discriminate|].
    intros H2 Hnone. simpl in H2.
    assert (Hs : Routes.shouldClose price s = false)
      by (apply Hnone; left).
    assert (H1 : Routes.closeOne w' s price = Some w').
    { unfold Routes.closeOne. unfold Routes.shouldClose in Hs.
      destruct (takeProfitPrice s) as [tp|], (stopLossPrice s) as [sl|];
        try reflexivity.
      destruct (Routes.decide s tp sl price); [discriminate|reflexivity]. }
    rewrite H1 in H2. apply IH; [exact H2|].
    intros x Hx. apply Hnone. now right.
Qed.

Lemma checkEach_active_rows (entries : list Signal) (sym : string)
    (price : Q) (w : Server) (row : Signal) :
  row ∈ signals (db (checkEach entries sym price w)) ->
  isActive row = true ->
  row ∈ signals (db w) /\ id row ∉ closedIds sym price entries.
Proof.
  revert w. induction entries as [|s rest IH]; intros w Hrow Hact.
  - split; [exact Hrow|]. apply not_elem_of_nil.
  - simpl in Hrow. unfold closedIds. simpl.
    fold (closedIds sym price rest). unfold closure.
    destruct (String.eqb (symbol s) sym && isActive s).
    + unfold checkSignalStatus in Hrow.
      destruct (hit s price) as [[r ht]|].
      * destruct (IH _ Hrow Hact) as [Hin Hnot]. simpl.
        unfold closeSignal in Hin.
        cbn [db signals createSignalHistory updateSignal] in Hin.
        apply list_elem_of_In, in_map_iff in Hin as (old & Hold & Hin).
        destruct (Z.eqb_spec (id old) (id s)) as [E|E].
        -- subst row. discriminate Hact.
        -- subst row. split; [now apply list_elem_of_In|].
           apply not_elem_of_cons. split; [congruence|exact Hnot].
      * simpl. now apply IH.
    + simpl. now apply IH.
Qed.

(** The two handlers of a tick do not coordinate.  When the tracker sees
    the closing tick first, the row it closes is no longer among the rows
    the handler of the routes looks at, so the closure is never reported
    to the risk-management service.  When the handler of the routes sees
    it first, the tracker still holds the signal and writes the history
    rows it would have written anyway. *)
Theorem closure_reported_only_if_routes_handler_is_first
    (w : Server) (tick : DerivTickData) (s : Signal) :
  let sym := mapDerivSymbolToDisplay (tick_symbol tick) in
  let price := quote tick in
  s ∈ trackedSignals w ->
  is_Some (closure sym price s) ->
  (forall row,
     row ∈ Routes.symbolSignals (db (processTickData w tick)) sym ->
     id row <> id s)
  /\ (forall w1,
        Routes.checkActiveSignals w sym price = Some w1 ->
        signalHistory (db (processTickData w1 tick))
        = signalHistory (db w) ++ omap (closure sym price) (trackedSignals w)
        /\ riskManagement (processTickData w1 tick) = riskManagement w1).
Proof.
  intros sym price Hs Hclose. split.
  - intros row Hrow. apply symbolSignals_elem in Hrow as (Hin & Hact & _).
    unfold processTickData in Hin. fold sym price in Hin.
    destruct (checkEach_active_rows _ _ _ _ _ Hin Hact) as [_ Hnot].
    intros E. apply Hnot. apply closedIds_elem.
    exists s. split; [exact Hs|]. split; [exact Hclose|]. now symmetry.
  - intros w1 H1.
    unfold Routes.checkActiveSignals in H1.
    destruct (closeEach_spec _ _ _ _ H1) as (Ht & Hh & _).
    split; [|apply processTickData_riskManagement].
    unfold processTickData. fold sym price.
    rewrite checkEach_history, Hh, Ht. reflexivity.
Qed.

End RoutesHandler.

(** ** Risk statistics over runs of trades *)

Section RiskStatistics.
Import Schema Storage RiskManagementService RiskRuns.
Local Open Scope Q_scope.

Lemma recordTrades_snoc (rm : RiskManagement) (trades : list (Q * bool))
    (pnl : Q) (isWin : bool) :
  recordTrades rm (trades ++ [(pnl, isWin)])
  = updateTradeResult (recordTrades rm trades) pnl isWin.
Proof. unfold recordTrades. now rewrite fold_left_app. Qed.

Lemma max_le (x y z : Q) : x <= z -> y <= z -> Js.max x y <= z.
Proof. intros Hx Hy. unfold Js.max. now destruct (Js.leb x y). Qed.

Lemma recorded_statistics (trades : list (Q * bool)) :
  let rm := recordTrades initial trades in
  0 <= currentDrawdown rm <= maxDrawdownReached rm
  /\ totalTrades rm = Z.of_nat (length trades)
  /\ (0 <= winningTrades rm <= totalTrades rm)%Z
  /\ (0 <= consecutiveLosses rm <= totalTrades rm - winningTrades rm)%Z
  /\ config rm = defaultConfig.
Proof.
  cbv zeta. induction trades as [|[pnl isWin] trades IH] using rev_ind.
  - simpl. repeat split; try lra; try lia; reflexivity.
  - rewrite recordTrades_snoc, length_app. simpl length.
    set (rm := recordTrades initial trades) in *.
    destruct IH as ([D0 D1] & T & W & L & C).
    unfold updateTradeResult.
    cbn [currentDrawdown maxDrawdownReached totalTrades winningTrades
         consecutiveLosses config].
    pose proof (Qabs_nonneg pnl) as Habs. unfold Js.abs.
    split; [|split; [|split; [|split]]].
    + destruct (Js.ltb pnl 0) eqn:E.
      * split; [lra|]. apply max_ge_r.
      * apply ltb_ge in E. split; [apply max_ge_l|].
        apply max_le; lra.
    + rewrite T. lia.
    + destruct isWin; lia.
    + destruct isWin; lia.
    + exact C.
Qed.

(** The statistics after any run of reported trades, from the service as
    constructed: the current drawdown is never negative and never above
    the maximum drawdown reached, the winning trades are among the
    trades counted, the losing streak is at most the number of trades
    not won, the win rate reported is a percentage, and the reduction of
    risk is signalled exactly from a streak of three losses. *)
Theorem risk_statistics_invariants (trades : list (Q * bool)) :
  let rm := recordTrades initial trades in
  let report := RiskReport.getRiskStatistics rm in
  0 <= currentDrawdown rm <= maxDrawdownReached rm
  /\ totalTrades rm = Z.of_nat (length trades)
  /\ (0 <= winningTrades rm <= totalTrades rm)%Z
  /\ (0 <= consecutiveLosses rm <= totalTrades rm - winningTrades rm)%Z
  /\ 0 <= RiskReport.st_winRate report <= 100
  /\ (RiskReport.st_shouldReduceRisk report = true
      <-> (3 <= consecutiveLosses rm)%Z).
Proof.
  cbv zeta.
  destruct (recorded_statistics trades) as (D & T & W & L & C).
  cbv zeta in D, T, W, L, C.
  set (rm := recordTrades initial trades) in *.
  split; [exact D|]. split; [exact T|]. split; [exact W|].
  split; [exact L|]. split.
  - unfold RiskReport.getRiskStatistics. cbn [RiskReport.st_winRate].
    destruct (Z.ltb_spec 0 (totalTrades rm)) as [Hpos|_]; [|lra].
    assert (Ht : 0 < inject_Z (totalTrades rm)).
    { change 0 with (inject_Z 0). now rewrite <- Zlt_Qlt. }
    assert (Hw0 : 0 <= inject_Z (winningTrades rm)).
    { change 0 with (inject_Z 0). rewrite <- Zle_Qle. lia. }
    assert (Hw1 : inject_Z (winningTrades rm) <= inject_Z (totalTrades rm)).
    { rewrite <- Zle_Qle. lia. }
    assert (E : inject_Z (winningTrades rm) / inject_Z (totalTrades rm) * 100
                == inject_Z (winningTrades rm) * 100
                   / inject_Z (totalTrades rm)) by (field; lra).
    rewrite E. split.
    + apply Qle_shift_div_l; [exact Ht|]. lra.
    + apply Qle_shift_div_r; [exact Ht|]. lra.
  - unfold RiskReport.getRiskStatistics.
    cbn [RiskReport.st_shouldReduceRisk]. rewrite C.
    cbn [maxConsecutiveLosses defaultConfig]. apply Z.leb_le.
Qed.

Lemma losses_only (trades : list (Q * bool)) :
  Forall (fun trade => fst trade < 0) trades ->
  let rm := recordTrades initial trades in
  maxDrawdownReached rm == currentDrawdown rm
  /\ totalPnL rm == - currentDrawdown rm
  /\ 0 <= currentDrawdown rm
  /\ (trades <> [] -> 0 < currentDrawdown rm)
  /\ config rm = defaultConfig.
Proof.
  cbv zeta. induction trades as [|[pnl isWin] trades IH] using rev_ind.
  - intros _. simpl. repeat split; try lra; try reflexivity. congruence.
  - intros Hall. apply Forall_app in Hall as [Hall Hlast].
    apply Forall_cons in Hlast as [Hneg _]. simpl in Hneg.
    rewrite recordTrades_snoc.
    set (rm := recordTrades initial trades) in *.
    destruct (IH Hall) as (M & P & D & _ & C).
    unfold updateTradeResult.
    cbn [currentDrawdown maxDrawdownReached totalPnL config].
    assert (Js.ltb pnl 0 = true) as -> by now apply ltb_lt.
    assert (Ha : Js.abs pnl == - pnl)
      by (unfold Js.abs; rewrite Qabs_neg; lra).
    destruct (max_case (maxDrawdownReached rm)
                (currentDrawdown rm + Js.abs pnl)) as [[-> H]|[-> H]];
      repeat split; try lra; exact C.
Qed.

Lemma default_risk_params (rm : RiskManagement)
    (signalData : InsertSignal) :
  config rm = defaultConfig ->
  let riskParams :=
    calculateEnhancedRiskParams rm (ins_symbol signalData)
      (ins_signalType signalData) (ins_entryPrice signalData)
      (ins_confidence signalData) 1 10000 in
  rp_riskRewardRatio riskParams == 25 # 10
  /\ 144 # 1000 <= rp_maxLossPercentage riskParams <= 12 # 10.
Proof.
  intros Hc. cbv zeta. unfold calculateEnhancedRiskParams. cbv zeta.
  match goal with
  | |- context [let '(a, b) := ?p in _] => destruct p as [slp tpp]
  end.
  cbn [rp_riskRewardRatio rp_maxLossPercentage].
  rewrite Hc. cbn [riskRewardRatio defaultConfig].
  assert (Hconf : 3 # 10 <= getConfidenceBasedRisk defaultConfig
                              (ins_confidence signalData) <= 15 # 10).
  { unfold getConfidenceBasedRisk, defaultConfig.
    cbn [risk_90_100 risk_80_89 risk_75_79 risk_70_74 risk_60_69
         risk_below_60].
    repeat match goal with
           | |- context [if ?b then _ else _] => destruct b
           end; split; lra. }
  assert (Hadj : 6 # 10 <= getConsecutiveLossAdjustment rm <= 1).
  { unfold getConsecutiveLossAdjustment.
    repeat match goal with
           | |- context [if ?b then _ else _] => destruct b
           end; split; lra. }
  assert (Hbase : 8 # 10 <= calculateBaseStopLoss (ins_symbol signalData) 1
                  <= 15 # 10).
  { unfold calculateBaseStopLoss.
    repeat match goal with
           | |- context [if ?b then _ else _] => destruct b
           end; split; lra. }
  set (risk := getConfidenceBasedRisk defaultConfig
                 (ins_confidence signalData)) in *.
  set (adj := getConsecutiveLossAdjustment rm) in *.
  set (base := calculateBaseStopLoss (ins_symbol signalData) 1) in *.
  split; [reflexivity|].
  destruct (min_case base (risk * adj * (8 # 10))) as [[-> H]|[-> H]];
    split; nra.
Qed.

Lemma valid_unless_stopped (rm : RiskManagement) (signalData : InsertSignal)
    (riskParams : EnhancedRiskParams) :
  2 <= rp_riskRewardRatio riskParams ->
  rp_maxLossPercentage riskParams <= 2 ->
  isValid (validateSignalRisk rm signalData riskParams)
  = negb (shouldStopTrading rm)
  /\ (forall w, In w (warnings (validateSignalRisk rm signalData riskParams)) ->
        match w with
        | RiskRewardBelowMinimum _ | RiskPerTradeExceedsMaximum _ => False
        | _ => True
        end).
Proof.
  intros Hr Hl. unfold validateSignalRisk. cbv zeta.
  cbn [isValid warnings].
  assert (Js.ltb (rp_riskRewardRatio riskParams) 2 = false) as ->
    by now apply ltb_ge.
  assert (Js.ltb 2 (rp_maxLossPercentage riskParams) = false) as ->
    by now apply ltb_ge.
  split; [reflexivity|].
  intros w Hw. cbn [app] in Hw.
  destruct (3 <=? consecutiveLosses rm)%Z,
    (ins_confidence signalData <? 75)%Z, (shouldStopTrading rm);
    simpl in Hw;
    repeat match goal with
           | H : _ \/ _ |- _ => destruct H as [<-|H]
           | H : False |- _ => contradiction
           end; exact I.
Qed.


(** A run of losing trades, however short and however small the losses,
    leaves the maximum drawdown equal to the whole loss, which is 100
    percent of the absolute total: the drawdown stop is reached, and the
    signal manager rejects every candidate without touching the
    repository. *)
Theorem losing_run_stops_signal_creation (trades : list (Q * bool))
    (d : Db) (signalData : InsertSignal) :
  trades <> [] ->
  Forall (fun trade => fst trade < 0) trades ->
  let rm := recordTrades initial trades in
  shouldStopTrading rm = true
  /\ SignalManager.createSignalWithConflictPrevention rm d signalData
     = (d, None).
Proof.
  intros Hne Hall. cbv zeta.
  destruct (losses_only trades Hall) as (M & P & D & Hpos & C).
  specialize (Hpos Hne).
  set (rm := recordTrades initial trades) in *.
  assert (Hstop : shouldStopTrading rm = true).
  { unfold shouldStopTrading, Js.div.
    assert (Ha : Js.abs (totalPnL rm) == currentDrawdown rm).
    { unfold Js.abs. rewrite P, Qabs_opp. apply Qabs_pos. lra. }
    assert (Js.eqb (Js.abs (totalPnL rm)) 0 = false) as ->.
    { unfold Js.eqb. destruct (Qeq_bool _ 0) eqn:E; [|reflexivity].
      apply Qeq_bool_iff in E. lra. }
    rewrite C. cbn [maxDrawdown defaultConfig]. apply ltb_lt.
    rewrite M, Ha.
    assert (E : currentDrawdown rm / currentDrawdown rm * 100 == 100)
      by (field; lra).
    rewrite E. reflexivity. }
  split; [exact Hstop|].
  unfold SignalManager.createSignalWithConflictPrevention. cbv zeta.
  destruct (default_risk_params rm signalData C) as [Hr Hl].
  cbv zeta in Hr, Hl.
  destruct (valid_unless_stopped rm signalData
              (calculateEnhancedRiskParams rm (ins_symbol signalData)
                 (ins_signalType signalData) (ins_entryPrice signalData)
                 (ins_confidence signalData) 1 10000)) as [Hvalid _];
    [lra|lra|].
  rewrite Hvalid, Hstop. reflexivity.
Qed.

End RiskStatistics.

(** ** Rows created by the signal manager *)

Section ManagerRows.
Import Schema Storage RiskManagementService SignalManager.
Local Open Scope Q_scope.





End ManagerRows.

(** ** Alerts the assistant sends *)

Section AlertKinds.
Import Schema Storage TacticalTradingAssistant.
Local Open Scope Q_scope.

Lemma deterioration_is_weakening (currentPrice profit : Q)
    (health : SignalHealthStatus) (last : option LastAlertState) :
  isProfitDeteriorating profit (trackedPeak last profit) = true ->
  isSignalWeakening currentPrice profit health last = true.
Proof.
  unfold isProfitDeteriorating.
  destruct (Js.ltb (trackedPeak last profit) 2) eqn:E2; [discriminate|].
  apply ltb_ge in E2. intros H. apply andb_true_iff in H as [Hdrop Hleft].
  apply ltb_lt in Hdrop, Hleft.
  destruct last as [l|].
  - pose proof (trackedPeak_max l profit) as Hmax.
    destruct (max_case (peakProfit l) profit) as [[Em _]|[Em _]];
      rewrite Em in Hmax; [|lra].
    unfold isSignalWeakening.
    assert (Js.ltb (15 # 10) (peakProfit l - profit) = true) as ->
      by (apply ltb_lt; lra).
    assert (Js.ltb 1 (peakProfit l) = true) as -> by (apply ltb_lt; lra).
    reflexivity.
  - exfalso. unfold trackedPeak in *. simpl from_option in *.
    assert (E0 : Js.orElse 0 0 = 0) by reflexivity.
    rewrite E0 in *.
    destruct (max_case 0 profit) as [[Em _]|[Em _]]; rewrite Em in *; lra.
Qed.

Lemma selectAlert_kinds (key : Z) (signal : Signal)
    (health : SignalHealthStatus) (last : option LastAlertState)
    (profit : Q) (now : Z) (alert : TacticalAlert) :
  selectAlert key signal health last profit (trackedPeak last profit) now
  = Some alert ->
  (alertType alert = AlertType.INVALIDATED
   \/ (alertType alert = AlertType.WARNING
       /\ quotedStop alert
          = Some (calculateDynamicRetestStopLoss signal
                    (h_currentPrice health) profit
                    (trackedPeak last profit))))
  /\ (last = None -> alertType alert = AlertType.INVALIDATED).
Proof.
  unfold selectAlert.
  destruct (isSignalInvalidated profit health).
  { intros [= <-]. split; [now left|reflexivity]. }
  destruct (isSignalWeakening (h_currentPrice health) profit health last)
    eqn:Ew.
  { intros [= <-]. split; [right; split; reflexivity|].
    intros ->. discriminate Ew. }
  destruct (isProfitDeteriorating profit (trackedPeak last profit)) eqn:Ed;
    [|discriminate].
  apply (deterioration_is_weakening (h_currentPrice health) _ health) in Ed.
  congruence.
Qed.

Lemma alert_kinds (states : gmap Z LastAlertState) (d : Db) (key : Z)
    (health : SignalHealthStatus) (now : Z) (alert : TacticalAlert) :
  snd (checkAndGenerateAlerts states d key health now) = Some alert ->
  exists signal,
    getSignalById d key = Some signal
    /\ (alertType alert = AlertType.INVALIDATED
        \/ (alertType alert = AlertType.WARNING
            /\ quotedStop alert
               = Some (calculateDynamicRetestStopLoss signal
                         (h_currentPrice health)
                         (profitPercentOf signal (h_currentPrice health))
                         (trackedPeak (states !! key)
                            (profitPercentOf signal
                               (h_currentPrice health))))))
    /\ (states !! key = None -> alertType alert = AlertType.INVALIDATED).
Proof.
  unfold checkAndGenerateAlerts.
  destruct (getSignalById d key) as [signal|]; [|discriminate].
  destruct (negb _ && throttled _ _); [discriminate|].
  destruct (selectAlert _ _ _ _ _ _ _) as [a|] eqn:Esel; [|discriminate].
  cbn [snd]. intros [= <-]. exists signal. split; [reflexivity|].
  now apply selectAlert_kinds in Esel.
Qed.

(** The branch of a health-check cycle that sends the PROFIT_PROTECTION
    alert is never taken: a drop of more than 2.5 from a peak of at
    least 2 is also a drop of more than 1.5 from a peak above 1, which
    makes the signal weakening first.  Every alert of a cycle is an
    INVALIDATED or a WARNING alert, the first cycle of a signal can only
    send INVALIDATED, and no run of cycles sends PROFIT_PROTECTION. *)
Theorem profit_protection_alert_never_sent
    (states : gmap Z LastAlertState) (d : Db) (key : Z) (signal : Signal) :
  getSignalById d key = Some signal ->
  ~ entryPrice signal == 0 ->
  (forall health now alert,
     snd (checkAndGenerateAlerts states d key health now) = Some alert ->
     (alertType alert = AlertType.INVALIDATED
      \/ alertType alert = AlertType.WARNING)
     /\ (states !! key = None -> alertType alert = AlertType.INVALIDATED))
  /\ (forall inputs b,
        b ∈ snd (cycles states d key inputs) ->
        alertType b <> AlertType.PROFIT_PROTECTION).
Proof.
  intros _ _. split.
  - intros health now alert H.
    destruct (alert_kinds _ _ _ _ _ _ H) as (_ & _ & [Hk|[Hk _]] & Hfirst);
      (split; [|exact Hfirst]); [now left|now right].
  - intros inputs. revert states.
    induction inputs as [|[health now] rest IH]; intros states b Hb.
    + now apply elem_of_nil in Hb.
    + rewrite cycles_cons_snd in Hb. apply elem_of_app in Hb as [Hb|Hb].
      * destruct (snd (checkAndGenerateAlerts states d key health now))
          as [a|] eqn:Ha; simpl in Hb; [|now apply elem_of_nil in Hb].
        apply list_elem_of_singleton in Hb. subst b.
        destruct (alert_kinds _ _ _ _ _ _ Ha)
          as (_ & _ & [Hk|[Hk _]] & _); rewrite Hk; discriminate.
      * exact (IH _ b Hb).
Qed.

Lemma profit_relation (entry price : Q) :
  0 < entry ->
  price - entry == (price - entry) / entry * 100 * (entry / 100)
  /\ entry - price == (entry - price) / entry * 100 * (entry / 100).
Proof. intros H. split; field; lra. Qed.

(** A WARNING alert quotes a stop-loss the price has already crossed
    whenever the profit has fallen below the share of the peak the stop
    is meant to lock (75 percent of a peak above 5, 60 percent of a peak
    above 3): for a BUY the quoted stop is above the current price, for
    a SELL below it. *)
Theorem warning_quotes_stop_beyond_price
    (states : gmap Z LastAlertState) (d : Db) (key : Z) (signal : Signal)
    (health : SignalHealthStatus) (now : Z) (alert : TacticalAlert) :
  getSignalById d key = Some signal ->
  0 < entryPrice signal ->
  snd (checkAndGenerateAlerts states d key health now) = Some alert ->
  alertType alert = AlertType.WARNING ->
  let price := h_currentPrice health in
  let profit := profitPercentOf signal price in
  let peak := trackedPeak (states !! key) profit in
  3 < peak ->
  profit < (if Js.ltb 5 peak then 75 # 100 else 6 # 10) * peak ->
  exists stop,
    quotedStop alert = Some stop
    /\ match signalType signal with
       | BUY => price < stop
       | _ => stop < price
       end.
Proof.
  intros Hsig Hentry Halert Hkind price profit peak Hpeak Hprofit.
  destruct (alert_kinds _ _ _ _ _ _ Halert) as (s' & Hs' & Hk & _).
  assert (s' = signal) by congruence. subst s'.
  destruct Hk as [Hk|[_ Hstop]]; [rewrite Hk in Hkind; discriminate|].
  fold price profit peak in Hstop.
  eexists. split; [exact Hstop|].
  destruct (profit_relation (entryPrice signal) price Hentry) as [Rb Rs].
  unfold calculateDynamicRetestStopLoss, lockedStop.
  assert (Hu : 0 < entryPrice signal / 100).
  { apply Qlt_shift_div_l; lra. }
  assert (Ed : forall k, entryPrice signal * (1 + k / 100)
                         == entryPrice signal + k * (entryPrice signal / 100))
    by (intros k; field).
  assert (Em : forall k, entryPrice signal * (1 - k / 100)
                         == entryPrice signal - k * (entryPrice signal / 100))
    by (intros k; field).
  set (u := entryPrice signal / 100) in *.
  destruct (Js.ltb 5 peak) eqn:E5.
  - unfold profit, profitPercentOf in Hprofit.
    destruct (signalType signal).
    + rewrite Ed. nra.
    + rewrite Em. nra.
    + rewrite Em. nra.
  - assert (Js.ltb 3 peak = true) as -> by now apply ltb_lt.
    unfold profit, profitPercentOf in Hprofit.
    destruct (signalType signal).
    + rewrite Ed. nra.
    + rewrite Em. nra.
    + rewrite Em. nra.
Qed.

End AlertKinds.

(** ** The tracked map and the sign of a closure *)

Section TrackerFacts.
Import Schema Storage SignalTracker.
Local Open Scope Q_scope.

Lemma track_ids (x : Signal) (l : list Signal) :
  NoDup (id <$> l) ->
  NoDup (id <$> track x l)
  /\ forall k, k ∈ id <$> track x l -> k = id x \/ k ∈ id <$> l.
Proof.
  induction l as [|y l IH]; intros Hnd.
  - cbn [track]. change (id <$> [x]) with [id x].
    split; [apply NoDup_singleton|].
    intros k Hk. apply list_elem_of_singleton in Hk. now left.
  - rewrite fmap_cons in Hnd. apply NoDup_cons in Hnd as [Hy Hnd].
    destruct (IH Hnd) as [IH1 IH2]. cbn [track].
    destruct (Z.eqb_spec (id y) (id x)) as [E|E].
    + rewrite fmap_cons. split.
      * apply NoDup_cons. split; [now rewrite <- E|exact Hnd].
      * intros k Hk. apply elem_of_cons in Hk as [->|Hk]; [now left|].
        right. rewrite fmap_cons. now right.
    + rewrite fmap_cons. split.
      * apply NoDup_cons. split; [|exact IH1].
        intros Hin. destruct (IH2 _ Hin) as [H|H]; [congruence|].
        contradiction.
      * intros k Hk. apply elem_of_cons in Hk as [->|Hk].
        -- right. rewrite fmap_cons. left.
        -- destruct (IH2 _ Hk) as [H|H]; [now left|].
           right. rewrite fmap_cons. now right.
Qed.

Lemma NoDup_filter_ids (P : Signal -> Prop) `{!forall x, Decision (P x)}
    (l : list Signal) :
  NoDup (id <$> l) -> NoDup (id <$> filter P l).
Proof.
  induction l as [|x l IH]; intros Hnd; [constructor|].
  rewrite fmap_cons in Hnd. apply NoDup_cons in Hnd as [Hx Hnd].
  destruct (decide (P x)) as [Hp|Hp].
  - rewrite filter_cons_True by exact Hp. rewrite fmap_cons.
    apply NoDup_cons. split; [|now apply IH].
    intros Hin. apply Hx. apply list_elem_of_fmap in Hin as (y & Hy & Hin).
    apply list_elem_of_filter in Hin as [_ Hin].
    rewrite Hy. now apply list_elem_of_fmap_2.
  - rewrite filter_cons_False by exact Hp. now apply IH.
Qed.

(** The tracked map holds one entry per id, whatever is done to it: a
    reload from the repository builds such a map, and adding a signal
    and processing a tick keep it one. *)
Theorem tracked_map_one_entry_per_id (w : Server) :
  NoDup (id <$> trackedSignals w) ->
  NoDup (id <$> trackedSignals (loadActiveSignals w))
  /\ (forall s, NoDup (id <$> trackedSignals (addSignalToTracking w s)))
  /\ (forall tick, NoDup (id <$> trackedSignals (processTickData w tick))).
Proof.
  intros Hnd. split; [|split].
  - unfold loadActiveSignals. cbn [trackedSignals].
    assert (H : forall l acc, NoDup (id <$> acc) ->
                NoDup (id <$> fold_left (fun acc s => track s acc) l acc)).
    { induction l as [|x l IH]; intros acc Hacc; [exact Hacc|].
      simpl. apply IH. now apply track_ids. }
    apply H. constructor.
  - intros s. unfold addSignalToTracking.
    destruct (isActive s); [|exact Hnd].
    cbn [trackedSignals]. now apply track_ids.
  - intros tick. unfold processTickData. rewrite checkEach_tracked.
    now apply NoDup_filter_ids.
Qed.

Lemma tracked_map_one_entry_per_id_witness :
  NoDup (id <$> trackedSignals Examples.trackingBoth)
  /\ NoDup (id <$> trackedSignals
                     (processTickData Examples.trackingBoth
                        Examples.tickAtTakeProfit)).
Proof.
  assert (Hnd : NoDup (id <$> trackedSignals Examples.trackingBoth)).
  { apply NoDup_cons. split; [|apply NoDup_singleton].
    intros H. apply list_elem_of_singleton in H. discriminate H. }
  split; [exact Hnd|].
  exact (proj2 (proj2 (tracked_map_one_entry_per_id Examples.trackingBoth
                         Hnd)) Examples.tickAtTakeProfit).
Defined.

(** A closure by the tracker on levels ordered by the direction of the
    signal is a WIN with a profit or a LOSS with a loss.  With a
    take-profit at or below the entry of a BUY, as
    [calculateTakeProfitStopLoss] sets it under a near resistance, a tick
    between the two closes the signal as a WIN with no profit. *)
Theorem win_is_a_profit_on_ordered_levels (s : Signal) (price tp sl : Q) :
  0 < entryPrice s ->
  takeProfitPrice s = Some tp -> stopLossPrice s = Some sl ->
  (forall r ht,
     hit s price = Some (r, ht) ->
     match signalType s with
     | BUY => sl < entryPrice s /\ entryPrice s < tp
     | _ => tp < entryPrice s /\ entryPrice s < sl
     end ->
     exists p,
       closingPnl s price = Some p
       /\ (r = WIN -> 0 < p) /\ (r = LOSS -> p < 0))
  /\ (signalType s = BUY -> ~ tp == 0 ->
      tp <= price -> price <= entryPrice s ->
      hit s price = Some (WIN, TP)
      /\ exists p, closingPnl s price = Some p /\ p <= 0).
Proof.
  intros Hentry Htp Hsl.
  assert (Hdiv : forall x, Js.div x (entryPrice s)
                           = Some (x / entryPrice s))
    by (intros x; now apply div_pos).
  assert (Hsign : forall x,
            (0 < x -> 0 < x / entryPrice s * 100)
            /\ (x < 0 -> x / entryPrice s * 100 < 0)
            /\ (x <= 0 -> x / entryPrice s * 100 <= 0)).
  { intros x.
    assert (E : x / entryPrice s * 100 == x * (100 / entryPrice s))
      by (field; lra).
    assert (Hk : 0 < 100 / entryPrice s)
      by (apply Qlt_shift_div_l; lra).
    rewrite E. repeat split; intros; nra. }
  split.
  - intros r ht Hhit Hord. unfold closingPnl. unfold hit in Hhit.
    rewrite Htp, Hsl in Hhit. unfold reachedUp, reachedDown in Hhit.
    destruct (signalType s); [| |discriminate];
      rewrite Hdiv; cbn [option_map]; eexists; (split; [reflexivity|]);
      destruct (Js.truthy tp), (Js.truthy sl); cbn [andb] in Hhit;
      repeat match type of Hhit with
             | context [Js.leb ?x ?y] =>
                 let E := fresh "E" in
                 destruct (Js.leb x y) eqn:E;
                 [apply leb_le in E|apply leb_gt in E]
             end;
      inversion Hhit; subst; split; intros; try discriminate;
      apply Hsign; lra.
  - intros Hbuy Hnz Hge Hle. split.
    + unfold hit. rewrite Hbuy, Htp. unfold reachedUp.
      assert (Js.truthy tp = true) as ->.
      { unfold Js.truthy, Js.eqb.
        destruct (Qeq_bool tp 0) eqn:E; [|reflexivity].
        now apply Qeq_bool_iff in E. }
      assert (Js.leb tp price = true) as -> by now apply leb_le.
      reflexivity.
    + unfold closingPnl. rewrite Hbuy, Hdiv. cbn [option_map].
      eexists. split; [reflexivity|]. apply Hsign. lra.
Qed.

Lemma win_is_a_profit_on_ordered_levels_witness :
  0 < entryPrice Examples.openBuy
  /\ takeProfitPrice Examples.openBuy = Some 110
  /\ stopLossPrice Examples.openBuy = Some 95
  /\ exists p, closingPnl Examples.openBuy 110 = Some p /\ 0 < p.
Proof.
  assert (H0 : 0 < entryPrice Examples.openBuy) by reflexivity.
  split; [exact H0|]. split; [reflexivity|]. split; [reflexivity|].
  destruct (proj1 (win_is_a_profit_on_ordered_levels Examples.openBuy 110
                     110 95 H0 eq_refl eq_refl) WIN TP)
    as (p & Hp & Hwin & _).
  - vm_compute. reflexivity.
  - split; reflexivity.
  - exists p. split; [exact Hp|]. now apply Hwin.
Defined.

End TrackerFacts.

(** ** Amounts at risk *)

Section RiskAmounts.
Import Schema RiskManagementService.
Local Open Scope Q_scope.



End RiskAmounts.

(** ** The health of a signal *)

Section HealthFacts.
Import Schema TacticalTradingAssistant SignalHealth.
Local Open Scope Q_scope.

Lemma clamp_range (x : Q) : 0 <= Js.max 0 (Js.min 100 x) <= 100.
Proof.
  split; [apply max_ge_l|].
  destruct (max_case 0 (Js.min 100 x)) as [[-> _]|[-> _]]; [lra|].
  apply min_le_l.
Qed.

(** The health score of a signal is a number between 0 and 100 and the
    status follows its thresholds: STRONG from 75, WEAKENING from 50,
    CRITICAL from 25 and INVALIDATED below.  A health score below 20 is
    therefore always reported as INVALIDATED, so on a computed health
    status the invalidation test of the alerts is the major loss or the
    status alone. *)
Theorem health_status_follows_score (signal : Signal) (currentPrice : Q)
    (trendAlignment : bool) (momentumStrength : Q)
    (health : SignalHealthStatus) :
  calculateSignalHealth signal currentPrice trendAlignment momentumStrength
  = Some health ->
  0 <= h_healthScore health <= 100
  /\ (h_status health = Status.STRONG <-> 75 <= h_healthScore health)
  /\ (h_status health = Status.INVALIDATED <-> h_healthScore health < 25)
  /\ forall profitPercent,
       isSignalInvalidated profitPercent health
       = Js.ltb profitPercent (- (25 # 10))
         || Status.eqb (h_status health) Status.INVALIDATED.
Proof.
  unfold calculateSignalHealth. cbv zeta.
  destruct (calculateRiskProximity _ _ _) as [proximity|]; [|discriminate].
  intros [= <-]. cbn [h_healthScore h_status].
  match goal with
  | |- context [Js.max 0 (Js.min 100 ?x)] =>
      pose proof (clamp_range x) as Hr;
      set (score := Js.max 0 (Js.min 100 x)) in *
  end.
  assert (Hstatus :
    (statusOf score = Status.STRONG <-> 75 <= score)
    /\ (statusOf score = Status.INVALIDATED <-> score < 25)).
  { unfold statusOf.
    destruct (Js.leb 75 score) eqn:E1;
      [apply leb_le in E1; split; split; intros; try discriminate;
       try reflexivity; lra|].
    apply leb_gt in E1.
    destruct (Js.leb 50 score) eqn:E2;
      [apply leb_le in E2; split; split; intros; try discriminate; lra|].
    apply leb_gt in E2.
    destruct (Js.leb 25 score) eqn:E3;
      [apply leb_le in E3; split; split; intros; try discriminate; lra|].
    apply leb_gt in E3.
    split; split; intros; try discriminate; try reflexivity; lra. }
  split; [exact Hr|]. split; [apply Hstatus|]. split; [apply Hstatus|].
  intros profitPercent. unfold isSignalInvalidated.
  cbn [h_healthScore h_status].
  destruct (Js.ltb profitPercent (- (25 # 10))); [reflexivity|].
  cbn [orb]. destruct (Js.ltb score 20) eqn:E; [|reflexivity].
  apply ltb_lt in E.
  assert (Hinv : statusOf score = Status.INVALIDATED)
    by (apply Hstatus; lra).
  rewrite Hinv. reflexivity.
Qed.

Lemma truthy_nonzero (x : Q) : ~ x == 0 -> Js.truthy x = true.
Proof.
  intros H. unfold Js.truthy, Js.eqb.
  destruct (Qeq_bool x 0) eqn:E; [|reflexivity].
  now apply Qeq_bool_iff in E.
Qed.

(** The two risk measures of the health check look at the distance of
    the price from the stop-loss, not at the side it is on: once the
    price is as far from the stop-loss as the entry is, whether back at
    the entry or beyond the stop by the planned loss again, the risk
    level reads LOW and the proximity to the stop-loss is 0. *)
Theorem risk_reads_low_beyond_the_stop (signal : Signal)
    (currentPrice stopLoss : Q) :
  ~ stopLoss == 0 -> ~ entryPrice signal == stopLoss ->
  Js.abs (entryPrice signal - stopLoss) <= Js.abs (currentPrice - stopLoss) ->
  assessRiskLevel signal currentPrice stopLoss = RISK_LOW
  /\ exists proximity,
       calculateRiskProximity signal currentPrice stopLoss = Some proximity
       /\ proximity == 0.
Proof.
  intros Hsl Hne Hfar.
  unfold assessRiskLevel, calculateRiskProximity.
  rewrite (truthy_nonzero _ Hsl). cbn [negb]. cbv zeta.
  assert (Hd : 0 < Js.abs (entryPrice signal - stopLoss)).
  { unfold Js.abs.
    destruct (abs_case (entryPrice signal - stopLoss)) as [[E H]|[E H]];
      unfold Js.abs in E; rewrite E.
    - destruct (Qeq_dec (entryPrice signal - stopLoss) 0) as [Z0|Z0];
        [exfalso; apply Hne; lra|lra].
    - destruct (Qeq_dec (entryPrice signal - stopLoss) 0) as [Z0|Z0];
        [exfalso; apply Hne; lra|lra]. }
  rewrite !div_pos by exact Hd.
  set (d := Js.abs (entryPrice signal - stopLoss)) in *.
  set (c := Js.abs (currentPrice - stopLoss)) in *.
  assert (Hratio : 1 <= c / d) by (apply Qle_shift_div_l; lra).
  split.
  - assert (Js.ltb (8 # 10) (c / d) = true) as -> by (apply ltb_lt; lra).
    reflexivity.
  - eexists. split; [reflexivity|].
    destruct (max_case 0 (1 - c / d)) as [[-> _]|[-> H]]; lra.
Qed.

Lemma risk_reads_low_beyond_the_stop_witness :
  ~ 95 == 0 /\ ~ entryPrice Examples.openBuy == 95
  /\ Js.abs (entryPrice Examples.openBuy - 95) <= Js.abs (90 - 95)
  /\ assessRiskLevel Examples.openBuy 90 95 = RISK_LOW.
Proof.
  assert (H1 : ~ 95 == 0) by (intros H; discriminate H).
  assert (H2 : ~ entryPrice Examples.openBuy == 95)
    by (intros H; discriminate H).
  assert (H3 : Js.abs (entryPrice Examples.openBuy - 95)
               <= Js.abs (90 - 95)) by (vm_compute; discriminate).
  split; [exact H1|]. split; [exact H2|]. split; [exact H3|].
  exact (proj1 (risk_reads_low_beyond_the_stop Examples.openBuy 90 95
                  H1 H2 H3)).
Defined.

Lemma health_status_follows_score_witness :
  exists health,
    calculateSignalHealth Examples.openBuy 104 true 60 = Some health
    /\ 0 <= h_healthScore health <= 100.
Proof.
  destruct (calculateSignalHealth Examples.openBuy 104 true 60)
    as [health|] eqn:E; [|vm_compute in E; discriminate E].
  exists health. split; [reflexivity|].
  exact (proj1 (health_status_follows_score Examples.openBuy 104 true 60
                  health E)).
Defined.

End HealthFacts.

(** ** Instances

    The statements above that carry assumptions, at sample inputs that
    meet them. *)

Section IndicatorInstances.
Import Schema Indicators.
Local Open Scope Q_scope.

Lemma macd_crossover_is_sign_of_macd_witness :
  exists m,
    calculateMACD MoreExamples.rising 2 3 = Some m
    /\ TechnicalAnalysisService.macd
         (MoreExamples.withMacd m Examples.oversold) = macd m
    /\ histogram m == macd m * (2 # 10).
Proof.
  destruct (calculateMACD MoreExamples.rising 2 3) as [m|] eqn:E;
    [|vm_compute in E; discriminate E].
  exists m. split; [reflexivity|]. split; [reflexivity|].
  exact (proj1 (macd_crossover_is_sign_of_macd MoreExamples.rising 2 3 m
                  (MoreExamples.withMacd m Examples.oversold)
                  (TechnicalAnalysisService.scores Examples.oversold)
                  E eq_refl eq_refl)).
Defined.

End IndicatorInstances.

Section TechnicalInstances.
Import Schema TechnicalAnalysisService.
Local Open Scope Q_scope.

Lemma take_profit_side_depends_on_nearby_level_witness :
  1 # 100 <= 100 /\ BUY <> HOLD
  /\ exists r,
       calculateTakeProfitStopLoss 100 BUY 80 MoreExamples.nearResistance
       = Some r
       /\ tp_stopLossPrice r < 100 /\ tp_takeProfitPrice r <= 100.
Proof.
  assert (H1 : 1 # 100 <= 100) by (unfold Qle; simpl; lia).
  assert (H2 : BUY <> HOLD) by discriminate.
  split; [exact H1|]. split; [exact H2|].
  destruct (take_profit_side_depends_on_nearby_level 100 BUY 80
              MoreExamples.nearResistance H1 H2) as (r & Hr & Hsl & Htp).
  exists r. split; [exact Hr|]. split; [exact Hsl|].
  apply Htp. split; [reflexivity|]. unfold Qle. simpl. lia.
Defined.

Lemma generateSignal_effective_thresholds_witness :
  exists r,
    generateSignal 20 Examples.oversold = Some r
    /\ (sr_signalType r = HOLD ->
        sr_takeProfitPrice r = None /\ sr_stopLossPrice r = None).
Proof.
  destruct (generateSignal 20 Examples.oversold) as [r|] eqn:E;
    [|vm_compute in E; discriminate E].
  exists r. split; [reflexivity|].
  exact (proj1 (generateSignal_effective_thresholds 20 Examples.oversold r
                  E)).
Defined.


End TechnicalInstances.
Section BatchInstances.
Import Schema ConsolidatedSignalGenerator ConsolidatedBatch.
Local Open Scope Z_scope.

Lemma cut_off_signals_still_limit_their_symbol_witness :
  2000000 <= 2000001 < 2000000 + RATE_LIMIT
  /\ exists s,
       s ∈ fst (collect ∅ 2000000 [MoreExamples.v10Input])
       /\ forall s',
            s' ∈ fst (collect
                        (snd (generateConsolidatedSignals ∅ 2000000
                                [MoreExamples.v10Input]))
                        2000001 [MoreExamples.v10Input]) ->
            symbol s' <> symbol s.
Proof.
  assert (H1 : 2000000 <= 2000001 < 2000000 + RATE_LIMIT)
    by (unfold RATE_LIMIT; lia).
  split; [exact H1|].
  destruct (fst (collect ∅ 2000000 [MoreExamples.v10Input]))
    as [|s l] eqn:E; [vm_compute in E; discriminate E|].
  exists s. split; [left|].
  assert (Hs : s ∈ fst (collect ∅ 2000000 [MoreExamples.v10Input]))
    by (rewrite E; left).
  exact (proj2 (cut_off_signals_still_limit_their_symbol ∅ 2000000 2000001
                  [MoreExamples.v10Input] [MoreExamples.v10Input] s H1 Hs)).
Defined.

End BatchInstances.

Section ConsolidatedInstances.
Import Schema ConsolidatedSignalGenerator ConsolidatedSignalTracker.
Local Open Scope Q_scope.

Lemma consolidated_signal_shape_witness :
  0 < 100 /\ 0 <= 50 <= 100
  /\ exists s,
       generateSignalForSymbol "V10" 100 Examples.bearishIndicators 50 []
       = Some s
       /\ action s <> HOLD /\ timeframe s <> SCALP.
Proof.
  assert (H1 : 0 < 100) by reflexivity.
  assert (H2 : 0 <= 50 <= 100) by (split; unfold Qle; simpl; lia).
  split; [exact H1|]. split; [exact H2|].
  destruct (generateSignalForSymbol "V10" 100 Examples.bearishIndicators
              50 []) as [s|] eqn:E; [|vm_compute in E; discriminate E].
  exists s. split; [reflexivity|].
  destruct (consolidated_signal_shape "V10" 100 Examples.bearishIndicators
              50 [] s H1 H2 E) as (Ha & _ & Ht & _).
  split; assumption.
Defined.

Lemma generated_sell_closes_at_first_check_witness :
  0 < 100
  /\ exists s closing,
       generateSignalForSymbol "V10" 100 Examples.bearishIndicators 50 []
       = Some s
       /\ action s = SELL
       /\ checkSignalStatus s None 0 100 = Some closing.
Proof.
  assert (H1 : 0 < 100) by reflexivity.
  split; [exact H1|].
  destruct (generateSignalForSymbol "V10" 100 Examples.bearishIndicators
              50 []) as [s|] eqn:E; [|vm_compute in E; discriminate E].
  assert (Ha : action s = SELL).
  { assert (E' := E). vm_compute in E'. injection E' as <-. reflexivity. }
  pose proof (generated_sell_closes_at_first_check "V10" 100
                Examples.bearishIndicators 50 [] s None 0 100 H1 E) as H.
  rewrite Ha in H. destruct H as (closing & Hc & _).
  exists s, closing. split; [reflexivity|]. split; [exact Ha|exact Hc].
Defined.

End ConsolidatedInstances.

Section RoutesInstances.
Import Schema Storage SignalTracker.
Local Open Scope Z_scope.

Lemma routes_handler_reports_each_closure_witness :
  exists w',
    Routes.checkActiveSignals Examples.trackingOpenBuy "V10" 110 = Some w'
    /\ trackedSignals w' = trackedSignals Examples.trackingOpenBuy
    /\ signalHistory (db w') = signalHistory (db Examples.trackingOpenBuy).
Proof.
  destruct (Routes.checkActiveSignals Examples.trackingOpenBuy "V10" 110)
    as [w'|] eqn:E; [|vm_compute in E; discriminate E].
  exists w'. split; [reflexivity|].
  destruct (routes_handler_reports_each_closure Examples.trackingOpenBuy w'
              "V10" 110 E) as (_ & Ht & Hh & _).
  split; assumption.
Defined.

Lemma closure_reported_only_if_routes_handler_is_first_witness :
  Examples.openBuy ∈ trackedSignals Examples.trackingOpenBuy
  /\ is_Some (closure "V10" 110 Examples.openBuy)
  /\ forall row,
       row ∈ Routes.symbolSignals
               (db (processTickData Examples.trackingOpenBuy
                      Examples.tickAtTakeProfit)) "V10" ->
       id row <> id Examples.openBuy.
Proof.
  assert (H1 : Examples.openBuy ∈ trackedSignals Examples.trackingOpenBuy)
    by (apply list_elem_of_singleton; reflexivity).
  assert (H2 : is_Some (closure "V10" 110 Examples.openBuy))
    by (vm_compute; eexists; reflexivity).
  split; [exact H1|]. split; [exact H2|].
  exact (proj1 (closure_reported_only_if_routes_handler_is_first
                  Examples.trackingOpenBuy Examples.tickAtTakeProfit
                  Examples.openBuy H1 H2)).
Defined.

End RoutesInstances.

Section ManagerInstances.
Import Schema Storage RiskManagementService RiskRuns SignalManager.
Local Open Scope Q_scope.


Lemma losing_run_stops_signal_creation_witness :
  [(- 1, false)] <> ([] : list (Q * bool))
  /\ Forall (fun trade : Q * bool => fst trade < 0) [(- 1, false)]
  /\ createSignalWithConflictPrevention MoreExamples.afterOneLoss
       Examples.emptyDb (Examples.buyV10 100 90)
     = (Examples.emptyDb, None).
Proof.
  assert (H1 : [(- 1, false)] <> ([] : list (Q * bool))) by discriminate.
  assert (H2 : Forall (fun trade : Q * bool => fst trade < 0)
                 [(- 1, false)])
    by (repeat constructor).
  split; [exact H1|]. split; [exact H2|].
  exact (proj2 (losing_run_stops_signal_creation [(- 1, false)]
                  Examples.emptyDb (Examples.buyV10 100 90) H1 H2)).
Defined.



Lemma deactivateConflictingSignals_all_witness :
  Examples.openBuy ∈ [Examples.openBuy]
  /\ is_Some (getSignalById Examples.storedOpenBuy (id Examples.openBuy))
  /\ replaced
       (deactivateConflictingSignals Examples.storedOpenBuy
          [Examples.openBuy]) 1.
Proof.
  assert (H1 : Examples.openBuy ∈ [Examples.openBuy])
    by (apply list_elem_of_singleton; reflexivity).
  assert (H2 : is_Some (getSignalById Examples.storedOpenBuy
                          (id Examples.openBuy)))
    by (eexists; reflexivity).
  split; [exact H1|]. split; [exact H2|].
  exact (deactivateConflictingSignals_all Examples.storedOpenBuy
           [Examples.openBuy] Examples.openBuy H1 H2).
Defined.

End ManagerInstances.

Section TrackerInstances.
Import Schema Storage SignalTracker.
Local Open Scope Q_scope.

Lemma closeSignal_effects_witness :
  getSignalById (db Examples.trackingOpenBuy) (id Examples.openBuy)
  = Some Examples.openBuy
  /\ id Examples.openBuy
     ∉ id <$> trackedSignals
                (closeSignal Examples.trackingOpenBuy Examples.openBuy 110
                   WIN TP).
Proof.
  split; [reflexivity|].
  exact (proj1 (proj2 (closeSignal_effects Examples.trackingOpenBuy
                         Examples.openBuy Examples.openBuy 110 WIN TP
                         eq_refl))).
Defined.

End TrackerInstances.

Section AlertInstances.
Import Schema Storage TacticalTradingAssistant.
Local Open Scope Q_scope.

Lemma profit_protection_alert_never_sent_witness :
  getSignalById Examples.storedOpenBuy 1 = Some Examples.openBuy
  /\ ~ entryPrice Examples.openBuy == 0
  /\ forall b,
       b ∈ snd (cycles ∅ Examples.storedOpenBuy 1
                  [(Examples.healthAt 106 Status.STRONG 80, 1000000%Z);
                   (Examples.healthAt 104 Status.STRONG 80, 1060000%Z)]) ->
       alertType b <> AlertType.PROFIT_PROTECTION.
Proof.
  assert (H1 : getSignalById Examples.storedOpenBuy 1
               = Some Examples.openBuy) by reflexivity.
  assert (H2 : ~ entryPrice Examples.openBuy == 0)
    by (intros H; discriminate H).
  split; [exact H1|]. split; [exact H2|].
  exact (proj2 (profit_protection_alert_never_sent ∅ Examples.storedOpenBuy
                  1 Examples.openBuy H1 H2) _).
Defined.

Lemma warning_quotes_stop_beyond_price_witness :
  exists alert stop,
    snd Examples.afterRetrace = Some alert
    /\ alertType alert = AlertType.WARNING
    /\ quotedStop alert = Some stop
    /\ 104 < stop.
Proof.
  destruct (snd Examples.afterRetrace) as [alert|] eqn:E;
    [|vm_compute in E; discriminate E].
  assert (Hk : alertType alert = AlertType.WARNING).
  { assert (E' := E). vm_compute in E'. injection E' as <-. reflexivity. }
  assert (H1 : getSignalById Examples.storedOpenBuy 1
               = Some Examples.openBuy) by reflexivity.
  assert (H2 : 0 < entryPrice Examples.openBuy) by reflexivity.
  destruct (warning_quotes_stop_beyond_price (fst Examples.atPeak)
              Examples.storedOpenBuy 1 Examples.openBuy
              (Examples.healthAt 104 Status.STRONG 80) 1060000 alert
              H1 H2 E Hk) as (stop & Hstop & Hbeyond).
  - vm_compute. reflexivity.
  - vm_compute. reflexivity.
  - exists alert, stop. split; [reflexivity|]. split; [exact Hk|].
    split; [exact Hstop|exact Hbeyond].
Defined.

End AlertInstances.
